(** * Train Data Converter: the prompt-to-JSON pipeline of app.py and converter.py

    A shallow embedding of the two Python modules of the repository
    (src/app.py, the FastAPI service, and src/converter.py, the earlier
    command-line script) together with the parts of the Python runtime, of the
    [json] module, of [langchain_core] and of Starlette's [JSONResponse] that
    the two modules call.

    Conventions.
    - A Python [str] is a list of Unicode code points ([list N]).
    - A Python exception is a record of its class and its message; a
      computation that can raise returns a [result].
    - The remote chat model is an oracle: the reply to the n-th call of the
      process, given the prompt.  Calls, prints and sleeps are recorded in an
      explicit [world]. *)

From Stdlib Require Import List ZArith NArith Bool Lia String Ascii Decimal.
From Stdlib Require DecimalPos DecimalN.
Import ListNotations.

Local Open Scope N_scope.

(** ** Python strings *)

(** A character is its code point. *)
Abbreviation char := N (only parsing).
Definition str := list char.

Definition hex_of_ascii (c : ascii) : N :=
  let n := N_of_ascii c in
  if (48 <=? n) && (n <=? 57) then n - 48
  else if (97 <=? n) && (n <=? 102) then n - 87
  else if (65 <=? n) && (n <=? 70) then n - 55
  else 0.

(** [u] reads an ASCII literal the way Python reads a string literal: [\n] is
    a line feed, [\r] a carriage return, [\t] a tab, [\\] a backslash and
    [\xHH] the code point with that hexadecimal number ([\x22] is the double
    quote); every other character stands for itself. *)
Fixpoint u (s : string) : str :=
  match s with
  | EmptyString => []
  | String c r =>
      if Ascii.eqb c "\"%char then
        match r with
        | String e r1 =>
            if Ascii.eqb e "n"%char then 10 :: u r1
            else if Ascii.eqb e "r"%char then 13 :: u r1
            else if Ascii.eqb e "t"%char then 9 :: u r1
            else if Ascii.eqb e "\"%char then 92 :: u r1
            else if Ascii.eqb e "x"%char then
              match r1 with
              | String h (String l r2) => (16 * hex_of_ascii h + hex_of_ascii l) :: u r2
              | _ => N_of_ascii c :: N_of_ascii e :: u r1
              end
            else N_of_ascii c :: N_of_ascii e :: u r1
        | EmptyString => [N_of_ascii c]
        end
      else N_of_ascii c :: u r
  end.
Arguments u s%_string.

Definition str_eqb (a b : str) : bool :=
  if list_eq_dec N.eq_dec a b then true else false.

(** [str.isspace] on one character: the code points Python treats as white
    space, which are also the ones [str.strip()] removes and [\s] matches. *)
Definition isspace (c : char) : bool :=
  ((9 <=? c) && (c <=? 13)) || ((28 <=? c) && (c <=? 32))
  || (c =? 133) || (c =? 160) || (c =? 5760)
  || ((8192 <=? c) && (c <=? 8202))
  || (c =? 8232) || (c =? 8233) || (c =? 8239) || (c =? 8287) || (c =? 12288).

Definition char_in (chars : str) (c : char) : bool := existsb (N.eqb c) chars.

Fixpoint lstrip_by (p : char -> bool) (s : str) : str :=
  match s with
  | c :: r => if p c then lstrip_by p r else s
  | [] => []
  end.

Definition rstrip_by (p : char -> bool) (s : str) : str :=
  List.rev (lstrip_by p (List.rev s)).

(** [s.strip()] *)
Definition strip (s : str) : str := rstrip_by isspace (lstrip_by isspace s).

(** [s.strip(chars)] *)
Definition strip_chars (chars s : str) : str :=
  rstrip_by (char_in chars) (lstrip_by (char_in chars) s).

(** [s.startswith(p)] *)
Fixpoint startswith (p s : str) : bool :=
  match p, s with
  | [], _ => true
  | a :: p', b :: s' => (a =? b) && startswith p' s'
  | _ :: _, [] => false
  end.

(** [s.endswith(p)] *)
Definition endswith (p s : str) : bool := startswith (List.rev p) (List.rev s).

(** [sub in s] for two strings: some position of [s] starts with [sub]. *)
Fixpoint contains (sub s : str) : bool :=
  startswith sub s || match s with [] => false | _ :: r => contains sub r end.

(** The text before and after the leftmost occurrence of [sub] in [s]. *)
Fixpoint str_partition (sub s : str) : option (str * str) :=
  if startswith sub s then Some ([], skipn (List.length sub) s)
  else match s with
       | [] => None
       | c :: r =>
           match str_partition sub r with
           | Some (before, rest) => Some (c :: before, rest)
           | None => None
           end
       end.

(** Decimal digits, as the characters '0' to '9'. *)
Fixpoint digits_str (d : uint) : str :=
  match d with
  | Nil => []
  | D0 d => 48 :: digits_str d | D1 d => 49 :: digits_str d
  | D2 d => 50 :: digits_str d | D3 d => 51 :: digits_str d
  | D4 d => 52 :: digits_str d | D5 d => 53 :: digits_str d
  | D6 d => 54 :: digits_str d | D7 d => 55 :: digits_str d
  | D8 d => 56 :: digits_str d | D9 d => 57 :: digits_str d
  end.

Definition digit_of_char (c : char) : option (uint -> uint) :=
  if c =? 48 then Some D0 else if c =? 49 then Some D1
  else if c =? 50 then Some D2 else if c =? 51 then Some D3
  else if c =? 52 then Some D4 else if c =? 53 then Some D5
  else if c =? 54 then Some D6 else if c =? 55 then Some D7
  else if c =? 56 then Some D8 else if c =? 57 then Some D9
  else None.

(** The longest run of decimal digits at the head of [s], and what follows. *)
Fixpoint scan_digits (s : str) : uint * str :=
  match s with
  | c :: r =>
      match digit_of_char c with
      | Some D => let (d, r') := scan_digits r in (D d, r')
      | None => (Nil, s)
      end
  | [] => (Nil, [])
  end.

(** [str(n)] for a Python int. *)
Definition str_of_int (z : Z) : str :=
  (if (z <? 0)%Z then u "-" else []) ++ digits_str (N.to_uint (Z.abs_N z)).

(** ** Exceptions *)

(** The exception classes that occur.  [JSONDecodeError],
    [OutputParserException], [UnicodeDecodeError] and [UnicodeEncodeError]
    are subclasses of [ValueError]; [OtherException] stands for any other
    class derived from [Exception] (the transport errors of the model
    endpoint, for instance).  [KeyboardInterrupt] and [SystemExit] are not
    modelled. *)
Inductive exn_class :=
| ValueError
| JSONDecodeError
| OutputParserException
| UnicodeDecodeError
| UnicodeEncodeError
| TypeError
| AttributeError
| KeyError
| RecursionError
| HTTPException (status_code : Z)
| OtherException (name : str).

Record exn := mkExn { exn_cls : exn_class; exn_msg : str }.

(** [isinstance(e, ValueError)] *)
Definition is_ValueError (e : exn) : bool :=
  match exn_cls e with
  | ValueError | JSONDecodeError | OutputParserException
  | UnicodeDecodeError | UnicodeEncodeError => true
  | _ => false
  end.

(** [isinstance(e, HTTPException)] *)
Definition is_HTTPException (e : exn) : bool :=
  match exn_cls e with HTTPException _ => true | _ => false end.

Inductive result (A : Type) :=
| Return (a : A)
| Raise (e : exn).
Arguments Return {A} a.
Arguments Raise {A} e.

Definition raise {A} (c : exn_class) (m : str) : result A := Raise (mkExn c m).

Definition bind {A B} (x : result A) (f : A -> result B) : result B :=
  match x with
  | Return a => f a
  | Raise e => Raise e
  end.

Notation "'let?' x ':=' e 'in' k" := (bind e (fun x => k))
  (at level 10, x pattern, e at level 200, k at level 200).

(** ** Python values *)

Inductive exp_sign := NoSign | Plus | Minus.

(** A float is kept as the literal that denotes it: its sign, integer part,
    fraction digits and exponent, or one of the three constants the [json]
    module accepts.  Floating-point arithmetic is not modelled: two literals
    of the same number are two values here, and [json.dumps] prints the
    literal back where Python prints the shortest literal of the number
    ([1.5] for [1.50], [Infinity] for [1e999]). *)
Inductive float_repr :=
| FNaN
| FInfinity (negative : bool)
| FNumber (negative : bool) (int_part : N) (frac : option uint) (exponent : option (exp_sign * uint)).

(** The objects [json.loads] builds.  A [dict] keeps its keys in insertion
    order and holds each key once. *)
Unset Elimination Schemes.
Inductive value :=
| PyNone
| PyBool (b : bool)
| PyInt (z : Z)
| PyFloat (f : float_repr)
| PyStr (s : str)
| PyList (l : list value)
| PyDict (d : list (str * value)).
Set Elimination Schemes.

Definition dict := list (str * value).

(** [d.get(k)] *)
Fixpoint dict_get (k : str) (d : dict) : option value :=
  match d with
  | [] => None
  | (k', v) :: r => if str_eqb k k' then Some v else dict_get k r
  end.

(** [k in d] *)
Definition dict_contains (k : str) (d : dict) : bool :=
  match dict_get k d with Some _ => true | None => false end.

(** [d[k] = v]: a key already present keeps its place and takes the new value,
    a new key goes last. *)
Fixpoint dict_set (k : str) (v : value) (d : dict) : dict :=
  match d with
  | [] => [(k, v)]
  | (k', v') :: r => if str_eqb k k' then (k, v) :: r else (k', v') :: dict_set k v r
  end.

(** [dict(pairs)] *)
Definition dict_of_pairs (pairs : list (str * value)) : dict :=
  fold_left (fun d kv => dict_set (fst kv) (snd kv) d) pairs [].

Definition keys (d : dict) : list str := map fst d.

(** ** The [json] module of the standard library

    [loads] follows the scanner of CPython's [json.decoder] and
    [json.scanner]; [dumps] follows [json.encoder] with the default
    arguments ([ensure_ascii=True], separators [", "] and [": "]).  Error
    messages are kept without their position suffix.

    Two limits of the interpreter are left out, so that the functions of
    this module succeed here on some arguments on which CPython raises:
    - the recursion limit (1000 frames by default): the scanner and the
      encoder of CPython raise [RecursionError] on lists and objects nested
      deeper than the frames that are left;
    - the limit on the conversion between [int] and [str] (4300 digits by
      default, since Python 3.11): CPython raises a plain [ValueError] when
      it reads or writes an integer with more digits.
    The statements that would depend on either limit carry it as a
    hypothesis (see [within_limits]). *)
Module json.

Definition decode_error {A} (m : string) : result A := raise JSONDecodeError (u m).

(** [WHITESPACE.match]: blanks, tabs, line feeds and carriage returns. *)
Definition is_ws (c : char) : bool :=
  (c =? 32) || (c =? 9) || (c =? 10) || (c =? 13).

Fixpoint skip_ws (s : str) : str :=
  match s with
  | c :: r => if is_ws c then skip_ws r else s
  | [] => []
  end.

Definition hexval (c : char) : option N :=
  if (48 <=? c) && (c <=? 57) then Some (c - 48)
  else if (97 <=? c) && (c <=? 102) then Some (c - 87)
  else if (65 <=? c) && (c <=? 70) then Some (c - 55)
  else None.

Definition hex4 (a b c d : char) : option N :=
  match hexval a, hexval b, hexval c, hexval d with
  | Some x, Some y, Some z, Some w => Some (((x * 16 + y) * 16 + z) * 16 + w)
  | _, _, _, _ => None
  end.

Definition is_high_surrogate (c : N) : bool := (55296 <=? c) && (c <=? 56319).
Definition is_low_surrogate (c : N) : bool := (56320 <=? c) && (c <=? 57343).
Definition join_surrogates (hi lo : N) : N :=
  65536 + (((hi - 55296) * 1024) + (lo - 56320)).

(** The [BACKSLASH] table of the decoder. *)
Definition BACKSLASH (e : char) : option char :=
  if e =? 34 then Some 34 else if e =? 92 then Some 92
  else if e =? 47 then Some 47 else if e =? 98 then Some 8
  else if e =? 102 then Some 12 else if e =? 110 then Some 10
  else if e =? 114 then Some 13 else if e =? 116 then Some 9
  else None.

Definition cons_char (c : char) (x : result (str * str)) : result (str * str) :=
  let? (s, r) := x in Return (c :: s, r).

(** [scanstring]: the text of a string whose opening quote has been read,
    and what follows its closing quote.  As in the C scanner, an escape
    [\uXXXX] must be followed by at least one more character, and a high
    surrogate is joined with the escape of a low surrogate that follows it
    when that escape is itself followed by a character. *)
Fixpoint scanstring (strict : bool) (s : str) : result (str * str) :=
  match s with
  | [] => decode_error "Unterminated string starting at"
  | c :: r =>
      if c =? 34 then Return ([], r)
      else if c =? 92 then
        match r with
        | [] => decode_error "Unterminated string starting at"
        | e :: r1 =>
            if e =? 117 then
              match r1 with
              | h1 :: h2 :: h3 :: h4 :: ((_ :: _) as r2) =>
                  match hex4 h1 h2 h3 h4 with
                  | None => decode_error "Invalid \uXXXX escape"
                  | Some uni =>
                      if is_high_surrogate uni then
                        match r2 with
                        | b :: v :: g1 :: g2 :: g3 :: g4 :: ((_ :: _) as r3) =>
                            if (b =? 92) && (v =? 117) then
                              match hex4 g1 g2 g3 g4 with
                              | None => decode_error "Invalid \uXXXX escape"
                              | Some uni2 =>
                                  if is_low_surrogate uni2
                                  then cons_char (join_surrogates uni uni2) (scanstring strict r3)
                                  else cons_char uni (scanstring strict r2)
                              end
                            else cons_char uni (scanstring strict r2)
                        | _ => cons_char uni (scanstring strict r2)
                        end
                      else cons_char uni (scanstring strict r2)
                  end
              | _ => decode_error "Invalid \uXXXX escape"
              end
            else
              match BACKSLASH e with
              | Some ch => cons_char ch (scanstring strict r1)
              | None => decode_error "Invalid \escape"
              end
        end
      else if strict && (c <? 32) then decode_error "Invalid control character at"
      else cons_char c (scanstring strict r)
  end.

(** [NUMBER_RE]: an optional minus sign, [0] or a run of digits that does not
    start with [0], then an optional fraction and an optional exponent. *)
Definition scan_int_part (s : str) : option (N * str) :=
  match s with
  | c :: r =>
      if c =? 48 then Some (0, r)
      else match digit_of_char c with
           | Some _ => let (d, r') := scan_digits s in Some (N.of_uint d, r')
           | None => None
           end
  | [] => None
  end.

Definition scan_frac (s : str) : option uint * str :=
  match s with
  | c :: r =>
      if c =? 46 then
        match scan_digits r with
        | (Nil, _) => (None, s)
        | (d, r') => (Some d, r')
        end
      else (None, s)
  | [] => (None, s)
  end.

Definition scan_sign (s : str) : exp_sign * str :=
  match s with
  | c :: r => if c =? 43 then (Plus, r) else if c =? 45 then (Minus, r) else (NoSign, s)
  | [] => (NoSign, s)
  end.

Definition scan_exp (s : str) : option (exp_sign * uint) * str :=
  match s with
  | c :: r =>
      if (c =? 101) || (c =? 69) then
        let (sg, r1) := scan_sign r in
        match scan_digits r1 with
        | (Nil, _) => (None, s)
        | (d, r2) => (Some (sg, d), r2)
        end
      else (None, s)
  | [] => (None, s)
  end.

(** An integer literal gives an [int], a literal with a fraction or an
    exponent a [float]. *)
Definition number_value (neg : bool) (n : N) (frac : option uint)
    (exp : option (exp_sign * uint)) : value :=
  match frac, exp with
  | None, None => PyInt (if neg then - Z.of_N n else Z.of_N n)
  | _, _ => PyFloat (FNumber neg n frac exp)
  end.

Definition match_number (s : str) : option (value * str) :=
  let (neg, s1) :=
    match s with
    | c :: r => if c =? 45 then (true, r) else (false, s)
    | [] => (false, s)
    end in
  match scan_int_part s1 with
  | None => None
  | Some (n, r) =>
      let (frac, r1) := scan_frac r in
      let (exp, r2) := scan_exp r1 in
      Some (number_value neg n frac exp, r2)
  end.

Definition recursion_error {A} : result A :=
  raise RecursionError (u "maximum recursion depth exceeded").

(** [scan_once] with [JSONObject] and [JSONArray].  The first argument bounds
    the number of nested calls; [loads] passes a bound no text reaches, so
    that the scanner never raises [RecursionError] here. *)
Fixpoint scan_once (fuel : nat) (strict : bool) (s : str) {struct fuel}
  : result (value * str) :=
  match fuel with
  | O => recursion_error
  | S f =>
      match s with
      | [] => decode_error "Expecting value"
      | c :: r =>
          if c =? 34 then
            let? (t, r') := scanstring strict r in Return (PyStr t, r')
          else if c =? 123 then
            match skip_ws r with
            | c1 :: r1 =>
                if c1 =? 125 then Return (PyDict [], r1)
                else
                  let? (pairs, r') := object_members f strict (c1 :: r1) in
                  Return (PyDict (dict_of_pairs pairs), r')
            | [] => decode_error "Expecting property name enclosed in double quotes"
            end
          else if c =? 91 then
            match skip_ws r with
            | c1 :: r1 =>
                if c1 =? 93 then Return (PyList [], r1)
                else
                  let? (items, r') := array_items f strict (c1 :: r1) in
                  Return (PyList items, r')
            | [] => decode_error "Expecting value"
            end
          else if startswith (u "null") s then Return (PyNone, skipn 4 s)
          else if startswith (u "true") s then Return (PyBool true, skipn 4 s)
          else if startswith (u "false") s then Return (PyBool false, skipn 5 s)
          else
            match match_number s with
            | Some x => Return x
            | None =>
                if startswith (u "NaN") s then Return (PyFloat FNaN, skipn 3 s)
                else if startswith (u "Infinity") s
                then Return (PyFloat (FInfinity false), skipn 8 s)
                else if startswith (u "-Infinity") s
                then Return (PyFloat (FInfinity true), skipn 9 s)
                else decode_error "Expecting value"
            end
      end
  end
with object_members (fuel : nat) (strict : bool) (s : str) {struct fuel}
  : result (list (str * value) * str) :=
  match fuel with
  | O => recursion_error
  | S f =>
      match s with
      | c :: r =>
          if c =? 34 then
            let? (k, r1) := scanstring strict r in
            match skip_ws r1 with
            | c2 :: r2 =>
                if c2 =? 58 then
                  let? (v, r3) := scan_once f strict (skip_ws r2) in
                  match skip_ws r3 with
                  | c4 :: r4 =>
                      if c4 =? 125 then Return ([(k, v)], r4)
                      else if c4 =? 44 then
                        let? (rest, r5) := object_members f strict (skip_ws r4) in
                        Return ((k, v) :: rest, r5)
                      else decode_error "Expecting ',' delimiter"
                  | [] => decode_error "Expecting ',' delimiter"
                  end
                else decode_error "Expecting ':' delimiter"
            | [] => decode_error "Expecting ':' delimiter"
            end
          else decode_error "Expecting property name enclosed in double quotes"
      | [] => decode_error "Expecting property name enclosed in double quotes"
      end
  end
with array_items (fuel : nat) (strict : bool) (s : str) {struct fuel}
  : result (list value * str) :=
  match fuel with
  | O => recursion_error
  | S f =>
      let? (v, r1) := scan_once f strict s in
      match skip_ws r1 with
      | c2 :: r2 =>
          if c2 =? 93 then Return ([v], r2)
          else if c2 =? 44 then
            let? (rest, r3) := array_items f strict (skip_ws r2) in
            Return (v :: rest, r3)
          else decode_error "Expecting ',' delimiter"
      | [] => decode_error "Expecting ',' delimiter"
      end
  end.

Definition fuel_for (s : str) : nat := S (2 * List.length s).

(** [json.loads(s, strict=strict)] *)
Definition loads (strict : bool) (s : str) : result value :=
  if startswith [65279] s
  then decode_error "Unexpected UTF-8 BOM (decode using utf-8-sig)"
  else
    let? (v, r) := scan_once (fuel_for s) strict (skip_ws s) in
    match skip_ws r with
    | [] => Return v
    | _ :: _ => decode_error "Extra data"
    end.

(** *** The encoder *)

Definition hexdigit (n : N) : char := if n <? 10 then 48 + n else 87 + n.

(** [\uXXXX] with four lower-case hexadecimal digits. *)
Definition u_escape (c : N) : str :=
  [92; 117; hexdigit (c / 4096); hexdigit ((c / 256) mod 16);
   hexdigit ((c / 16) mod 16); hexdigit (c mod 16)].

(** [py_encode_basestring_ascii] on one character. *)
Definition escape_char (c : char) : str :=
  if c =? 34 then [92; 34]
  else if c =? 92 then [92; 92]
  else if c =? 10 then [92; 110]
  else if c =? 13 then [92; 114]
  else if c =? 9 then [92; 116]
  else if c =? 12 then [92; 102]
  else if c =? 8 then [92; 98]
  else if (32 <=? c) && (c <=? 126) then [c]
  else if c <? 65536 then u_escape c
  else
    let n := c - 65536 in
    u_escape (55296 + (n / 1024) mod 1024) ++ u_escape (56320 + n mod 1024).

Definition encode_str (s : str) : str := [34] ++ flat_map escape_char s ++ [34].

Definition sign_str (sg : exp_sign) : str :=
  match sg with NoSign => [] | Plus => [43] | Minus => [45] end.

Definition float_str (f : float_repr) : str :=
  match f with
  | FNaN => u "NaN"
  | FInfinity neg => (if neg then [45] else []) ++ u "Infinity"
  | FNumber neg n frac exp =>
      (if neg then [45] else []) ++ digits_str (N.to_uint n)
      ++ match frac with Some d => 46 :: digits_str d | None => [] end
      ++ match exp with Some (sg, d) => 101 :: sign_str sg ++ digits_str d | None => [] end
  end.

(** [json.dumps(v)], for a [v] within the limits of the interpreter. *)
Fixpoint dumps (v : value) : str :=
  match v with
  | PyNone => u "null"
  | PyBool true => u "true"
  | PyBool false => u "false"
  | PyInt z => str_of_int z
  | PyFloat f => float_str f
  | PyStr s => encode_str s
  | PyList l =>
      [91] ++ (fix items (l : list value) : str :=
                 match l with
                 | [] => []
                 | x :: r => dumps x ++ match r with [] => [] | _ :: _ => u ", " ++ items r end
                 end) l ++ [93]
  | PyDict d =>
      [123] ++ (fix members (d : list (str * value)) : str :=
                  match d with
                  | [] => []
                  | (k, x) :: r =>
                      encode_str k ++ u ": " ++ dumps x
                      ++ match r with [] => [] | _ :: _ => u ", " ++ members r end
                  end) d ++ [125]
  end.

(** *** The encoder with [allow_nan=False] and [ensure_ascii=False] *)

(** A float literal denotes the double nearest to its value, and infinity
    when its magnitude is at least 2^1024 - 2^970, half-way between the
    largest double and 2^1024. *)
Definition float_overflows (n : N) (frac : option uint)
    (exp : option (exp_sign * uint)) : bool :=
  let digits := match frac with Some d => d | None => Nil end in
  let k := Z.of_nat (nb_digits digits) in
  let m := (Z.of_N n * 10 ^ k + Z.of_N (N.of_uint digits))%Z in
  let e := (match exp with
            | Some (Minus, d) => - Z.of_N (N.of_uint d)
            | Some (_, d) => Z.of_N (N.of_uint d)
            | None => 0
            end - k)%Z in
  let bound := (2 ^ 1024 - 2 ^ 970)%Z in
  if (0 <=? e)%Z then (bound <=? m * 10 ^ e)%Z else (bound * 10 ^ (- e) <=? m)%Z.

(** [math.isfinite(f)] *)
Definition is_finite (f : float_repr) : bool :=
  match f with
  | FNaN | FInfinity _ => false
  | FNumber _ n frac exp => negb (float_overflows n frac exp)
  end.

(** [py_encode_basestring] on one character: the quote, the backslash and
    the control characters are escaped, every other character is written
    as it is. *)
Definition escape_char_unicode (c : char) : str :=
  if c =? 34 then [92; 34]
  else if c =? 92 then [92; 92]
  else if c =? 10 then [92; 110]
  else if c =? 13 then [92; 114]
  else if c =? 9 then [92; 116]
  else if c =? 12 then [92; 102]
  else if c =? 8 then [92; 98]
  else if c <? 32 then u_escape c
  else [c].

Definition encode_str_unicode (s : str) : str :=
  [34] ++ flat_map escape_char_unicode s ++ [34].

Definition out_of_range {A} : result A :=
  raise ValueError (u "Out of range float values are not JSON compliant").

(** [json.dumps(v, ensure_ascii=False, allow_nan=False, separators=(",", ":"))]:
    the first float that is not finite raises [ValueError]. *)
Fixpoint dumps_compact (v : value) : result str :=
  match v with
  | PyNone => Return (u "null")
  | PyBool true => Return (u "true")
  | PyBool false => Return (u "false")
  | PyInt z => Return (str_of_int z)
  | PyFloat f => if is_finite f then Return (float_str f) else out_of_range
  | PyStr s => Return (encode_str_unicode s)
  | PyList l =>
      let? body :=
        (fix items (l : list value) : result str :=
           match l with
           | [] => Return []
           | x :: r =>
               let? first := dumps_compact x in
               match r with
               | [] => Return first
               | _ :: _ => let? rest := items r in Return (first ++ [44] ++ rest)
               end
           end) l in
      Return ([91] ++ body ++ [93])
  | PyDict d =>
      let? body :=
        (fix members (d : list (str * value)) : result str :=
           match d with
           | [] => Return []
           | (k, x) :: r =>
               let? first := dumps_compact x in
               match r with
               | [] => Return (encode_str_unicode k ++ [58] ++ first)
               | _ :: _ =>
                   let? rest := members r in
                   Return (encode_str_unicode k ++ [58] ++ first ++ [44] ++ rest)
               end
           end) d in
      Return ([123] ++ body ++ [125])
  end.

End json.

(** ** The parts of [langchain_core] the program calls

    [PromptTemplate] with the default f-string format, and
    [JsonOutputParser.parse] with its helpers [parse_json_markdown],
    [_parse_json], [_custom_parser] and [parse_partial_json] of
    [langchain_core.utils.json]. *)
Module langchain.

Definition is_JSONDecodeError (e : exn) : bool :=
  match exn_cls e with JSONDecodeError => true | _ => false end.

(** *** Prompt templates *)

Record PromptTemplate := mkPromptTemplate {
  template : str;
  input_variables : list str;
  partial_variables : list (str * str)
}.

Fixpoint lookup (name : str) (kwargs : list (str * str)) : option str :=
  match kwargs with
  | [] => None
  | (k, v) :: r => if str_eqb name k then Some v else lookup name r
  end.

(** [string.Formatter.format] for replacement fields that are plain names:
    [{{] and [}}] stand for one brace, [{name}] for the value of [name],
    which is inserted as it is and not read again.  [field] holds the name
    being read inside braces.  Conversions and format specifications are not
    modelled; the program's templates use none. *)
Fixpoint format_from (kwargs : list (str * str)) (field : option str) (t : str)
  : result str :=
  match t with
  | [] =>
      match field with
      | None => Return []
      | Some _ => raise ValueError (u "expected '}' before end of string")
      end
  | c :: r =>
      match field with
      | Some name =>
          if c =? 125 then
            match lookup name kwargs with
            | Some v => let? out := format_from kwargs None r in Return (v ++ out)
            | None => raise KeyError name
            end
          else if c =? 123 then raise ValueError (u "unexpected '{' in field name")
          else format_from kwargs (Some (name ++ [c])) r
      | None =>
          if c =? 123 then
            match r with
            | c' :: r' =>
                if c' =? 123
                then let? out := format_from kwargs None r' in Return (123 :: out)
                else format_from kwargs (Some []) r
            | [] => raise ValueError (u "Single '{' encountered in format string")
            end
          else if c =? 125 then
            match r with
            | c' :: r' =>
                if c' =? 125
                then let? out := format_from kwargs None r' in Return (125 :: out)
                else raise ValueError (u "Single '}' encountered in format string")
            | [] => raise ValueError (u "Single '}' encountered in format string")
            end
          else let? out := format_from kwargs None r in Return (c :: out)
      end
  end.

(** [prompt.format] with keyword arguments [kwargs]: the partial variables
    are merged under the caller's. *)
Definition format (p : PromptTemplate) (kwargs : list (str * str)) : result str :=
  format_from (kwargs ++ partial_variables p) None (template p).

(** *** Lenient JSON parsing *)

(** The [for] loop of [parse_partial_json]: [new_chars] collects the
    characters read (a line feed inside a string becomes the two characters
    of its escape), [stack] the closing brackets still owed, last opened
    last.  [None] is the early [return None] on a closing bracket that does
    not match. *)
Fixpoint scan_chars (s : str) (new_chars : list str) (stack : str)
    (is_inside_string escaped : bool) : option (list str * str * bool * bool) :=
  match s with
  | [] => Some (new_chars, stack, is_inside_string, escaped)
  | c :: r =>
      if is_inside_string then
        if (c =? 34) && negb escaped
        then scan_chars r (new_chars ++ [[c]]) stack false escaped
        else if (c =? 10) && negb escaped
        then scan_chars r (new_chars ++ [[92; 110]]) stack true escaped
        else if c =? 92
        then scan_chars r (new_chars ++ [[c]]) stack true (negb escaped)
        else scan_chars r (new_chars ++ [[c]]) stack true false
      else if c =? 34 then scan_chars r (new_chars ++ [[c]]) stack true false
      else if c =? 123 then scan_chars r (new_chars ++ [[c]]) (stack ++ [125]) false escaped
      else if c =? 91 then scan_chars r (new_chars ++ [[c]]) (stack ++ [93]) false escaped
      else if (c =? 125) || (c =? 93) then
        match List.rev stack with
        | top :: below =>
            if top =? c
            then scan_chars r (new_chars ++ [[c]]) (List.rev below) false escaped
            else None
        | [] => None
        end
      else scan_chars r (new_chars ++ [[c]]) stack false escaped
  end.

(** The [while new_chars] loop, on the characters in reverse: parse the
    characters followed by the closing brackets, and drop the last character
    while that fails with a [JSONDecodeError].  [None]: no character is
    left. *)
Fixpoint try_prefixes (strict : bool) (rev_chars : list str) (closing : str)
  : option (result value) :=
  match rev_chars with
  | [] => None
  | _ :: shorter =>
      match json.loads strict (List.concat (List.rev rev_chars) ++ closing) with
      | Return v => Some (Return v)
      | Raise e =>
          if is_JSONDecodeError e then try_prefixes strict shorter closing
          else Some (Raise e)
      end
  end.

Definition parse_partial_json (strict : bool) (s : str) : result value :=
  match json.loads strict s with
  | Return v => Return v
  | Raise e =>
      if is_JSONDecodeError e then
        match scan_chars s [] [] false false with
        | None => Return PyNone
        | Some (new_chars, stack, is_inside_string, escaped) =>
            let new_chars :=
              if is_inside_string
              then (if escaped then removelast new_chars else new_chars) ++ [[34]]
              else new_chars in
            match try_prefixes strict (List.rev new_chars) (List.rev stack) with
            | Some x => x
            | None => json.loads strict s
            end
        end
      else Raise e
  end.

(** [_replace_new_line]: line feeds, carriage returns and tabs of the matched
    value become their two-character escapes, then every double quote that
    no backslash precedes gets one. *)
Fixpoint escape_newlines (s : str) : str :=
  match s with
  | [] => []
  | c :: r =>
      if c =? 10 then 92 :: 110 :: escape_newlines r
      else if c =? 13 then 92 :: 114 :: escape_newlines r
      else if c =? 9 then 92 :: 116 :: escape_newlines r
      else c :: escape_newlines r
  end.

Fixpoint escape_quotes (after_backslash : bool) (s : str) : str :=
  match s with
  | [] => []
  | c :: r =>
      if (c =? 34) && negb after_backslash
      then 92 :: 34 :: escape_quotes false r
      else c :: escape_quotes (c =? 92) r
  end.

Definition _replace_new_line (value : str) : str :=
  escape_quotes false (escape_newlines value).

Fixpoint take_while (p : char -> bool) (s : str) : str :=
  match s with
  | c :: r => if p c then c :: take_while p r else []
  | [] => []
  end.

(** One match of the pattern of [_custom_parser] at the head of [s]: the key
    [action_input] in quotes, a colon, white space, a quote, the shortest
    text up to the next quote.  The result is the replacement and the text
    after the match. *)
Definition match_action_input (s : str) : option (str * str) :=
  let key := u "\x22action_input\x22:" in
  if startswith key s then
    let after := skipn (List.length key) s in
    match lstrip_by isspace after with
    | q :: body =>
        if q =? 34 then
          match str_partition [34] body with
          | Some (value, rest) =>
              Some (key ++ take_while isspace after ++ [34]
                    ++ _replace_new_line value ++ [34], rest)
          | None => None
          end
        else None
    | [] => None
    end
  else None.

(** [re.sub] with that pattern, from left to right. *)
Fixpoint custom_parser_from (fuel : nat) (s : str) : str :=
  match fuel with
  | O => s
  | S f =>
      match match_action_input s with
      | Some (replacement, rest) => replacement ++ custom_parser_from f rest
      | None =>
          match s with
          | [] => []
          | c :: r => c :: custom_parser_from f r
          end
      end
  end.

Definition _custom_parser (multiline_string : str) : str :=
  custom_parser_from (List.length multiline_string) multiline_string.

Definition _json_strip_chars : str := u " \n\r\t`".

Definition _parse_json (json_str : str) : result value :=
  let json_str := strip_chars _json_strip_chars json_str in
  let json_str := _custom_parser json_str in
  parse_partial_json false json_str.

(** [_json_markdown_re.search]: group 2 of the leftmost match of three
    backticks, an optional [json], and the rest of the text. *)
Definition search_fence (json_string : str) : option str :=
  match str_partition (u "```") json_string with
  | Some (_, after) =>
      Some (if startswith (u "json") after then skipn 4 after else after)
  | None => None
  end.

Definition parse_json_markdown (json_string : str) : result value :=
  match _parse_json json_string with
  | Return v => Return v
  | Raise e =>
      if is_JSONDecodeError e then
        let json_str :=
          match search_fence json_string with
          | None => json_string
          | Some group2 => group2
          end in
        _parse_json json_str
      else Raise e
  end.

(** [JsonOutputParser().parse(text)] *)
Definition parse (text : str) : result value :=
  let text := strip text in
  match parse_json_markdown text with
  | Return v => Return v
  | Raise e =>
      if is_JSONDecodeError e
      then raise OutputParserException (u "Invalid json output: " ++ text)
      else Raise e
  end.

(** [JsonOutputParser().get_format_instructions()] *)
Definition get_format_instructions : str := u "Return a JSON object.".

End langchain.

(** ** Effects: the remote model, standard output and the clock *)

(** What a model call returns: a message with a [content] attribute, or some
    other object, of which the program takes [str(result)]. *)
Inductive response :=
| AIMessage (content : str)
| OtherResult (as_str : str).

(** The chat model behind an endpoint: the outcome of the n-th call made by
    the process (counting from 0), given the prompt. *)
Definition ChatHuggingFace := nat -> str -> result response.

Inductive event :=
| Invoked (prompt : str)
| Printed (line : str)
| Slept (seconds : Z).

Record world := mkWorld { calls : nat; trace : list event }.

Definition M (A : Type) := world -> result A * world.

Definition ret {A} (a : A) : M A := fun w => (Return a, w).
Definition throw {A} (e : exn) : M A := fun w => (Raise e, w).
Definition lift {A} (r : result A) : M A := fun w => (r, w).

Definition mbind {A B} (m : M A) (k : A -> M B) : M B :=
  fun w =>
    match m w with
    | (Return a, w') => k a w'
    | (Raise e, w') => (Raise e, w')
    end.

Notation "x <- m ;; k" := (mbind m (fun x => k))
  (at level 61, m at next level, right associativity).
Notation "m ;;; k" := (mbind m (fun _ => k))
  (at level 61, right associativity).

(** [try: body except: handler] *)
Definition try_except {A} (body : M A) (handler : exn -> M A) : M A :=
  fun w =>
    match body w with
    | (Return a, w') => (Return a, w')
    | (Raise e, w') => handler e w'
    end.

Definition invoke (model : ChatHuggingFace) (prompt : str) : M response :=
  fun w =>
    (model (calls w) prompt,
     mkWorld (S (calls w)) (trace w ++ [Invoked prompt])).

Definition print (line : str) : M unit :=
  fun w => (Return tt, mkWorld (calls w) (trace w ++ [Printed line])).

Definition sleep (seconds : Z) : M unit :=
  fun w => (Return tt, mkWorld (calls w) (trace w ++ [Slept seconds])).

(** [(template | model).invoke(inputs)]: the prompt is formatted and sent. *)
Definition chain_invoke (template : langchain.PromptTemplate)
    (model : ChatHuggingFace) (inputs : list (str * str)) : M response :=
  prompt <- lift (langchain.format template inputs) ;;
  invoke model prompt.

(** [result.content if hasattr(result, 'content') else str(result)] *)
Definition text_of (r : response) : str :=
  match r with
  | AIMessage content => content
  | OtherResult as_str => as_str
  end.

(** The number of model calls recorded in a trace. *)
Definition invocations (t : list event) : nat :=
  List.length (filter (fun e => match e with Invoked _ => true | _ => false end) t).

(** ** Operations on Python objects used by both modules *)

Definition type_name (v : value) : string :=
  match v with
  | PyNone => "NoneType" | PyBool _ => "bool" | PyInt _ => "int"
  | PyFloat _ => "float" | PyStr _ => "str" | PyList _ => "list"
  | PyDict _ => "dict"
  end.

(** [x == key] for a string [key] *)
Definition eq_str (key : str) (x : value) : bool :=
  match x with PyStr s => str_eqb s key | _ => false end.

(** [key in data]: key lookup in a dict, element search in a list, substring
    test in a string; the other types are not containers. *)
Definition py_contains (key : str) (data : value) : result bool :=
  match data with
  | PyDict d => Return (dict_contains key d)
  | PyList l => Return (existsb (eq_str key) l)
  | PyStr s => Return (contains key s)
  | _ => raise TypeError (u "argument of type '" ++ u (type_name data) ++ u "' is not iterable")
  end.

(** [data[key] = v] for a string [key] *)
Definition py_setitem (data : value) (key : str) (v : value) : result value :=
  match data with
  | PyDict d => Return (PyDict (dict_set key v d))
  | PyList _ => raise TypeError (u "list indices must be integers or slices, not str")
  | _ => raise TypeError (u "'" ++ u (type_name data) ++ u "' object does not support item assignment")
  end.

Definition REPO_ID : str := u "google/gemma-2-2b-it".

Definition required_keys : list str :=
  [u "date"; u "branding_priorities"; u "cleaning_slots";
   u "stabling_geometry"; u "fitness_certificates";
   u "job_card_status"; u "mileage"].

Definition Not_specified : value := PyStr (u "Not specified").

(** [f"Attempt {attempt+1} failed: {e}"] *)
Definition attempt_failed (attempt : Z) (e : exn) : str :=
  u "Attempt " ++ str_of_int (attempt + 1) ++ u " failed: " ++ exn_msg e.

(** ** converter.py *)
Module converter.
Section Converter.

(** [ChatHuggingFace(llm=HuggingFaceEndpoint(repo_id=repo_id, ...))]: the
    chat model the hub serves under a repository id. *)
Variable endpoint : str -> ChatHuggingFace.

Definition schema_description : str :=
  u "\nTop-level JSON object with these keys:\ndate, branding_priorities, cleaning_slots, stabling_geometry,\nfitness_certificates, job_card_status, mileage\n".

Definition prompt_template : langchain.PromptTemplate :=
  langchain.mkPromptTemplate
    (u "Convert the following messy train operational text into valid JSON.\n"
     ++ u "Follow this schema strictly:\n{schema}\n\n"
     ++ u "Raw text:\n{raw_text}\n\n"
     ++ u "Output ONLY JSON.")
    [u "raw_text"]
    [(u "schema", schema_description)].

Definition build_chain (repo_id : str)
  : ChatHuggingFace * (str -> result value) * langchain.PromptTemplate :=
  (endpoint repo_id, langchain.parse, prompt_template).

(** The loop over [required_keys]: the first key that is not in [data]
    raises. *)
Fixpoint check_keys (keys : list str) (data : value) : result value :=
  match keys with
  | [] => Return data
  | key :: rest =>
      let? present := py_contains key data in
      if negb present then raise ValueError (u "Missing key: " ++ key)
      else check_keys rest data
  end.

Definition validate_json (json_str : str) : result value :=
  match json.loads true json_str with
  | Raise e => raise ValueError (u "Invalid JSON output: " ++ exn_msg e)
  | Return data => check_keys required_keys data
  end.

(** The body of the [try] block: one run of the chain, from the prompt
    template to the validated object. *)
Definition run_chain (model : ChatHuggingFace) (parser : str -> result value)
    (template : langchain.PromptTemplate) (raw_text : str) : M value :=
  result <- chain_invoke template model [(u "raw_text", raw_text)] ;;
  let text_out := text_of result in
  data <- lift (match parser text_out with
                | Return data => Return data
                | Raise _ => json.loads true text_out
                end) ;;
  lift (validate_json (json.dumps data)).

(** The [for attempt in range(max_retries + 1)] loop, with [n] iterations
    left.  When the range is used up the function ends without [return],
    which gives [None]. *)
Fixpoint attempts (model : ChatHuggingFace) (parser : str -> result value)
    (template : langchain.PromptTemplate) (raw_text : str) (max_retries : Z)
    (n : nat) (attempt : Z) : M value :=
  match n with
  | O => ret PyNone
  | S n' =>
      try_except (run_chain model parser template raw_text)
        (fun e =>
           print (attempt_failed attempt e) ;;;
           if (attempt =? max_retries)%Z then throw e
           else sleep 1 ;;; attempts model parser template raw_text max_retries n' (attempt + 1)%Z)
  end.

Definition convert_text_to_json (raw_text : str) (repo_id : str) (max_retries : Z)
  : M value :=
  let '(model, parser, template) := build_chain repo_id in
  let format_instructions := langchain.get_format_instructions in
  prompt <- lift (let? p := langchain.format template [(u "raw_text", raw_text)] in
                  Return (p ++ u "\n\n" ++ format_instructions)) ;;
  attempts model parser template raw_text max_retries
    (Z.to_nat (max_retries + 1)) 0%Z.

End Converter.
End converter.

(** ** app.py *)
Module app.
Section App.

Variable endpoint : str -> ChatHuggingFace.

Definition schema_description : str :=
  u "\nTop-level JSON object with these keys (ALL REQUIRED):\n- date: The date mentioned or current date\n- branding_priorities: Branding or awareness priorities and campaigns\n- cleaning_slots: Scheduled cleaning times and teams\n- stabling_geometry: Train identifiers and stabling information\n- fitness_certificates: Fitness and certificate validity information\n- job_card_status: Status of job cards and maintenance work\n- mileage: Mileage information if available\n\nIMPORTANT: Every field above MUST be included in the output JSON, even if the value is \x22Not specified\x22 or \x22Not mentioned\x22.\n".

Definition prompt_template : langchain.PromptTemplate :=
  langchain.mkPromptTemplate
    (u "Convert the following messy train operational text into valid JSON.\n"
     ++ u "Follow this schema strictly:\n{schema}\n\n"
     ++ u "Raw text:\n{raw_text}\n\n"
     ++ u "Output ONLY valid JSON with ALL required keys. If a value is missing, use 'Not specified'.")
    [u "raw_text"]
    [(u "schema", schema_description)].

Definition build_chain (repo_id : str)
  : ChatHuggingFace * (str -> result value) * langchain.PromptTemplate :=
  (endpoint repo_id, langchain.parse, prompt_template).

(** The loop over [required_keys]: a key that is not in [data] is added with
    the value [Not specified]. *)
Fixpoint fill_missing (keys : list str) (data : value) : result value :=
  match keys with
  | [] => Return data
  | key :: rest =>
      let? present := py_contains key data in
      if negb present then
        let? data := py_setitem data key Not_specified in
        fill_missing rest data
      else fill_missing rest data
  end.

Definition validate_json (json_str : str) : result value :=
  match json.loads true json_str with
  | Raise e => raise ValueError (u "Invalid JSON output: " ++ exn_msg e)
  | Return data => fill_missing required_keys data
  end.

(** Lines 101 to 106: the parser, [json.loads] when the parser raises, then
    [validate_json] on the serialized object. *)
Definition normalize (parser : str -> result value) (text_out : str) : result value :=
  let? data := match parser text_out with
               | Return data => Return data
               | Raise _ => json.loads true text_out
               end in
  validate_json (json.dumps data).

(** The body of the first [try] block, which the handler of [ValueError]
    repeats. *)
Definition run_chain (model : ChatHuggingFace) (parser : str -> result value)
    (template : langchain.PromptTemplate) (raw_text : str) : M value :=
  result <- chain_invoke template model [(u "raw_text", raw_text)] ;;
  let text_out := text_of result in
  lift (normalize parser text_out).

Fixpoint attempts (model : ChatHuggingFace) (parser : str -> result value)
    (template : langchain.PromptTemplate) (raw_text : str) (max_retries : Z)
    (n : nat) (attempt : Z) : M value :=
  match n with
  | O => ret PyNone
  | S n' =>
      let next := attempts model parser template raw_text max_retries n' (attempt + 1)%Z in
      try_except (run_chain model parser template raw_text)
        (fun e =>
           if is_ValueError e then
             print (attempt_failed attempt e) ;;;
             try_except (run_chain model parser template raw_text)
               (fun e' =>
                  if (attempt =? max_retries)%Z then throw e'
                  else sleep 1 ;;; next)
           else
             print (attempt_failed attempt e) ;;;
             if (attempt =? max_retries)%Z then throw e
             else sleep 1 ;;; next)
  end.

Definition convert_text_to_json (raw_text : str) (repo_id : str) (max_retries : Z)
  : M value :=
  let '(model, parser, template) := build_chain repo_id in
  let format_instructions := langchain.get_format_instructions in
  prompt <- lift (let? p := langchain.format template [(u "raw_text", raw_text)] in
                  Return (p ++ u "\n\n" ++ format_instructions)) ;;
  attempts model parser template raw_text max_retries
    (Z.to_nat (max_retries + 1)) 0%Z.

(** *** The HTTP boundary *)

(** [bytes.decode('utf-8')]: strict UTF-8, which raises [UnicodeDecodeError]
    on a malformed, overlong or surrogate sequence. *)
Definition is_cont (b : N) : bool := (128 <=? b) && (b <=? 191).

Definition decode_error_utf8 {A} : result A :=
  raise UnicodeDecodeError (u "'utf-8' codec can't decode byte").

Definition cons_decoded (c : char) (x : result str) : result str :=
  let? s := x in Return (c :: s).

Fixpoint decode_utf8 (bytes : list N) : result str :=
  match bytes with
  | [] => Return []
  | b0 :: r =>
      if b0 <? 128 then cons_decoded b0 (decode_utf8 r)
      else if (194 <=? b0) && (b0 <=? 223) then
        match r with
        | b1 :: r1 =>
            if is_cont b1
            then cons_decoded ((b0 - 192) * 64 + (b1 - 128)) (decode_utf8 r1)
            else decode_error_utf8
        | _ => decode_error_utf8
        end
      else if (224 <=? b0) && (b0 <=? 239) then
        match r with
        | b1 :: b2 :: r2 =>
            if is_cont b1 && is_cont b2
               && (negb (b0 =? 224) || (160 <=? b1))
               && (negb (b0 =? 237) || (b1 <=? 159))
            then cons_decoded ((b0 - 224) * 4096 + (b1 - 128) * 64 + (b2 - 128))
                   (decode_utf8 r2)
            else decode_error_utf8
        | _ => decode_error_utf8
        end
      else if (240 <=? b0) && (b0 <=? 244) then
        match r with
        | b1 :: b2 :: b3 :: r3 =>
            if is_cont b1 && is_cont b2 && is_cont b3
               && (negb (b0 =? 240) || (144 <=? b1))
               && (negb (b0 =? 244) || (b1 <=? 143))
            then cons_decoded ((b0 - 240) * 262144 + (b1 - 128) * 4096
                               + (b2 - 128) * 64 + (b3 - 128))
                   (decode_utf8 r3)
            else decode_error_utf8
        | _ => decode_error_utf8
        end
      else decode_error_utf8
  end.

(** An uploaded file: its name and the bytes [await file.read()] gives. *)
Record UploadFile := mkUploadFile { filename : str; file_bytes : list N }.

(** [str.encode('utf-8')]: a surrogate code point has no encoding.  The
    error names the first surrogate and its position, or the positions of
    the run of surrogates that starts there. *)
Definition is_surrogate (c : char) : bool := (55296 <=? c) && (c <=? 57343).

Fixpoint surrogate_run (s : str) : nat :=
  match s with
  | c :: r => if is_surrogate c then S (surrogate_run r) else O
  | [] => O
  end.

Definition encode_error_utf8 {A} (position : nat) (c : char) (run : nat) : result A :=
  raise UnicodeEncodeError
    (match run with
     | O =>
         u "'utf-8' codec can't encode character '" ++ json.u_escape c
         ++ u "' in position " ++ str_of_int (Z.of_nat position)
     | S _ =>
         u "'utf-8' codec can't encode characters in position "
         ++ str_of_int (Z.of_nat position) ++ u "-"
         ++ str_of_int (Z.of_nat (position + run))
     end ++ u ": surrogates not allowed").

Definition utf8_bytes (c : char) : list N :=
  if c <? 128 then [c]
  else if c <? 2048 then [192 + c / 64; 128 + c mod 64]
  else if c <? 65536 then [224 + c / 4096; 128 + (c / 64) mod 64; 128 + c mod 64]
  else [240 + c / 262144; 128 + (c / 4096) mod 64; 128 + (c / 64) mod 64; 128 + c mod 64].

Fixpoint encode_utf8_from (position : nat) (s : str) : result (list N) :=
  match s with
  | [] => Return []
  | c :: r =>
      if is_surrogate c then encode_error_utf8 position c (surrogate_run r)
      else let? bytes := encode_utf8_from (S position) r in Return (utf8_bytes c ++ bytes)
  end.

Definition encode_utf8 (s : str) : result (list N) := encode_utf8_from 0 s.

(** [JSONResponse.render] of Starlette: the body of the response, the
    compact JSON text of the content encoded as UTF-8.  As a float is
    written as its literal, the digits of a float in the text, and with
    them the position that an encoding error reports after a float, can
    differ from those CPython gives. *)
Definition render (content : value) : result (list N) :=
  let? text := json.dumps_compact content in encode_utf8 text.

(** A response is kept as its status and the content it was built from;
    its body is [render content]. *)
Record JSONResponse := mkJSONResponse { status_code : Z; content : value }.

(** [JSONResponse(status_code=status, content=content)]: the constructor
    renders the body, and raises what the rendering raises. *)
Definition new_JSONResponse (status : Z) (content : value) : result JSONResponse :=
  let? body := render content in Return (mkJSONResponse status content).

Definition http_error {A} (status : Z) (detail : str) : M A :=
  throw (mkExn (HTTPException status) detail).

(** The three [except] clauses both endpoints end with. *)
Definition http_handlers {A} (e : exn) : M A :=
  if is_HTTPException e then throw e
  else if is_ValueError e then http_error 400 (u "Conversion error: " ++ exn_msg e)
  else http_error 500 (u "Server error: " ++ exn_msg e).

(** [POST /convert].  The response is built inside the [try] block, so
    that an exception of its rendering goes through the handlers too. *)
Definition convert_file (file : UploadFile) : M JSONResponse :=
  try_except
    (if negb (endswith (u ".txt") (filename file))
     then http_error 400 (u "Only .txt files are supported")
     else
       text_content <- lift (decode_utf8 (file_bytes file)) ;;
       match strip text_content with
       | [] => http_error 400 (u "File is empty")
       | _ :: _ =>
           result <- convert_text_to_json text_content REPO_ID 2 ;;
           lift (new_JSONResponse 200
                   (PyDict [(u "success", PyBool true); (u "data", result);
                            (u "filename", PyStr (filename file))]))
       end)
    http_handlers.

(** [POST /convert-text], on the JSON object of the request body.
    [raw_text.strip()] raises [AttributeError] when the value of [text] is
    not a string. *)
Definition convert_text (request : dict) : M JSONResponse :=
  try_except
    (match dict_get (u "text") request with
     | None => http_error 400 (u "Missing 'text' field in request body")
     | Some (PyStr raw_text) =>
         match strip raw_text with
         | [] => http_error 400 (u "Text cannot be empty")
         | _ :: _ =>
             result <- convert_text_to_json raw_text REPO_ID 2 ;;
             lift (new_JSONResponse 200
                     (PyDict [(u "success", PyBool true); (u "data", result)]))
         end
     | Some other =>
         throw (mkExn AttributeError
                  (u "'" ++ u (type_name other) ++ u "' object has no attribute 'strip'"))
     end)
    http_handlers.

(** The status the client receives: the response's, or the one the framework
    gives an [HTTPException]; any other exception would leave the endpoint
    as a 500. *)
Definition http_status (r : result JSONResponse) : Z :=
  match r with
  | Return resp => status_code resp
  | Raise e => match exn_cls e with HTTPException status => status | _ => 500 end
  end.

End App.
End app.

(** ** converter.py run as a script

    Below its functions converter.py converts a sample text and prints the
    result (lines 87 to 94), so that running the module, or importing it,
    calls the model. *)

(** [json.dumps(v, indent=indent)] at nesting depth [level], as the
    encoder's [_iterencode_list] and [_iterencode_dict] write it: an empty
    list or dict on one line; otherwise each item on a line of its own,
    indented by [indent] blanks for each level, items separated by a comma,
    a key and its value by a colon and a blank, and the closing bracket on
    a line of its own at the depth of the opening one. *)
Definition newline_indent (indent level : nat) : str :=
  10 :: List.repeat 32 (indent * level).

Fixpoint dumps_indent (indent level : nat) (v : value) : str :=
  match v with
  | PyList l =>
      match l with
      | [] => u "[]"
      | _ :: _ =>
          [91] ++ newline_indent indent (S level)
          ++ (fix items (l : list value) : str :=
                match l with
                | [] => []
                | x :: r =>
                    dumps_indent indent (S level) x
                    ++ match r with
                       | [] => []
                       | _ :: _ => [44] ++ newline_indent indent (S level) ++ items r
                       end
                end) l
          ++ newline_indent indent level ++ [93]
      end
  | PyDict d =>
      match d with
      | [] => u "{}"
      | _ :: _ =>
          [123] ++ newline_indent indent (S level)
          ++ (fix members (d : list (str * value)) : str :=
                match d with
                | [] => []
                | (k, x) :: r =>
                    json.encode_str k ++ u ": " ++ dumps_indent indent (S level) x
                    ++ match r with
                       | [] => []
                       | _ :: _ => [44] ++ newline_indent indent (S level) ++ members r
                       end
                end) d
          ++ newline_indent indent level ++ [125]
      end
  | _ => json.dumps v
  end.

Module converter_script.
Section Script.

Variable endpoint : str -> ChatHuggingFace.

Definition raw_text : str :=
  u "\ntrain KMRC-012 daily clean at 11 pm, team A, scheduled.\nbranding election awareness priority 1 from 1 nov to 30 nov.\nKMRC-018 fitness signalling valid 27 nov, telecom 1 dec, needs check.\n".

(** [output = convert_text_to_json(raw_text)] and
    [print(json.dumps(output, indent=2))]; an exception of the conversion
    ends the script. *)
Definition main : M unit :=
  output <- converter.convert_text_to_json endpoint raw_text REPO_ID 2 ;;
  print (dumps_indent 2 0 output).

End Script.
End converter_script.

(** * Vocabulary of the statements *)

(** On a dict, the loop of [app.validate_json] never raises: it appends the
    missing keys, in the order of [keys]. *)
Fixpoint missing_entries (keys : list str) (d : dict) : dict :=
  match keys with
  | [] => []
  | k :: rest =>
      if dict_contains k d then missing_entries rest d
      else (k, Not_specified) :: missing_entries rest (d ++ [(k, Not_specified)])
  end.


(** The fixed text of the prompt before and after the raw text. *)
Definition app_prompt_before : str :=
  u "Convert the following messy train operational text into valid JSON.\n"
  ++ u "Follow this schema strictly:\n" ++ app.schema_description
  ++ u "\n\nRaw text:\n".

Definition app_prompt_after : str :=
  u "\n\nOutput ONLY valid JSON with ALL required keys. If a value is missing, use 'Not specified'.".

Definition converter_prompt_before : str :=
  u "Convert the following messy train operational text into valid JSON.\n"
  ++ u "Follow this schema strictly:\n" ++ converter.schema_description
  ++ u "\n\nRaw text:\n".

Definition converter_prompt_after : str := u "\n\nOutput ONLY JSON.".

(** The outcome of one run of the chain when its model call is the [i]-th
    call of the process. *)
Definition app_chain_outcome (model : ChatHuggingFace) (raw_text : str) (i : nat)
  : result value :=
  fst (app.run_chain model langchain.parse app.prompt_template raw_text (mkWorld i [])).

Definition converter_chain_outcome (model : ChatHuggingFace) (raw_text : str) (i : nat)
  : result value :=
  fst (converter.run_chain model langchain.parse converter.prompt_template raw_text
         (mkWorld i [])).

(** [isinstance(e, ValueError)] for the failure of a run. *)
Definition fails_with_ValueError (r : result value) : bool :=
  match r with
  | Raise e => is_ValueError e
  | Return _ => false
  end.

(** The number of model calls made when the loop of app.py has gone through
    [n] iterations that all failed, starting with [c] calls made: one per
    iteration, and one more when the first failure of the iteration is a
    [ValueError]. *)
Fixpoint app_calls_after (outcome : nat -> result value) (n c : nat) : nat :=
  match n with
  | O => c
  | S n' =>
      app_calls_after outcome n'
        (if fails_with_ValueError (outcome c) then S (S c) else S c)
  end.

Definition is_dict (v : value) : bool :=
  match v with PyDict _ => true | _ => false end.

(** Every required key is [in] the value, for a value that is a list (the
    key is one of its elements) or a string (the key is a substring). *)
Definition holds_required_keys (data : value) : bool :=
  match data with
  | PyList l => forallb (fun key => existsb (eq_str key) l) required_keys
  | PyStr s => forallb (fun key => contains key s) required_keys
  | _ => false
  end.

(** *** Well-formed values

    What [json.dumps] and [json.loads] keep apart: a string whose characters
    are code points (at most U+10FFFF) and in which no high surrogate is
    directly followed by a low surrogate (the escapes of such a pair read
    back as one character), a float literal that has a fraction or an
    exponent, each with digits, and a dict that holds each key once. *)
Definition starts_with_low_surrogate (s : str) : bool :=
  match s with
  | c :: _ => json.is_low_surrogate c
  | [] => false
  end.

Fixpoint wf_str (s : str) : bool :=
  match s with
  | [] => true
  | c :: r =>
      (c <=? 1114111)
      && negb (json.is_high_surrogate c && starts_with_low_surrogate r)
      && wf_str r
  end.

Definition has_digits (d : uint) : bool :=
  match d with Nil => false | _ => true end.

Definition wf_float (f : float_repr) : bool :=
  match f with
  | FNaN | FInfinity _ => true
  | FNumber _ _ frac exp =>
      match frac with Some d => has_digits d | None => true end
      && match exp with Some (_, d) => has_digits d | None => true end
      && match frac, exp with None, None => false | _, _ => true end
  end.

Fixpoint unique (l : list str) : bool :=
  match l with
  | [] => true
  | k :: r => negb (existsb (str_eqb k) r) && unique r
  end.

Fixpoint wf_value (v : value) : bool :=
  match v with
  | PyNone | PyBool _ | PyInt _ => true
  | PyFloat f => wf_float f
  | PyStr s => wf_str s
  | PyList l =>
      (fix all (l : list value) : bool :=
         match l with
         | [] => true
         | x :: r => wf_value x && all r
         end) l
  | PyDict d =>
      unique (keys d)
      && (fix all (d : list (str * value)) : bool :=
            match d with
            | [] => true
            | (k, x) :: r => wf_str k && wf_value x && all r
            end) d
  end.

(** *** Values within the limits of the interpreter

    The values on which CPython's [json.dumps] and [json.loads] do what
    [json.dumps] and [json.loads] do here: every integer has at most 4300
    decimal digits (the default limit of the conversion between [int] and
    [str]), and lists and objects are nested at most 100 deep, which leaves
    nine tenths of the default recursion limit of 1000 frames to the
    caller. *)
Definition max_str_digits : nat := 4300.

Definition max_nesting : nat := 100.

Definition int_within_limit (z : Z) : bool :=
  (nb_digits (N.to_uint (Z.abs_N z)) <=? max_str_digits)%nat.

Fixpoint nesting (v : value) : nat :=
  match v with
  | PyList l =>
      S ((fix deepest (l : list value) : nat :=
            match l with
            | [] => O
            | x :: r => Nat.max (nesting x) (deepest r)
            end) l)
  | PyDict d =>
      S ((fix deepest (d : list (str * value)) : nat :=
            match d with
            | [] => O
            | (_, x) :: r => Nat.max (nesting x) (deepest r)
            end) d)
  | _ => O
  end.

Fixpoint ints_within_limit (v : value) : bool :=
  match v with
  | PyInt z => int_within_limit z
  | PyList l =>
      (fix all (l : list value) : bool :=
         match l with
         | [] => true
         | x :: r => ints_within_limit x && all r
         end) l
  | PyDict d =>
      (fix all (d : list (str * value)) : bool :=
         match d with
         | [] => true
         | (_, x) :: r => ints_within_limit x && all r
         end) d
  | _ => true
  end.

Definition within_limits (v : value) : bool :=
  ints_within_limit v && (nesting v <=? max_nesting)%nat.

(** No float of the value is [NaN], the one value that is not equal to
    itself. *)
Fixpoint no_nan (v : value) : bool :=
  match v with
  | PyFloat FNaN => false
  | PyList l =>
      (fix all (l : list value) : bool :=
         match l with
         | [] => true
         | x :: r => no_nan x && all r
         end) l
  | PyDict d =>
      (fix all (d : list (str * value)) : bool :=
         match d with
         | [] => true
         | (_, x) :: r => no_nan x && all r
         end) d
  | _ => true
  end.

(** The values that Python's [json.loads(json.dumps(v))] gives back equal
    to [v]: well formed, within the limits of the interpreter, and without
    [NaN]. *)
Definition reads_back_equal (v : value) : bool :=
  wf_value v && within_limits v && no_nan v.

(** The text [json.dumps] puts between the brackets of a list and between
    the braces of a dict. *)
Fixpoint items_str (l : list value) : str :=
  match l with
  | [] => []
  | x :: r => json.dumps x ++ match r with [] => [] | _ :: _ => u ", " ++ items_str r end
  end.

Fixpoint members_str (d : list (str * value)) : str :=
  match d with
  | [] => []
  | (k, x) :: r =>
      json.encode_str k ++ u ": " ++ json.dumps x
      ++ match r with [] => [] | _ :: _ => u ", " ++ members_str r end
  end.

(** What may follow a number literal without being read as part of it. *)
Definition number_end (rest : str) : Prop :=
  match rest with
  | [] => True
  | c :: _ => digit_of_char c = None /\ c <> 46 /\ c <> 101 /\ c <> 69
  end.

(** A text that does not start with a decimal digit. *)
Definition no_digit_head (rest : str) : Prop :=
  match rest with
  | [] => True
  | c :: _ => digit_of_char c = None
  end.

(** Every serialized value starts with a character that is neither white
    space nor a closing bracket. *)
Definition starts_value (s : str) : Prop :=
  match s with
  | [] => False
  | c :: _ => json.is_ws c = false /\ c <> 93 /\ c <> 125 /\ c <> 65279
  end.

(** Reading back: the scanner, given enough fuel, reads the serialized value
    and stops where it ends. *)
Definition reads_back (v : value) : Prop :=
  wf_value v = true ->
  forall (strict : bool) (fuel : nat) (rest : str),
    (List.length (json.dumps v) < fuel)%nat ->
    number_end rest ->
    json.scan_once fuel strict (json.dumps v ++ rest) = Return (v, rest).

(** A text whose head is not the escape of a low surrogate. *)
Definition no_low_escape (tail : str) : Prop :=
  forall g1 g2 g3 g4 r3,
    tail = 92 :: 117 :: g1 :: g2 :: g3 :: g4 :: r3 ->
    exists uni2, json.hex4 g1 g2 g3 g4 = Some uni2
                 /\ json.is_low_surrogate uni2 = false.

(** *** The trace of a conversion *)

(** The lines printed and the sleeps recorded in a trace. *)
Definition prints (t : list event) : nat :=
  List.length (filter (fun e => match e with Printed _ => true | _ => false end) t).

Definition sleeps (t : list event) : nat :=
  List.length (filter (fun e => match e with Slept _ => true | _ => false end) t).

(** What the retry loop adds to a trace: a call of the model with the one
    prompt of the conversion, a line that reports a failed attempt, or a
    sleep of one second. *)
Definition loop_event (prompt : str) (ev : event) : Prop :=
  match ev with
  | Invoked p => p = prompt
  | Printed line => exists (attempt : Z) (e : exn), line = attempt_failed attempt e
  | Slept seconds => seconds = 1%Z
  end.

(** [key in data] holds and raises nothing. *)
Definition has_key (data : value) (key : str) : Prop :=
  py_contains key data = Return true.

(** The JSON values that are not containers: [None], booleans and numbers. *)
Definition is_scalar (v : value) : bool :=
  match v with
  | PyNone | PyBool _ | PyInt _ | PyFloat _ => true
  | PyStr _ | PyList _ | PyDict _ => false
  end.

(** The shape of what an endpoint gives: a 200 response whose body has
    [success] true and the converted data, or an [HTTPException]. *)
Definition endpoint_outcome_ok (r : result app.JSONResponse) : Prop :=
  match r with
  | Return resp =>
      app.status_code resp = 200%Z
      /\ exists body, app.content resp = PyDict body
           /\ dict_get (u "success") body = Some (PyBool true)
           /\ dict_contains (u "data") body = true
  | Raise e => is_HTTPException e = true
  end.

(** The characters [json.dumps] writes: printable ASCII. *)
Definition printable (c : char) : Prop := 32 <= c <= 126.

(** An entry of a dict whose key and value are well formed. *)
Definition wf_entry (kv : str * value) : Prop :=
  wf_str (fst kv) = true /\ wf_value (snd kv) = true.

(** The lines [json.dumps(v, indent=indent)] puts between the brackets of a
    list and between the braces of a dict whose items are at depth
    [level]. *)
Fixpoint items_indent (indent level : nat) (l : list value) : str :=
  match l with
  | [] => []
  | x :: r =>
      dumps_indent indent level x
      ++ match r with
         | [] => []
         | _ :: _ => [44] ++ newline_indent indent level ++ items_indent indent level r
         end
  end.

Fixpoint members_indent (indent level : nat) (d : list (str * value)) : str :=
  match d with
  | [] => []
  | (k, x) :: r =>
      json.encode_str k ++ u ": " ++ dumps_indent indent level x
      ++ match r with
         | [] => []
         | _ :: _ => [44] ++ newline_indent indent level ++ members_indent indent level r
         end
  end.

(** Reading back the indented text of a value. *)
Definition reads_back_indent (v : value) : Prop :=
  wf_value v = true ->
  forall (indent level : nat) (strict : bool) (fuel : nat) (rest : str),
    (List.length (dumps_indent indent level v) < fuel)%nat ->
    number_end rest ->
    json.scan_once fuel strict (dumps_indent indent level v ++ rest) = Return (v, rest).

(** The text the compact encoder puts between the brackets of a list and
    between the braces of a dict. *)
Fixpoint items_compact (l : list value) : result str :=
  match l with
  | [] => Return []
  | x :: r =>
      let? first := json.dumps_compact x in
      match r with
      | [] => Return first
      | _ :: _ => let? rest := items_compact r in Return (first ++ [44] ++ rest)
      end
  end.

Fixpoint members_compact (d : list (str * value)) : result str :=
  match d with
  | [] => Return []
  | (k, x) :: r =>
      let? first := json.dumps_compact x in
      match r with
      | [] => Return (json.encode_str_unicode k ++ [58] ++ first)
      | _ :: _ =>
          let? rest := members_compact r in
          Return (json.encode_str_unicode k ++ [58] ++ first ++ [44] ++ rest)
      end
  end.

(** What an endpoint answers once the conversion has returned: the 200
    response with [body] as content when the body can be rendered, and
    otherwise the 400 of the [ValueError] that the rendering raises. *)
Definition answer (body : value) : result app.JSONResponse :=
  match app.render body with
  | Return _ => Return (app.mkJSONResponse 200 body)
  | Raise e => Raise (mkExn (HTTPException 400) (u "Conversion error: " ++ exn_msg e))
  end.

(** * Properties *)

(** ** Dictionaries *)

Lemma str_eqb_eq (a b : str) : str_eqb a b = true <-> a = b.
Proof.
  unfold str_eqb. destruct (list_eq_dec N.eq_dec a b); split; congruence.
Qed.

Lemma str_eqb_refl (a : str) : str_eqb a a = true.
Proof. now apply str_eqb_eq. Qed.

Lemma str_eqb_neq (a b : str) : str_eqb a b = false <-> a <> b.
Proof.
  unfold str_eqb. destruct (list_eq_dec N.eq_dec a b); split; congruence.
Qed.

Lemma dict_get_set_same (k : str) (v : value) (d : dict) :
  dict_get k (dict_set k v d) = Some v.
Proof.
  induction d as [|[k' v'] d IH]; simpl.
  - now rewrite str_eqb_refl.
  - destruct (str_eqb k k') eqn:E; simpl.
    + now rewrite str_eqb_refl.
    + now rewrite E.
Qed.

Lemma dict_get_set_other (k k' : str) (v : value) (d : dict) :
  k <> k' -> dict_get k' (dict_set k v d) = dict_get k' d.
Proof.
  intros Hne. induction d as [|[k0 v0] d IH]; simpl.
  - destruct (str_eqb k' k) eqn:E; [apply str_eqb_eq in E; congruence | reflexivity].
  - destruct (str_eqb k k0) eqn:E; simpl.
    + apply str_eqb_eq in E. subst k0.
      destruct (str_eqb k' k) eqn:E'; [apply str_eqb_eq in E'; congruence | reflexivity].
    + now rewrite IH.
Qed.

Lemma dict_set_absent (k : str) (v : value) (d : dict) :
  dict_get k d = None -> dict_set k v d = d ++ [(k, v)].
Proof.
  induction d as [|[k' v'] d IH]; simpl; [reflexivity|].
  destruct (str_eqb k k'); [discriminate|]. intros H. now rewrite IH.
Qed.

Lemma dict_get_app (k : str) (d e : dict) :
  dict_get k (d ++ e) =
  match dict_get k d with Some v => Some v | None => dict_get k e end.
Proof.
  induction d as [|[k' v'] d IH]; simpl; [reflexivity|].
  now destruct (str_eqb k k').
Qed.

Lemma dict_contains_false (k : str) (d : dict) :
  dict_contains k d = false <-> dict_get k d = None.
Proof. unfold dict_contains. destruct (dict_get k d); split; congruence. Qed.

Lemma dict_contains_true (k : str) (d : dict) :
  dict_contains k d = true <-> exists v, dict_get k d = Some v.
Proof.
  unfold dict_contains. destruct (dict_get k d) as [v|]; split;
    try congruence; eauto. intros [v H]. discriminate.
Qed.

(** ** Schema completion *)

Lemma fill_missing_dict (keys : list str) (d : dict) :
  app.fill_missing keys (PyDict d) = Return (PyDict (d ++ missing_entries keys d)).
Proof.
  revert d. induction keys as [|k rest IH]; intros d; simpl.
  - now rewrite app_nil_r.
  - destruct (dict_contains k d) eqn:E; simpl.
    + apply IH.
    + rewrite dict_set_absent by now apply dict_contains_false.
      rewrite IH. now rewrite <- app_assoc.
Qed.

Lemma missing_entries_spec (keys : list str) (d : dict) (k : str) (v : value) :
  In (k, v) (missing_entries keys d) ->
  In k keys /\ dict_contains k d = false /\ v = Not_specified.
Proof.
  revert d. induction keys as [|k0 rest IH]; intros d; simpl; [tauto|].
  destruct (dict_contains k0 d) eqn:E.
  - intros H. destruct (IH _ H) as (? & ? & ?). auto.
  - intros [H|H].
    + inversion H; subst. auto.
    + destruct (IH _ H) as (Hin & Hc & Hv). repeat split; auto.
      apply dict_contains_false. apply dict_contains_false in Hc.
      rewrite dict_get_app in Hc. now destruct (dict_get k d).
Qed.

Lemma missing_entries_complete (keys : list str) (d : dict) (k : str) :
  In k keys -> dict_contains k (d ++ missing_entries keys d) = true.
Proof.
  revert d. induction keys as [|k0 rest IH]; intros d; simpl; [tauto|].
  intros Hin. destruct (dict_contains k0 d) eqn:E.
  - destruct Hin as [->|Hin]; [|now apply IH].
    apply dict_contains_true in E. destruct E as [v E].
    apply dict_contains_true. exists v. rewrite dict_get_app. now rewrite E.
  - replace (d ++ (k0, Not_specified) :: missing_entries rest (d ++ [(k0, Not_specified)]))
      with ((d ++ [(k0, Not_specified)]) ++ missing_entries rest (d ++ [(k0, Not_specified)]))
      by now rewrite <- app_assoc.
    destruct Hin as [->|Hin]; [|now apply IH].
    apply dict_contains_true. exists Not_specified.
    rewrite dict_get_app, dict_get_app.
    apply dict_contains_false in E. rewrite E. simpl. now rewrite str_eqb_refl.
Qed.

Lemma missing_entries_value (keys : list str) (d : dict) (k : str) :
  In k keys -> dict_contains k d = false ->
  dict_get k (d ++ missing_entries keys d) = Some Not_specified.
Proof.
  intros Hin Hc.
  pose proof (missing_entries_complete keys d k Hin) as H.
  apply dict_contains_true in H. destruct H as [v H]. rewrite H. f_equal.
  rewrite dict_get_app in H. apply dict_contains_false in Hc. rewrite Hc in H.
  clear Hc Hin. revert H.
  generalize (missing_entries_spec keys d). generalize (missing_entries keys d).
  intros e. induction e as [|[k' v'] e IH]; simpl; intros Hs; [discriminate|].
  destruct (str_eqb k k') eqn:E.
  - intros H. inversion H; subst. now destruct (Hs k' v (or_introl eq_refl)) as (_ & _ & ?).
  - apply IH. intros k1 v1 H1. apply Hs. now right.
Qed.

(** C1. For every input string that parses as a JSON object,
    [app.validate_json] returns a mapping that contains all seven required
    keys, and every required key that the parsed object lacks is bound to
    the string [Not specified] in the result. *)
Theorem validate_json_schema_complete (json_str : str) (d : dict) :
  json.loads true json_str = Return (PyDict d) ->
  exists d' : dict,
    app.validate_json json_str = Return (PyDict d')
    /\ (forall k, In k required_keys -> dict_contains k d' = true)
    /\ (forall k, In k required_keys -> dict_contains k d = false ->
                  dict_get k d' = Some (PyStr (u "Not specified"))).
Proof.
  intros Hparse. exists (d ++ missing_entries required_keys d).
  unfold app.validate_json. rewrite Hparse, fill_missing_dict.
  split; [reflexivity|]. split.
  - intros k Hk. now apply missing_entries_complete.
  - intros k Hk Hc. now apply missing_entries_value.
Qed.

Lemma validate_json_schema_complete_witness :
  exists d' : dict,
    app.validate_json (u "{\x22date\x22: \x222024-01-01\x22, \x22note\x22: 7}")
    = Return (PyDict d')
    /\ (forall k, In k required_keys -> dict_contains k d' = true)
    /\ (forall k, In k required_keys ->
          dict_contains k [(u "date", PyStr (u "2024-01-01")); (u "note", PyInt 7)] = false ->
          dict_get k d' = Some (PyStr (u "Not specified"))).
Proof.
  apply (validate_json_schema_complete
           (u "{\x22date\x22: \x222024-01-01\x22, \x22note\x22: 7}")
           [(u "date", PyStr (u "2024-01-01")); (u "note", PyInt 7)]).
  vm_compute. reflexivity.
Defined.

(** C7. Schema completion only adds missing required keys: the result is the
    parsed object followed by the added entries, so every key of the object,
    required or not, keeps its place and its value, no key is removed, and
    each added entry binds a required key the object lacked to
    [Not specified]. *)
Theorem validate_json_frame (json_str : str) (d : dict) :
  json.loads true json_str = Return (PyDict d) ->
  exists added : dict,
    app.validate_json json_str = Return (PyDict (d ++ added))
    /\ (forall k v, dict_get k d = Some v -> dict_get k (d ++ added) = Some v)
    /\ (forall k v, In (k, v) added ->
          In k required_keys /\ dict_contains k d = false
          /\ v = PyStr (u "Not specified")).
Proof.
  intros Hparse. exists (missing_entries required_keys d).
  unfold app.validate_json. rewrite Hparse, fill_missing_dict.
  split; [reflexivity|]. split.
  - intros k v H. rewrite dict_get_app. now rewrite H.
  - intros k v H. now apply missing_entries_spec.
Qed.

Lemma validate_json_frame_witness :
  exists added : dict,
    app.validate_json (u "{\x22extra\x22: [1, 2], \x22mileage\x22: null}")
    = Return (PyDict ([(u "extra", PyList [PyInt 1; PyInt 2]); (u "mileage", PyNone)] ++ added))
    /\ (forall k v,
          dict_get k [(u "extra", PyList [PyInt 1; PyInt 2]); (u "mileage", PyNone)] = Some v ->
          dict_get k ([(u "extra", PyList [PyInt 1; PyInt 2]); (u "mileage", PyNone)] ++ added) = Some v)
    /\ (forall k v, In (k, v) added ->
          In k required_keys
          /\ dict_contains k [(u "extra", PyList [PyInt 1; PyInt 2]); (u "mileage", PyNone)] = false
          /\ v = PyStr (u "Not specified")).
Proof.
  apply (validate_json_frame
           (u "{\x22extra\x22: [1, 2], \x22mileage\x22: null}")
           [(u "extra", PyList [PyInt 1; PyInt 2]); (u "mileage", PyNone)]).
  vm_compute. reflexivity.
Defined.

(** ** The two missing-key policies *)

(** C3. The two [validate_json] functions differ on an object that lacks a
    required key: on the text of the empty object [app.validate_json] returns
    the completed mapping while [converter.validate_json] raises a
    [ValueError] that names the missing key, so the two functions are not
    equal. *)
Theorem validate_json_policies_differ :
  exists (json_str : str) (d : dict) (k : str),
    json.loads true json_str = Return (PyDict d)
    /\ In k required_keys /\ dict_contains k d = false
    /\ (exists d',
          app.validate_json json_str = Return (PyDict d')
          /\ forall k', In k' required_keys -> dict_contains k' d' = true)
    /\ converter.validate_json json_str = Raise (mkExn ValueError (u "Missing key: " ++ k))
    /\ app.validate_json <> converter.validate_json.
Proof.
  exists (u "{}"), [], (u "date").
  assert (Happ : app.validate_json (u "{}")
                 = Return (PyDict ([] ++ missing_entries required_keys []))).
  { unfold app.validate_json.
    replace (json.loads true (u "{}")) with (Return (PyDict [])) by (vm_compute; reflexivity).
    apply fill_missing_dict. }
  assert (Hconv : converter.validate_json (u "{}")
                  = Raise (mkExn ValueError (u "Missing key: " ++ u "date")))
    by (vm_compute; reflexivity).
  split; [vm_compute; reflexivity|].
  split; [simpl; auto|].
  split; [reflexivity|].
  split.
  - eexists. split; [exact Happ|].
    intros k' Hk'. now apply missing_entries_complete.
  - split; [exact Hconv|].
    intros Heq. rewrite Heq, Hconv in Happ. discriminate.
Qed.

(** ** The prompt *)

Lemma app_format_prompt (raw_text : str) :
  langchain.format app.prompt_template [(u "raw_text", raw_text)]
  = Return (app_prompt_before ++ raw_text ++ app_prompt_after).
Proof. vm_compute. reflexivity. Qed.

Lemma converter_format_prompt (raw_text : str) :
  langchain.format converter.prompt_template [(u "raw_text", raw_text)]
  = Return (converter_prompt_before ++ raw_text ++ converter_prompt_after).
Proof. vm_compute. reflexivity. Qed.

(** C8. For every raw input text the prompt built from [prompt_template], in
    app.py and in converter.py, is the fixed text before the placeholder,
    then the raw text as it is, then the fixed text after it; and that
    string is the one the chain sends to the model. *)
Theorem prompt_embeds_raw_text (raw_text : str) :
  langchain.format app.prompt_template [(u "raw_text", raw_text)]
  = Return (app_prompt_before ++ raw_text ++ app_prompt_after)
  /\ langchain.format converter.prompt_template [(u "raw_text", raw_text)]
     = Return (converter_prompt_before ++ raw_text ++ converter_prompt_after)
  /\ forall (model : ChatHuggingFace) (w : world),
       snd (chain_invoke app.prompt_template model [(u "raw_text", raw_text)] w)
       = mkWorld (S (calls w))
           (trace w ++ [Invoked (app_prompt_before ++ raw_text ++ app_prompt_after)])
       /\ snd (chain_invoke converter.prompt_template model [(u "raw_text", raw_text)] w)
          = mkWorld (S (calls w))
              (trace w ++ [Invoked (converter_prompt_before ++ raw_text
                                    ++ converter_prompt_after)]).
Proof.
  split; [apply app_format_prompt|]. split; [apply converter_format_prompt|].
  intros model w. unfold chain_invoke, mbind, lift, invoke.
  rewrite app_format_prompt, converter_format_prompt. split; reflexivity.
Qed.

(** ** Lenient recovery *)

(** C5. On the text that wraps the object in prose and a code fence, the
    strict parse fails, [parser.parse] extracts the embedded object, and the
    normalizer returns it with the six missing keys set to
    [Not specified]. *)
Theorem lenient_recovery :
  let text_out :=
    u "Here is your JSON:\n```json\n{\x22date\x22:\x222024-01-01\x22}\n```" in
  (exists e, json.loads true text_out = Raise e)
  /\ langchain.parse text_out = Return (PyDict [(u "date", PyStr (u "2024-01-01"))])
  /\ app.normalize langchain.parse text_out
     = Return (PyDict [(u "date", PyStr (u "2024-01-01"));
                       (u "branding_priorities", PyStr (u "Not specified"));
                       (u "cleaning_slots", PyStr (u "Not specified"));
                       (u "stabling_geometry", PyStr (u "Not specified"));
                       (u "fitness_certificates", PyStr (u "Not specified"));
                       (u "job_card_status", PyStr (u "Not specified"));
                       (u "mileage", PyStr (u "Not specified"))]).
Proof.
  intros text_out. split; [|split].
  - eexists. vm_compute. reflexivity.
  - vm_compute. reflexivity.
  - vm_compute. reflexivity.
Qed.

(** ** Boundary validation *)

Lemma lstrip_by_all (p : char -> bool) (s : str) :
  forallb p s = true -> lstrip_by p s = [].
Proof.
  induction s as [|c r IH]; simpl; [reflexivity|].
  destruct (p c); simpl; [exact IH | discriminate].
Qed.

Lemma strip_blank (s : str) : forallb isspace s = true -> strip s = [].
Proof.
  intros H. unfold strip. rewrite (lstrip_by_all _ _ H). reflexivity.
Qed.

(** C9. Invalid requests are answered 400 and the world is left as it was,
    so the model is not called: an upload whose name does not end in [.txt],
    a body without the field [text], and a body whose [text] is empty or
    holds white space only. *)
Theorem boundary_validation (endpoint : str -> ChatHuggingFace) (w : world) :
  (forall file : app.UploadFile,
      endswith (u ".txt") (app.filename file) = false ->
      app.convert_file endpoint file w
      = (Raise (mkExn (HTTPException 400) (u "Only .txt files are supported")), w))
  /\ (forall request : dict,
        dict_contains (u "text") request = false ->
        app.convert_text endpoint request w
        = (Raise (mkExn (HTTPException 400) (u "Missing 'text' field in request body")), w))
  /\ (forall (request : dict) (raw_text : str),
        dict_get (u "text") request = Some (PyStr raw_text) ->
        forallb isspace raw_text = true ->
        app.convert_text endpoint request w
        = (Raise (mkExn (HTTPException 400) (u "Text cannot be empty")), w)).
Proof.
  split; [|split].
  - intros file Hname. unfold app.convert_file, try_except.
    rewrite Hname. reflexivity.
  - intros request Hmiss. apply dict_contains_false in Hmiss.
    unfold app.convert_text, try_except. rewrite Hmiss. reflexivity.
  - intros request raw_text Hget Hblank.
    unfold app.convert_text, try_except.
    rewrite Hget, (strip_blank _ Hblank). reflexivity.
Qed.

Lemma boundary_validation_witness :
  let endpoint : str -> ChatHuggingFace :=
    fun _ _ _ => Return (AIMessage (u "{}")) in
  let w := mkWorld 0 [] in
  app.http_status (fst (app.convert_file endpoint (app.mkUploadFile (u "notes.md") (u "clean")) w)) = 400%Z
  /\ snd (app.convert_file endpoint (app.mkUploadFile (u "notes.md") (u "clean")) w) = w
  /\ app.http_status (fst (app.convert_text endpoint [] w)) = 400%Z
  /\ snd (app.convert_text endpoint [] w) = w
  /\ app.http_status (fst (app.convert_text endpoint [(u "text", PyStr (u "  "))] w)) = 400%Z
  /\ snd (app.convert_text endpoint [(u "text", PyStr (u "  "))] w) = w.
Proof.
  intros endpoint w.
  destruct (boundary_validation endpoint w) as (Hfile & Hmissing & Hblank).
  rewrite (Hfile (app.mkUploadFile (u "notes.md") (u "clean")) eq_refl).
  rewrite (Hmissing [] eq_refl).
  rewrite (Hblank [(u "text", PyStr (u "  "))] (u "  ") eq_refl eq_refl).
  repeat split.
Defined.

(** ** The retry loop *)

Lemma invocations_app (t1 t2 : list event) :
  invocations (t1 ++ t2) = (invocations t1 + invocations t2)%nat.
Proof. unfold invocations. now rewrite filter_app, length_app. Qed.

Lemma app_run_chain_step (model : ChatHuggingFace) (raw_text : str) (w : world) :
  app.run_chain model langchain.parse app.prompt_template raw_text w
  = (app_chain_outcome model raw_text (calls w),
     mkWorld (S (calls w))
       (trace w ++ [Invoked (app_prompt_before ++ raw_text ++ app_prompt_after)])).
Proof.
  unfold app_chain_outcome, app.run_chain, chain_invoke, mbind, lift, invoke.
  rewrite app_format_prompt. simpl.
  destruct (model (calls w) _); reflexivity.
Qed.

Lemma converter_run_chain_step (model : ChatHuggingFace) (raw_text : str) (w : world) :
  converter.run_chain model langchain.parse converter.prompt_template raw_text w
  = (converter_chain_outcome model raw_text (calls w),
     mkWorld (S (calls w))
       (trace w ++ [Invoked (converter_prompt_before ++ raw_text
                             ++ converter_prompt_after)])).
Proof.
  unfold converter_chain_outcome, converter.run_chain, chain_invoke, mbind, lift, invoke.
  rewrite converter_format_prompt. simpl.
  destruct (model (calls w) _) as [r|e]; [|reflexivity].
  simpl. destruct (match langchain.parse (text_of r) with
                   | Return data => Return data
                   | Raise _ => json.loads true (text_of r)
                   end); reflexivity.
Qed.

(** The loop of converter.py when every run fails: [n] iterations make [n]
    calls and the failure of the last one is raised. *)
Lemma converter_attempts_fail (model : ChatHuggingFace) (raw_text : str) (max_retries : Z) :
  (forall i, exists e, converter_chain_outcome model raw_text i = Raise e) ->
  forall (n : nat) (attempt : Z) (w : world),
    (attempt + Z.of_nat n = max_retries + 1)%Z ->
    (0 < n)%nat ->
    exists e w',
      converter.attempts model langchain.parse converter.prompt_template raw_text
        max_retries n attempt w = (Raise e, w')
      /\ calls w' = (calls w + n)%nat
      /\ invocations (trace w') = (invocations (trace w) + n)%nat
      /\ converter_chain_outcome model raw_text (calls w + n - 1) = Raise e.
Proof.
  intros Hfail n. induction n as [|n IH]; intros attempt w Hn Hpos; [lia|].
  cbn [converter.attempts]. unfold try_except.
  rewrite converter_run_chain_step.
  destruct (Hfail (calls w)) as [e He]. rewrite He.
  unfold mbind at 1. cbn [print].
  destruct (Z.eqb_spec attempt max_retries) as [Hlast|Hmore].
  - assert (n = 0%nat) by lia. subst n.
    eexists. eexists. split; [reflexivity|]. cbn [calls trace].
    repeat rewrite invocations_app. cbn.
    split; [lia|]. split; [lia|].
    replace (calls w + 1 - 1)%nat with (calls w) by lia. exact He.
  - unfold mbind at 1. cbn [sleep].
    edestruct (IH (attempt + 1)%Z) as (e' & w' & Hrun & Hcalls & Hinv & Hout);
      [lia | lia |].
    rewrite Hrun. exists e', w'. split; [reflexivity|].
    cbn [calls trace] in Hcalls, Hinv, Hout.
    repeat rewrite invocations_app in Hinv. cbn in Hinv.
    split; [lia|]. split; [lia|].
    replace (calls w + S n - 1)%nat with (S (calls w) + n - 1)%nat by lia.
    exact Hout.
Qed.

Lemma app_calls_after_bounds (outcome : nat -> result value) (n c : nat) :
  (c + n <= app_calls_after outcome n c <= c + 2 * n)%nat.
Proof.
  revert c. induction n as [|n IH]; intros c; simpl; [lia|].
  destruct (fails_with_ValueError (outcome c)).
  - specialize (IH (S (S c))). lia.
  - specialize (IH (S c)). lia.
Qed.

Lemma app_calls_after_all (outcome : nat -> result value) (n c : nat) :
  (forall i, fails_with_ValueError (outcome i) = true) ->
  app_calls_after outcome n c = (c + 2 * n)%nat.
Proof.
  intros H. revert c. induction n as [|n IH]; intros c; simpl; [lia|].
  rewrite H, IH. lia.
Qed.

Lemma app_calls_after_none (outcome : nat -> result value) (n c : nat) :
  (forall i, fails_with_ValueError (outcome i) = false) ->
  app_calls_after outcome n c = (c + n)%nat.
Proof.
  intros H. revert c. induction n as [|n IH]; intros c; simpl; [lia|].
  rewrite H, IH. lia.
Qed.

(** The loop of app.py when every run fails: an iteration whose failure is a
    [ValueError] runs the chain a second time inside the handler. *)
Lemma app_attempts_fail (model : ChatHuggingFace) (raw_text : str) (max_retries : Z) :
  (forall i, exists e, app_chain_outcome model raw_text i = Raise e) ->
  forall (n : nat) (attempt : Z) (w : world),
    (attempt + Z.of_nat n = max_retries + 1)%Z ->
    (0 < n)%nat ->
    exists e w',
      app.attempts model langchain.parse app.prompt_template raw_text
        max_retries n attempt w = (Raise e, w')
      /\ calls w' = app_calls_after (app_chain_outcome model raw_text) n (calls w)
      /\ (invocations (trace w') + calls w = invocations (trace w) + calls w')%nat
      /\ app_chain_outcome model raw_text (calls w' - 1) = Raise e.
Proof.
  intros Hfail n. induction n as [|n IH]; intros attempt w Hn Hpos; [lia|].
  cbn [app.attempts app_calls_after]. unfold try_except at 1.
  rewrite app_run_chain_step.
  destruct (Hfail (calls w)) as [e He]. rewrite He. cbn [fails_with_ValueError].
  destruct (is_ValueError e).
  - unfold mbind at 1. cbn [print]. unfold try_except at 1.
    rewrite app_run_chain_step. cbn [calls trace].
    destruct (Hfail (S (calls w))) as [e2 He2]. rewrite He2.
    destruct (Z.eqb_spec attempt max_retries) as [Hlast|Hmore].
    + assert (n = 0%nat) by lia. subst n.
      eexists. eexists. split; [reflexivity|]. cbn [calls trace app_calls_after].
      repeat rewrite invocations_app. cbn.
      split; [reflexivity|]. split; [lia|].
      match goal with
      | |- app_chain_outcome _ _ ?k = _ => replace k with (S (calls w)) by lia
      end. exact He2.
    + unfold mbind at 1. cbn [sleep].
      edestruct (IH (attempt + 1)%Z) as (e' & w' & Hrun & Hcalls & Hinv & Hout);
        [lia | lia |].
      rewrite Hrun. exists e', w'. split; [reflexivity|].
      cbn [calls trace] in Hcalls, Hinv.
      repeat rewrite invocations_app in Hinv. cbn in Hinv.
      split; [exact Hcalls|]. split; [lia | exact Hout].
  - unfold mbind at 1. cbn [print].
    destruct (Z.eqb_spec attempt max_retries) as [Hlast|Hmore].
    + assert (n = 0%nat) by lia. subst n.
      eexists. eexists. split; [reflexivity|]. cbn [calls trace app_calls_after].
      repeat rewrite invocations_app. cbn.
      split; [reflexivity|]. split; [lia|].
      match goal with
      | |- app_chain_outcome _ _ ?k = _ => replace k with (calls w) by lia
      end. exact He.
    + unfold mbind at 1. cbn [sleep].
      edestruct (IH (attempt + 1)%Z) as (e' & w' & Hrun & Hcalls & Hinv & Hout);
        [lia | lia |].
      rewrite Hrun. exists e', w'. split; [reflexivity|].
      cbn [calls trace] in Hcalls, Hinv.
      repeat rewrite invocations_app in Hinv. cbn in Hinv.
      split; [exact Hcalls|]. split; [lia | exact Hout].
Qed.

Lemma converter_convert_unfold (endpoint : str -> ChatHuggingFace)
    (raw_text repo_id : str) (max_retries : Z) (w : world) :
  converter.convert_text_to_json endpoint raw_text repo_id max_retries w
  = converter.attempts (endpoint repo_id) langchain.parse converter.prompt_template
      raw_text max_retries (Z.to_nat (max_retries + 1)) 0%Z w.
Proof.
  unfold converter.convert_text_to_json, converter.build_chain, mbind, lift.
  rewrite converter_format_prompt. reflexivity.
Qed.

Lemma app_convert_unfold (endpoint : str -> ChatHuggingFace)
    (raw_text repo_id : str) (max_retries : Z) (w : world) :
  app.convert_text_to_json endpoint raw_text repo_id max_retries w
  = app.attempts (endpoint repo_id) langchain.parse app.prompt_template
      raw_text max_retries (Z.to_nat (max_retries + 1)) 0%Z w.
Proof.
  unfold app.convert_text_to_json, app.build_chain, mbind, lift.
  rewrite app_format_prompt. reflexivity.
Qed.

(** C2, as amended.  Let [max_retries] be at least 0.  If every run of the
    chain of converter.py fails, its [convert_text_to_json] runs the chain
    exactly [max_retries + 1] times.  If every run of the chain of app.py
    fails, its [convert_text_to_json] goes through [max_retries + 1]
    iterations and runs the chain once in an iteration whose failure is not
    a [ValueError] and twice in one whose first failure is a [ValueError]:
    between [max_retries + 1] and [2 * (max_retries + 1)] runs, the lower
    bound when no failure is a [ValueError], the upper one when all are.
    Each raises the failure of its last run and returns no result.  The two
    halves are independent: each one assumes the failure of its own chain
    only. *)
Theorem retry_exhaustion (endpoint : str -> ChatHuggingFace)
    (raw_text repo_id : str) (max_retries : Z) (w : world) :
  (0 <= max_retries)%Z ->
  let n := Z.to_nat (max_retries + 1) in
  ((forall i, exists e, converter_chain_outcome (endpoint repo_id) raw_text i = Raise e) ->
   exists e w',
     converter.convert_text_to_json endpoint raw_text repo_id max_retries w = (Raise e, w')
     /\ invocations (trace w') = (invocations (trace w) + n)%nat
     /\ converter_chain_outcome (endpoint repo_id) raw_text (calls w' - 1) = Raise e)
  /\ ((forall i, exists e, app_chain_outcome (endpoint repo_id) raw_text i = Raise e) ->
      exists e w' runs,
        app.convert_text_to_json endpoint raw_text repo_id max_retries w = (Raise e, w')
        /\ invocations (trace w') = (invocations (trace w) + runs)%nat
        /\ (calls w + runs)%nat
           = app_calls_after (app_chain_outcome (endpoint repo_id) raw_text) n (calls w)
        /\ (n <= runs <= 2 * n)%nat
        /\ ((forall i, fails_with_ValueError
                         (app_chain_outcome (endpoint repo_id) raw_text i) = true) ->
            runs = (2 * n)%nat)
        /\ ((forall i, fails_with_ValueError
                         (app_chain_outcome (endpoint repo_id) raw_text i) = false) ->
            runs = n)
        /\ app_chain_outcome (endpoint repo_id) raw_text (calls w' - 1) = Raise e).
Proof.
  intros Hmax n. split.
  - intros Hconv. rewrite converter_convert_unfold.
    destruct (converter_attempts_fail (endpoint repo_id) raw_text max_retries Hconv
                n 0%Z w) as (e & w' & Hrun & Hcalls & Hinv & Hout);
      [subst n; lia | subst n; lia |].
    exists e, w'. split; [exact Hrun|]. split; [exact Hinv|].
    rewrite Hcalls. exact Hout.
  - intros Happ. rewrite app_convert_unfold.
    destruct (app_attempts_fail (endpoint repo_id) raw_text max_retries Happ
                n 0%Z w) as (e & w' & Hrun & Hcalls & Hinv & Hout);
      [subst n; lia | subst n; lia |].
    pose proof (app_calls_after_bounds
                  (app_chain_outcome (endpoint repo_id) raw_text) n (calls w)) as Hb.
    exists e, w', (calls w' - calls w)%nat.
    split; [exact Hrun|]. split; [lia|]. split; [lia|]. split; [lia|].
    split; [|split; [|exact Hout]].
    + intros Hall. rewrite Hcalls, (app_calls_after_all _ _ _ Hall). lia.
    + intros Hnone. rewrite Hcalls, (app_calls_after_none _ _ _ Hnone). lia.
Qed.

(** The model answers every call with an object that has one key only: the
    chain of converter.py fails on every run, for a missing key, while the
    chain of app.py completes the object; the first half applies.  A model
    that times out on every call makes both chains fail; the second half
    applies. *)
Lemma retry_exhaustion_witness :
  let incomplete : str -> ChatHuggingFace :=
    fun _ _ _ => Return (AIMessage (u "{\x22date\x22: \x221 nov\x22}")) in
  let unreachable : str -> ChatHuggingFace :=
    fun _ _ _ => raise (OtherException (u "TimeoutError")) (u "timed out") in
  let w := mkWorld 0 [] in
  let n := Z.to_nat (2 + 1) in
  (exists e w',
      converter.convert_text_to_json incomplete (u "notes") REPO_ID 2 w = (Raise e, w')
      /\ invocations (trace w') = (invocations (trace w) + n)%nat
      /\ converter_chain_outcome (incomplete REPO_ID) (u "notes") (calls w' - 1) = Raise e)
  /\ (exists v, app_chain_outcome (incomplete REPO_ID) (u "notes") 0 = Return v)
  /\ (exists e w' runs,
        app.convert_text_to_json unreachable (u "notes") REPO_ID 2 w = (Raise e, w')
        /\ invocations (trace w') = (invocations (trace w) + runs)%nat
        /\ (calls w + runs)%nat
           = app_calls_after (app_chain_outcome (unreachable REPO_ID) (u "notes")) n (calls w)
        /\ (n <= runs <= 2 * n)%nat
        /\ ((forall i, fails_with_ValueError
                         (app_chain_outcome (unreachable REPO_ID) (u "notes") i) = true) ->
            runs = (2 * n)%nat)
        /\ ((forall i, fails_with_ValueError
                         (app_chain_outcome (unreachable REPO_ID) (u "notes") i) = false) ->
            runs = n)
        /\ app_chain_outcome (unreachable REPO_ID) (u "notes") (calls w' - 1) = Raise e).
Proof.
  intros incomplete unreachable w n.
  split; [|split].
  - apply (retry_exhaustion incomplete (u "notes") REPO_ID 2 w); [lia|].
    intros i. eexists. vm_compute. reflexivity.
  - eexists. vm_compute. reflexivity.
  - apply (retry_exhaustion unreachable (u "notes") REPO_ID 2 w); [lia|].
    intros i. eexists. vm_compute. reflexivity.
Defined.

(** C2 as stated fails on app.py: with the default [max_retries = 2] and a
    model whose every reply is unparseable, every run of the chain fails and
    the chain is run six times, not three.  With [max_retries = -1] the loop
    body never runs and the function returns [None] without raising. *)
Lemma retry_exhaustion_counterexample :
  let endpoint : str -> ChatHuggingFace :=
    fun _ _ _ => Return (AIMessage (u "I cannot process this request.")) in
  let out := app.convert_text_to_json endpoint (u "notes") REPO_ID 2 (mkWorld 0 []) in
  (forall i, exists e, app_chain_outcome (endpoint REPO_ID) (u "notes") i = Raise e)
  /\ (exists e, fst out = Raise e)
  /\ invocations (trace (snd out)) = 6%nat
  /\ Z.to_nat (2 + 1) = 3%nat
  /\ app.convert_text_to_json endpoint (u "notes") REPO_ID (-1) (mkWorld 0 [])
     = (Return PyNone, mkWorld 0 []).
Proof.
  intros endpoint out. split; [|split; [|split; [|split]]].
  - intros i. eexists. vm_compute. reflexivity.
  - eexists. vm_compute. reflexivity.
  - vm_compute. reflexivity.
  - reflexivity.
  - vm_compute. reflexivity.
Qed.

(** ** The JSON scanner: what it consumes and how it fails *)

Ltac break_match_in H :=
  match type of H with
  | context [match ?x with _ => _ end] =>
      let E := fresh "E" in destruct x eqn:E
  end.

Lemma skip_ws_length (s : str) :
  (List.length (json.skip_ws s) <= List.length s)%nat.
Proof.
  induction s as [|c r IH]; simpl; [lia|].
  destruct (json.is_ws c); simpl; lia.
Qed.

Lemma scanstring_consumes (strict : bool) (n : nat) :
  forall s t r,
    (List.length s <= n)%nat ->
    json.scanstring strict s = Return (t, r) ->
    (List.length r < List.length s)%nat.
Proof.
  induction n as [|n IH]; intros s t r Hn H.
  - destruct s; [discriminate H | simpl in Hn; lia].
  - destruct s as [|c s]; [discriminate H|].
    cbn [json.scanstring] in H.
    repeat match type of H with
    | Return _ = Return _ => inversion H; subst; clear H; simpl; lia
    | Raise _ = Return _ => discriminate H
    | json.decode_error _ = Return _ => discriminate H
    | json.cons_char _ (json.scanstring strict ?x) = Return _ =>
        let E := fresh "E" in
        destruct (json.scanstring strict x) as [[t0 r0]|e0] eqn:E;
        [ apply IH in E; [| simpl in *; lia];
          cbn in H; inversion H; subst; clear H; simpl in *; lia
        | discriminate H ]
    | _ => break_match_in H
    end.
Qed.

Lemma scanstring_raises (strict : bool) (n : nat) :
  forall s e,
    (List.length s <= n)%nat ->
    json.scanstring strict s = Raise e ->
    exn_cls e = JSONDecodeError.
Proof.
  induction n as [|n IH]; intros s e Hn H.
  - destruct s; [inversion H; reflexivity | simpl in Hn; lia].
  - destruct s as [|c s]; [inversion H; reflexivity|].
    cbn [json.scanstring] in H.
    repeat match type of H with
    | Return _ = Raise _ => discriminate H
    | json.decode_error _ = Raise _ => inversion H; reflexivity
    | json.cons_char _ (json.scanstring strict ?x) = Raise _ =>
        let E := fresh "E" in
        destruct (json.scanstring strict x) as [[t0 r0]|e0] eqn:E;
        [ discriminate H
        | apply IH in E; [| simpl in *; lia];
          cbn in H; inversion H; subst; exact E ]
    | _ => break_match_in H
    end.
Qed.

Lemma scan_digits_length (s : str) :
  forall d r, scan_digits s = (d, r) -> (List.length r <= List.length s)%nat.
Proof.
  induction s as [|c s IH]; intros d r H; simpl in H.
  - inversion H. simpl. lia.
  - destruct (digit_of_char c).
    + destruct (scan_digits s) as [d0 r0]. inversion H; subst.
      specialize (IH _ _ eq_refl). simpl. lia.
    + inversion H; subst. simpl. lia.
Qed.

Lemma match_number_consumes (s : str) (v : value) (r : str) :
  json.match_number s = Some (v, r) -> (List.length r < List.length s)%nat.
Proof.
  unfold json.match_number.
  assert (Hint : forall s1 n r1, json.scan_int_part s1 = Some (n, r1) ->
                   (List.length r1 < List.length s1)%nat).
  { intros s1 n r1 H. unfold json.scan_int_part in H.
    destruct s1 as [|c s1]; [discriminate|].
    destruct (c =? 48); [inversion H; subst; simpl; lia|].
    destruct (digit_of_char c) eqn:Ed; [|discriminate].
    cbn [scan_digits] in H. rewrite Ed in H.
    destruct (scan_digits s1) as [d0 r0] eqn:Es. inversion H; subst.
    apply scan_digits_length in Es. simpl. lia. }
  assert (Hfrac : forall s1 f r1, json.scan_frac s1 = (f, r1) ->
                   (List.length r1 <= List.length s1)%nat).
  { intros s1 f r1 H. unfold json.scan_frac in H.
    destruct s1 as [|c s1]; [inversion H; subst; simpl; lia|].
    destruct (c =? 46); [|inversion H; subst; simpl; lia].
    destruct (scan_digits s1) as [d0 r0] eqn:Es.
    apply scan_digits_length in Es.
    destruct d0; inversion H; subst; simpl; lia. }
  assert (Hexp : forall s1 x r1, json.scan_exp s1 = (x, r1) ->
                   (List.length r1 <= List.length s1)%nat).
  { intros s1 x r1 H. unfold json.scan_exp in H.
    destruct s1 as [|c s1]; [inversion H; subst; simpl; lia|].
    destruct ((c =? 101) || (c =? 69)); [|inversion H; subst; simpl; lia].
    destruct (json.scan_sign s1) as [sg r2] eqn:Esg.
    assert (List.length r2 <= List.length s1)%nat.
    { unfold json.scan_sign in Esg. destruct s1 as [|c1 s1]; [inversion Esg; simpl; lia|].
      destruct (c1 =? 43); [inversion Esg; subst; simpl; lia|].
      destruct (c1 =? 45); inversion Esg; subst; simpl; lia. }
    destruct (scan_digits r2) as [d0 r0] eqn:Es.
    apply scan_digits_length in Es.
    destruct d0; inversion H; subst; simpl; lia. }
  intros H.
  destruct s as [|c s]; [discriminate H|].
  destruct (c =? 45).
  - destruct (json.scan_int_part s) as [[n r0]|] eqn:Ei; [|discriminate].
    destruct (json.scan_frac r0) as [f r1] eqn:Ef.
    destruct (json.scan_exp r1) as [x r2] eqn:Ex.
    inversion H; subst.
    apply Hint in Ei. apply Hfrac in Ef. apply Hexp in Ex. simpl. lia.
  - destruct (json.scan_int_part (c :: s)) as [[n r0]|] eqn:Ei; [|discriminate].
    destruct (json.scan_frac r0) as [f r1] eqn:Ef.
    destruct (json.scan_exp r1) as [x r2] eqn:Ex.
    inversion H; subst.
    apply Hint in Ei. apply Hfrac in Ef. apply Hexp in Ex. lia.
Qed.

Lemma scanstring_consumes' strict s t r :
  json.scanstring strict s = Return (t, r) -> (List.length r < List.length s)%nat.
Proof. apply (scanstring_consumes strict (List.length s)). lia. Qed.

Ltac step H :=
  match type of H with
  | Return _ = Return _ => injection H; intros; subst; clear H
  | Raise _ = Return _ => discriminate H
  | json.decode_error _ = Return _ => discriminate H
  | json.recursion_error = Return _ => discriminate H
  | bind ?x _ = _ =>
      let E := fresh "E" in
      let p := fresh "p" in
      destruct x as [p|?] eqn:E; [destruct p; cbn [bind] in H | discriminate H]
  | context [if ?b then _ else _] => let E := fresh "E" in destruct b eqn:E
  | context [match ?x with _ => _ end] => let E := fresh "E" in destruct x eqn:E
  end.

Ltac lengths :=
  repeat match goal with
  | E : json.scanstring _ _ = Return _ |- _ => apply scanstring_consumes' in E
  | E : json.match_number _ = Some _ |- _ => apply match_number_consumes in E
  | E : json.skip_ws ?s = _ |- _ =>
      let L := fresh "L" in
      pose proof (skip_ws_length s) as L; rewrite E in L; clear E
  end.

Lemma scan_consumes (fuel : nat) :
  (forall strict s v r, json.scan_once fuel strict s = Return (v, r) ->
                        (List.length r < List.length s)%nat)
  /\ (forall strict s ps r, json.object_members fuel strict s = Return (ps, r) ->
                            (List.length r < List.length s)%nat)
  /\ (forall strict s vs r, json.array_items fuel strict s = Return (vs, r) ->
                            (List.length r < List.length s)%nat).
Proof.
  induction fuel as [|f (IHs & IHo & IHa)].
  - repeat split; intros; discriminate.
  - repeat split.
    + intros strict s v r H. cbn [json.scan_once] in H.
      destruct s as [|c s0]; [discriminate|].
      repeat step H; lengths;
        repeat match goal with
        | E : json.object_members f _ _ = Return _ |- _ => apply IHo in E
        | E : json.array_items f _ _ = Return _ |- _ => apply IHa in E
        end;
        try (simpl in *; lia);
        repeat (simpl; try lia;
                match goal with
                | |- context [match ?l with _ => _ end] => destruct l
                end).
    + intros strict s ps r H. cbn [json.object_members] in H.
      repeat step H; lengths;
        repeat match goal with
        | E : json.object_members f _ _ = Return _ |- _ => apply IHo in E
        | E : json.scan_once f _ _ = Return _ |- _ => apply IHs in E
        end;
        repeat match goal with
        | E : context [json.skip_ws ?x] |- _ =>
            lazymatch goal with
            | _ : (List.length (json.skip_ws x) <= _)%nat |- _ => fail
            | _ => pose proof (skip_ws_length x)
            end
        end;
        try (simpl in *; lia).
    + intros strict s vs r H. cbn [json.array_items] in H.
      repeat step H; lengths;
        repeat match goal with
        | E : json.array_items f _ _ = Return _ |- _ => apply IHa in E
        | E : json.scan_once f _ _ = Return _ |- _ => apply IHs in E
        end;
        repeat match goal with
        | E : context [json.skip_ws ?x] |- _ =>
            lazymatch goal with
            | _ : (List.length (json.skip_ws x) <= _)%nat |- _ => fail
            | _ => pose proof (skip_ws_length x)
            end
        end;
        try (simpl in *; lia).
Qed.

Lemma scanstring_raises' strict s e :
  json.scanstring strict s = Raise e -> exn_cls e = JSONDecodeError.
Proof. apply (scanstring_raises strict (List.length s)). lia. Qed.

Ltac step_raise H :=
  match type of H with
  | Return _ = Raise _ => discriminate H
  | Raise _ = Raise _ => injection H; intros; subst; clear H
  | json.decode_error _ = Raise _ => injection H; intros; subst; reflexivity
  | bind ?x _ = _ =>
      let E := fresh "E" in
      let p := fresh "p" in
      destruct x as [p|?] eqn:E; [destruct p; cbn [bind] in H | cbn [bind] in H]
  | context [if ?b then _ else _] => let E := fresh "E" in destruct b eqn:E
  | context [match ?x with _ => _ end] => let E := fresh "E" in destruct x eqn:E
  end.

Ltac ws_lengths :=
  repeat match goal with
  | E : json.skip_ws ?s = _ |- _ =>
      let L := fresh "L" in
      pose proof (skip_ws_length s) as L; rewrite E in L; clear E
  end;
  repeat match goal with
  | E : context [json.skip_ws ?x] |- _ =>
      lazymatch goal with
      | _ : (List.length (json.skip_ws x) <= _)%nat |- _ => fail
      | _ => pose proof (skip_ws_length x)
      end
  end.

Ltac consumed :=
  repeat match goal with
  | E : json.scanstring _ _ = Return _ |- _ => apply scanstring_consumes' in E
  | E : json.scan_once _ _ _ = Return _ |- _ => apply (proj1 (scan_consumes _)) in E
  | E : json.object_members _ _ _ = Return _ |- _ =>
      apply (proj1 (proj2 (scan_consumes _))) in E
  | E : json.array_items _ _ _ = Return _ |- _ =>
      apply (proj2 (proj2 (scan_consumes _))) in E
  end.

Lemma scan_raises (fuel : nat) :
  (forall strict s e, (2 * List.length s < fuel)%nat ->
      json.scan_once fuel strict s = Raise e -> exn_cls e = JSONDecodeError)
  /\ (forall strict s e, (2 * List.length s + 1 < fuel)%nat ->
        json.object_members fuel strict s = Raise e -> exn_cls e = JSONDecodeError)
  /\ (forall strict s e, (2 * List.length s + 1 < fuel)%nat ->
        json.array_items fuel strict s = Raise e -> exn_cls e = JSONDecodeError).
Proof.
  induction fuel as [|f (IHs & IHo & IHa)].
  - repeat split; intros; lia.
  - repeat split.
    + intros strict s e Hf H. cbn [json.scan_once] in H.
      destruct s as [|c s0]; [injection H; intros; subst; reflexivity|].
      repeat step_raise H;
        try (eapply scanstring_raises'; eassumption);
        ws_lengths;
        try (eapply IHo; [|eassumption]; simpl in *; lia);
        try (eapply IHa; [|eassumption]; simpl in *; lia).
    + intros strict s e Hf H. cbn [json.object_members] in H.
      repeat step_raise H;
        try (eapply scanstring_raises'; eassumption);
        ws_lengths; consumed;
        try (eapply IHo; [|eassumption]; simpl in *; lia);
        try (eapply IHs; [|eassumption]; simpl in *; lia).
    + intros strict s e Hf H. cbn [json.array_items] in H.
      repeat step_raise H;
        ws_lengths; consumed;
        try (eapply IHa; [|eassumption]; simpl in *; lia);
        try (eapply IHs; [|eassumption]; simpl in *; lia).
Qed.

(** Without the limits of the interpreter, [json.loads] raises nothing but
    [JSONDecodeError]. *)
Lemma loads_raises (strict : bool) (s : str) (e : exn) :
  json.loads strict s = Raise e -> exn_cls e = JSONDecodeError.
Proof.
  unfold json.loads. intros H.
  destruct (startswith [65279] s); [injection H; intros; subst; reflexivity|].
  destruct (json.scan_once (json.fuel_for s) strict (json.skip_ws s)) as [[v r]|e0] eqn:E;
    cbn [bind] in H.
  - destruct (json.skip_ws r); [discriminate|]. injection H; intros; subst; reflexivity.
  - injection H; intros; subst.
    eapply (proj1 (scan_raises _)); [|exact E].
    pose proof (skip_ws_length s). unfold json.fuel_for. lia.
Qed.

(** ** [json.loads] reads back what [json.dumps] writes *)

Lemma dumps_list (l : list value) :
  json.dumps (PyList l) = [91] ++ items_str l ++ [93].
Proof. reflexivity. Qed.

Lemma dumps_dict (d : list (str * value)) :
  json.dumps (PyDict d) = [123] ++ members_str d ++ [125].
Proof. reflexivity. Qed.

(** *** Strings *)

Lemma hexval_hexdigit (n : N) : n < 16 -> json.hexval (json.hexdigit n) = Some n.
Proof.
  intros H. unfold json.hexval, json.hexdigit.
  destruct (N.ltb_spec n 10).
  - replace ((48 <=? 48 + n) && (48 + n <=? 57)) with true.
    + f_equal. lia.
    + symmetry. apply andb_true_iff. split; apply N.leb_le; lia.
  - replace ((48 <=? 87 + n) && (87 + n <=? 57)) with false.
    + replace ((97 <=? 87 + n) && (87 + n <=? 102)) with true.
      * f_equal. lia.
      * symmetry. apply andb_true_iff. split; apply N.leb_le; lia.
    + symmetry. apply andb_false_iff. right. apply N.leb_gt. lia.
Qed.

Lemma hex4_u_escape (c : N) :
  c < 65536 ->
  json.hex4 (json.hexdigit (c / 4096)) (json.hexdigit ((c / 256) mod 16))
            (json.hexdigit ((c / 16) mod 16)) (json.hexdigit (c mod 16)) = Some c.
Proof.
  intros H. unfold json.hex4.
  rewrite !hexval_hexdigit.
  - f_equal. zify. Z.to_euclidean_division_equations. lia.
  - apply N.mod_lt. lia.
  - apply N.mod_lt. lia.
  - apply N.mod_lt. lia.
  - zify. Z.to_euclidean_division_equations. lia.
Qed.

Lemma scanstring_u (strict : bool) (h1 h2 h3 h4 t0 : char) (t : str) :
  json.scanstring strict (92 :: 117 :: h1 :: h2 :: h3 :: h4 :: t0 :: t)
  = match json.hex4 h1 h2 h3 h4 with
    | None => json.decode_error "Invalid \uXXXX escape"
    | Some uni =>
        if json.is_high_surrogate uni then
          match t0 :: t with
          | b :: v :: g1 :: g2 :: g3 :: g4 :: ((_ :: _) as r3) =>
              if (b =? 92) && (v =? 117) then
                match json.hex4 g1 g2 g3 g4 with
                | None => json.decode_error "Invalid \uXXXX escape"
                | Some uni2 =>
                    if json.is_low_surrogate uni2
                    then json.cons_char (json.join_surrogates uni uni2)
                           (json.scanstring strict r3)
                    else json.cons_char uni (json.scanstring strict (t0 :: t))
                end
              else json.cons_char uni (json.scanstring strict (t0 :: t))
          | _ => json.cons_char uni (json.scanstring strict (t0 :: t))
          end
        else json.cons_char uni (json.scanstring strict (t0 :: t))
    end.
Proof. reflexivity. Qed.

Lemma scanstring_raw (strict : bool) (c : char) (tail : str) :
  c <> 34 -> c <> 92 -> 32 <= c ->
  json.scanstring strict (c :: tail) = json.cons_char c (json.scanstring strict tail).
Proof.
  intros H34 H92 H32. cbn [json.scanstring].
  apply N.eqb_neq in H34, H92. rewrite H34, H92.
  replace (c <? 32) with false by (symmetry; apply N.ltb_ge; exact H32).
  now rewrite andb_false_r.
Qed.

(** After the escape of a high surrogate the scanner looks ahead for the
    escape of a low surrogate; when there is none the character stands
    alone. *)
Lemma scanstring_u_lone (strict : bool) (c : N) (tail : str) :
  c < 65536 ->
  tail <> [] ->
  (json.is_high_surrogate c = true -> no_low_escape tail) ->
  json.scanstring strict (json.u_escape c ++ tail)
  = json.cons_char c (json.scanstring strict tail).
Proof.
  intros Hbmp Hne Hlone. unfold json.u_escape. cbn [List.app].
  destruct tail as [|t0 t]; [congruence|].
  rewrite scanstring_u, (hex4_u_escape c Hbmp).
  destruct (json.is_high_surrogate c); [|reflexivity].
  specialize (Hlone eq_refl).
  destruct t as [|v [|g1 [|g2 [|g3 [|g4 [|x r3]]]]]]; try reflexivity.
  destruct (N.eqb_spec t0 92) as [->|]; [|reflexivity].
  destruct (N.eqb_spec v 117) as [->|]; [|reflexivity].
  destruct (Hlone g1 g2 g3 g4 (x :: r3) eq_refl) as (uni2 & Hhex & Hlow).
  cbn [andb]. now rewrite Hhex, Hlow.
Qed.

Lemma scanstring_escape_char (strict : bool) (c : char) (tail : str) :
  c <= 1114111 ->
  tail <> [] ->
  (json.is_high_surrogate c = true -> no_low_escape tail) ->
  json.scanstring strict (json.escape_char c ++ tail)
  = json.cons_char c (json.scanstring strict tail).
Proof.
  intros Hmax Hne Hlone. unfold json.escape_char.
  repeat match goal with
  | |- context [if c =? ?k then _ else _] =>
      destruct (N.eqb_spec c k); [subst c; reflexivity|]
  end.
  destruct ((32 <=? c) && (c <=? 126)) eqn:Hprint.
  - apply andb_true_iff in Hprint. destruct Hprint as [Hlo _].
    apply N.leb_le in Hlo. cbn [List.app]. now apply scanstring_raw.
  - destruct (N.ltb_spec c 65536) as [Hbmp|Hsup].
    + now apply scanstring_u_lone.
    + cbv zeta.
      set (hi := 55296 + ((c - 65536) / 1024) mod 1024).
      set (lo := 56320 + (c - 65536) mod 1024).
      assert (Hhi : 55296 <= hi <= 56319)
        by (subst hi; zify; Z.to_euclidean_division_equations; lia).
      assert (Hlo : 56320 <= lo <= 57343)
        by (subst lo; zify; Z.to_euclidean_division_equations; lia).
      destruct tail as [|t0 t]; [congruence|].
      unfold json.u_escape. cbn [List.app]. rewrite scanstring_u.
      rewrite (hex4_u_escape hi) by lia.
      replace (json.is_high_surrogate hi) with true
        by (symmetry; apply andb_true_iff; split; apply N.leb_le; lia).
      replace ((92 =? 92) && (117 =? 117)) with true by reflexivity.
      rewrite (hex4_u_escape lo) by lia.
      replace (json.is_low_surrogate lo) with true
        by (symmetry; apply andb_true_iff; split; apply N.leb_le; lia).
      replace (json.join_surrogates hi lo) with c; [reflexivity|].
      unfold json.join_surrogates. subst hi lo.
      zify; Z.to_euclidean_division_equations; lia.
Qed.

(** The escape of a character that is not a low surrogate does not start
    like the escape of one. *)
Lemma escape_char_no_low_escape (c : char) (tail : str) :
  json.is_low_surrogate c = false ->
  no_low_escape (json.escape_char c ++ tail).
Proof.
  intros Hlow g1 g2 g3 g4 r3. unfold json.escape_char.
  repeat match goal with
  | |- context [if c =? ?k then _ else _] =>
      destruct (N.eqb_spec c k); [cbn [List.app]; intros H; discriminate H|]
  end.
  destruct ((32 <=? c) && (c <=? 126)) eqn:Hprint.
  - cbn [List.app]. intros H. injection H as H _. congruence.
  - destruct (N.ltb_spec c 65536) as [Hbmp|Hsup].
    + unfold json.u_escape. cbn [List.app]. intros H.
      injection H as <- <- <- <- _.
      exists c. split; [now apply hex4_u_escape | exact Hlow].
    + cbv zeta.
      set (hi := 55296 + ((c - 65536) / 1024) mod 1024).
      assert (Hhi : 55296 <= hi <= 56319)
        by (subst hi; zify; Z.to_euclidean_division_equations; lia).
      unfold json.u_escape. cbn [List.app]. intros H.
      injection H as <- <- <- <- _.
      exists hi. split; [apply hex4_u_escape; lia|].
      apply andb_false_iff. left. apply N.leb_gt. lia.
Qed.

Lemma encoded_no_low_escape (s rest : str) :
  starts_with_low_surrogate s = false ->
  no_low_escape (flat_map json.escape_char s ++ 34 :: rest).
Proof.
  destruct s as [|c s]; intros Hs.
  - intros g1 g2 g3 g4 r3 H. discriminate H.
  - cbn [flat_map]. rewrite <- app_assoc. now apply escape_char_no_low_escape.
Qed.

Lemma scanstring_encoded (strict : bool) (s rest : str) :
  wf_str s = true ->
  json.scanstring strict (flat_map json.escape_char s ++ 34 :: rest) = Return (s, rest).
Proof.
  induction s as [|c s IH]; intros Hwf; [reflexivity|].
  cbn [wf_str] in Hwf.
  apply andb_true_iff in Hwf. destruct Hwf as [Hwf Hs].
  apply andb_true_iff in Hwf. destruct Hwf as [Hmax Hpair].
  apply N.leb_le in Hmax. apply negb_true_iff in Hpair.
  cbn [flat_map]. rewrite <- app_assoc, scanstring_escape_char.
  - rewrite (IH Hs). reflexivity.
  - exact Hmax.
  - destruct (flat_map json.escape_char s); discriminate.
  - intros Hhigh. rewrite Hhigh in Hpair. cbn [andb] in Hpair.
    now apply encoded_no_low_escape.
Qed.

(** *** Numbers *)

Lemma scan_digits_digits (d : uint) (rest : str) :
  no_digit_head rest -> scan_digits (digits_str d ++ rest) = (d, rest).
Proof.
  intros Hrest.
  induction d; cbn [digits_str List.app scan_digits];
    try (match goal with
         | |- context [digit_of_char ?c] =>
             let r := eval vm_compute in (digit_of_char c) in
             change (digit_of_char c) with r
         end; cbv beta iota; rewrite IHd; reflexivity).
  destruct rest as [|c r]; [reflexivity|].
  cbn [scan_digits]. cbn in Hrest. now rewrite Hrest.
Qed.

Lemma nzhead_head (d : uint) :
  match nzhead d with D0 _ => False | _ => True end.
Proof. induction d; simpl; auto. Qed.

Lemma pos_to_uint_head (p : positive) :
  match Pos.to_uint p with Nil | D0 _ => False | _ => True end.
Proof.
  pose proof (DecimalPos.Unsigned.to_of (Pos.to_uint p)) as H.
  rewrite DecimalPos.Unsigned.of_to in H. cbn [N.to_uint] in H.
  pose proof (DecimalPos.Unsigned.to_uint_nonzero p) as Hnz.
  pose proof (nzhead_head (Pos.to_uint p)) as Hh.
  unfold unorm in H. rewrite H.
  destruct (nzhead (Pos.to_uint p)) eqn:E; auto.
Qed.

Lemma scan_int_part_to_uint (n : N) (rest : str) :
  no_digit_head rest ->
  json.scan_int_part (digits_str (N.to_uint n) ++ rest) = Some (n, rest).
Proof.
  intros Hrest. destruct n as [|p].
  - reflexivity.
  - cbn [N.to_uint].
    pose proof (pos_to_uint_head p) as Hh.
    pose proof (scan_digits_digits (Pos.to_uint p) rest Hrest) as Hs.
    pose proof (DecimalPos.Unsigned.of_to p) as Hof.
    unfold json.scan_int_part.
    destruct (Pos.to_uint p) as [|d|d|d|d|d|d|d|d|d|d] eqn:E; try contradiction;
      cbn [digits_str List.app] in *;
      match goal with
      | |- context [if ?c =? 48 then _ else _] =>
          change (c =? 48) with false; cbv beta iota;
          change (digit_of_char c) with (digit_of_char c)
      end;
      rewrite Hs; unfold N.of_uint; rewrite Hof; reflexivity.
Qed.

Lemma number_end_no_digit (rest : str) : number_end rest -> no_digit_head rest.
Proof. destruct rest; simpl; tauto. Qed.

Lemma scan_frac_none (rest : str) :
  number_end rest -> json.scan_frac rest = (None, rest).
Proof.
  destruct rest as [|c r]; [reflexivity|]. cbn. intros (_ & H & _).
  apply N.eqb_neq in H. now rewrite H.
Qed.

Lemma scan_exp_none (rest : str) :
  number_end rest -> json.scan_exp rest = (None, rest).
Proof.
  destruct rest as [|c r]; [reflexivity|]. cbn. intros (_ & _ & H1 & H2).
  apply N.eqb_neq in H1, H2. now rewrite H1, H2.
Qed.

Lemma digits_str_head (d : uint) :
  has_digits d = true ->
  exists c r, digits_str d = c :: r /\ 48 <= c <= 57.
Proof.
  destruct d; cbn; intros H; try discriminate;
    eexists; eexists; (split; [reflexivity | lia]).
Qed.

Lemma scan_exp_some (sg : exp_sign) (d : uint) (rest : str) :
  has_digits d = true -> no_digit_head rest ->
  json.scan_exp ((101 :: json.sign_str sg ++ digits_str d) ++ rest) = (Some (sg, d), rest).
Proof.
  intros Hd Hrest. cbn [List.app]. rewrite <- app_assoc. unfold json.scan_exp.
  change ((101 =? 101) || (101 =? 69)) with true. cbv beta iota.
  assert (Hsg : json.scan_sign (json.sign_str sg ++ digits_str d ++ rest)
                = (sg, digits_str d ++ rest)).
  { destruct sg; try reflexivity.
    destruct (digits_str_head d Hd) as (c & r & -> & Hc).
    cbn [json.sign_str List.app json.scan_sign].
    replace (c =? 43) with false by (symmetry; apply N.eqb_neq; lia).
    replace (c =? 45) with false by (symmetry; apply N.eqb_neq; lia).
    reflexivity. }
  rewrite Hsg, (scan_digits_digits d rest Hrest).
  destruct d; try discriminate Hd; reflexivity.
Qed.

Lemma scan_frac_some (d : uint) (rest : str) :
  has_digits d = true -> no_digit_head rest ->
  json.scan_frac ((46 :: digits_str d) ++ rest) = (Some d, rest).
Proof.
  intros Hd Hrest. cbn [List.app]. unfold json.scan_frac.
  change (46 =? 46) with true. cbv beta iota.
  rewrite (scan_digits_digits d rest Hrest).
  destruct d; try discriminate Hd; reflexivity.
Qed.

Lemma match_number_int (z : Z) (rest : str) :
  number_end rest ->
  json.match_number (str_of_int z ++ rest) = Some (PyInt z, rest).
Proof.
  intros Hrest. unfold json.match_number, str_of_int.
  pose proof (number_end_no_digit rest Hrest) as Hnd.
  destruct (Z.ltb_spec z 0) as [Hneg|Hpos].
  - change (u "-") with [45]. rewrite <- app_assoc. cbn [List.app].
    change (45 =? 45) with true. cbv beta iota.
    rewrite (scan_int_part_to_uint _ rest Hnd).
    rewrite (scan_frac_none rest Hrest), (scan_exp_none rest Hrest).
    cbn [json.number_value]. do 2 f_equal. f_equal. lia.
  - cbn [List.app].
    assert (Hhead : exists c r, digits_str (N.to_uint (Z.abs_N z)) = c :: r /\ 48 <= c <= 57).
    { apply digits_str_head.
      destruct (Z.abs_N z) as [|p]; [reflexivity|]. cbn [N.to_uint].
      pose proof (pos_to_uint_head p). destruct (Pos.to_uint p); auto; contradiction. }
    destruct Hhead as (c & r & Hd & Hc).
    pose proof (scan_int_part_to_uint (Z.abs_N z) rest Hnd) as Hint.
    rewrite Hd in *. cbn [List.app] in *.
    replace (c =? 45) with false by (symmetry; apply N.eqb_neq; lia).
    rewrite Hint.
    rewrite (scan_frac_none rest Hrest), (scan_exp_none rest Hrest).
    cbn [json.number_value]. do 2 f_equal. f_equal. lia.
Qed.

Lemma match_number_float (neg : bool) (n : N) (frac : option uint)
    (exp : option (exp_sign * uint)) (rest : str) :
  wf_float (FNumber neg n frac exp) = true ->
  number_end rest ->
  json.match_number (json.float_str (FNumber neg n frac exp) ++ rest)
  = Some (PyFloat (FNumber neg n frac exp), rest).
Proof.
  intros Hwf Hrest. cbn [wf_float] in Hwf.
  apply andb_true_iff in Hwf. destruct Hwf as [Hwf Hsome].
  apply andb_true_iff in Hwf. destruct Hwf as [Hfrac Hexp].
  pose proof (number_end_no_digit rest Hrest) as Hnd.
  set (exp_str := match exp with
                  | Some (sg, d) => 101 :: json.sign_str sg ++ digits_str d
                  | None => []
                  end).
  set (frac_str := match frac with Some d => 46 :: digits_str d | None => [] end).
  assert (Hexp_scan : json.scan_exp (exp_str ++ rest) = (exp, rest)).
  { subst exp_str. destruct exp as [[sg d]|].
    - now apply scan_exp_some.
    - now apply scan_exp_none. }
  assert (Hexp_head : no_digit_head (exp_str ++ rest)).
  { subst exp_str. destruct exp as [[sg d]|]; [reflexivity | exact Hnd]. }
  assert (Hfrac_scan : json.scan_frac (frac_str ++ exp_str ++ rest)
                       = (frac, exp_str ++ rest)).
  { subst frac_str. destruct frac as [d|].
    - now apply scan_frac_some.
    - cbn [List.app]. subst exp_str. destruct exp as [[sg d]|]; [reflexivity | discriminate]. }
  assert (Hfrac_head : no_digit_head (frac_str ++ exp_str ++ rest)).
  { subst frac_str. destruct frac as [d|]; [reflexivity | exact Hexp_head]. }
  assert (Hvalue : json.number_value neg n frac exp = PyFloat (FNumber neg n frac exp)).
  { destruct frac, exp; try reflexivity. discriminate. }
  pose proof (scan_int_part_to_uint n _ Hfrac_head) as Hint.
  unfold json.match_number, json.float_str. fold frac_str. fold exp_str.
  destruct neg.
  - rewrite <- !app_assoc. cbn [List.app].
    change (45 =? 45) with true. cbv beta iota.
    rewrite Hint, Hfrac_scan, Hexp_scan, Hvalue. reflexivity.
  - rewrite <- !app_assoc. cbn [List.app].
    assert (Hhead : exists c r, digits_str (N.to_uint n) = c :: r /\ 48 <= c <= 57).
    { apply digits_str_head.
      destruct n as [|p]; [reflexivity|]. cbn [N.to_uint].
      pose proof (pos_to_uint_head p). destruct (Pos.to_uint p); auto; contradiction. }
    destruct Hhead as (c & r & Hd & Hc).
    rewrite Hd in *. cbn [List.app] in *.
    replace (c =? 45) with false by (symmetry; apply N.eqb_neq; lia).
    rewrite Hint, Hfrac_scan, Hexp_scan, Hvalue. reflexivity.
Qed.

(** A text that starts with a minus sign or a digit and is matched by the
    number pattern is read as that number. *)
Lemma scan_once_number (f : nat) (strict : bool) (c : char) (s : str) (v : value) (r : str) :
  c = 45 \/ 48 <= c <= 57 ->
  json.match_number (c :: s) = Some (v, r) ->
  json.scan_once (S f) strict (c :: s) = Return (v, r).
Proof.
  intros Hc Hm. cbn [json.scan_once].
  change (u "null") with [110; 117; 108; 108].
  change (u "true") with [116; 114; 117; 101].
  change (u "false") with [102; 97; 108; 115; 101].
  cbn [startswith].
  replace (c =? 34) with false by (symmetry; apply N.eqb_neq; lia).
  replace (c =? 123) with false by (symmetry; apply N.eqb_neq; lia).
  replace (c =? 91) with false by (symmetry; apply N.eqb_neq; lia).
  replace (110 =? c) with false by (symmetry; apply N.eqb_neq; lia).
  replace (116 =? c) with false by (symmetry; apply N.eqb_neq; lia).
  replace (102 =? c) with false by (symmetry; apply N.eqb_neq; lia).
  cbn [andb]. now rewrite Hm.
Qed.

(** *** Values *)

Lemma value_ind' (P : value -> Prop) :
  P PyNone ->
  (forall b, P (PyBool b)) ->
  (forall z, P (PyInt z)) ->
  (forall f, P (PyFloat f)) ->
  (forall s, P (PyStr s)) ->
  (forall l, Forall P l -> P (PyList l)) ->
  (forall d, Forall (fun kv => P (snd kv)) d -> P (PyDict d)) ->
  forall v, P v.
Proof.
  intros HN HB HI HF HS HL HD.
  fix IH 1. intros [| b | z | f | s | l | d].
  - exact HN.
  - apply HB.
  - apply HI.
  - apply HF.
  - apply HS.
  - apply HL. induction l as [|x l IHl]; constructor; [apply IH | exact IHl].
  - apply HD. induction d as [|[k x] d IHd]; constructor; [apply IH | exact IHd].
Qed.

Lemma to_uint_head (n : N) :
  exists c r, digits_str (N.to_uint n) = c :: r /\ 48 <= c <= 57.
Proof.
  apply digits_str_head.
  destruct n as [|p]; [reflexivity|]. cbn [N.to_uint].
  pose proof (pos_to_uint_head p). destruct (Pos.to_uint p); auto; contradiction.
Qed.

Lemma str_of_int_head (z : Z) :
  exists c r, str_of_int z = c :: r /\ (c = 45 \/ 48 <= c <= 57).
Proof.
  unfold str_of_int. destruct (z <? 0)%Z.
  - eexists; eexists; split; [reflexivity | left; reflexivity].
  - destruct (to_uint_head (Z.abs_N z)) as (c & r & H & Hc).
    exists c, r. split; [exact H | right; exact Hc].
Qed.

Lemma float_number_head neg n frac exp :
  exists c r, json.float_str (FNumber neg n frac exp) = c :: r
              /\ (c = 45 \/ 48 <= c <= 57).
Proof.
  unfold json.float_str. destruct neg.
  - eexists; eexists; split; [reflexivity | left; reflexivity].
  - destruct (to_uint_head n) as (c & r & H & Hc). rewrite H.
    eexists; eexists; split; [reflexivity | right; exact Hc].
Qed.

Lemma starts_value_char (c : N) (s : str) :
  (c = 45 \/ 48 <= c <= 57) -> starts_value (c :: s).
Proof.
  intros H. cbn. unfold json.is_ws.
  repeat split; try lia.
  repeat (apply orb_false_iff; split); apply N.eqb_neq; lia.
Qed.

Lemma dumps_starts_value (v : value) (rest : str) :
  starts_value (json.dumps v ++ rest).
Proof.
  destruct v as [| [|] | z | [| [|] | neg n frac exp] | s | l | d];
    try (cbn; repeat split; (reflexivity || discriminate)).
  - cbn [json.dumps]. destruct (str_of_int_head z) as (c & r & -> & Hc).
    now apply starts_value_char.
  - cbn [json.dumps]. destruct (float_number_head neg n frac exp) as (c & r & -> & Hc).
    now apply starts_value_char.
Qed.

Lemma skip_ws_starts_value (s : str) : starts_value s -> json.skip_ws s = s.
Proof.
  destruct s as [|c r]; [contradiction|]. cbn. intros (H & _). now rewrite H.
Qed.

Lemma encode_str_starts_value (k rest : str) : starts_value (json.encode_str k ++ rest).
Proof. cbn. repeat split; (reflexivity || discriminate). Qed.

Lemma number_end_comma (s : str) : number_end (44 :: s).
Proof. cbn. repeat split; (reflexivity || discriminate). Qed.

Lemma number_end_bracket (s : str) : number_end (93 :: s).
Proof. cbn. repeat split; (reflexivity || discriminate). Qed.

Lemma number_end_brace (s : str) : number_end (125 :: s).
Proof. cbn. repeat split; (reflexivity || discriminate). Qed.

Lemma scan_once_str (f : nat) (strict : bool) (s : str) :
  json.scan_once (S f) strict (34 :: s)
  = bind (json.scanstring strict s) (fun '(t, r') => Return (PyStr t, r')).
Proof. reflexivity. Qed.

Lemma scan_once_list (f : nat) (strict : bool) (s : str) :
  json.scan_once (S f) strict (91 :: s)
  = match json.skip_ws s with
    | c1 :: r1 =>
        if c1 =? 93 then Return (PyList [], r1)
        else bind (json.array_items f strict (c1 :: r1))
               (fun '(items, r') => Return (PyList items, r'))
    | [] => json.decode_error "Expecting value"
    end.
Proof. reflexivity. Qed.

Lemma scan_once_dict (f : nat) (strict : bool) (s : str) :
  json.scan_once (S f) strict (123 :: s)
  = match json.skip_ws s with
    | c1 :: r1 =>
        if c1 =? 125 then Return (PyDict [], r1)
        else bind (json.object_members f strict (c1 :: r1))
               (fun '(pairs, r') => Return (PyDict (dict_of_pairs pairs), r'))
    | [] => json.decode_error "Expecting property name enclosed in double quotes"
    end.
Proof. reflexivity. Qed.

Lemma array_items_step (f : nat) (strict : bool) (s : str) :
  json.array_items (S f) strict s
  = bind (json.scan_once f strict s)
      (fun '(v, r1) =>
         match json.skip_ws r1 with
         | c2 :: r2 =>
             if c2 =? 93 then Return ([v], r2)
             else if c2 =? 44 then
               bind (json.array_items f strict (json.skip_ws r2))
                 (fun '(rest, r3) => Return (v :: rest, r3))
             else json.decode_error "Expecting ',' delimiter"
         | [] => json.decode_error "Expecting ',' delimiter"
         end).
Proof. reflexivity. Qed.

Lemma object_members_step (f : nat) (strict : bool) (s : str) :
  json.object_members (S f) strict (34 :: s)
  = bind (json.scanstring strict s)
      (fun '(k, r1) =>
         match json.skip_ws r1 with
         | c2 :: r2 =>
             if c2 =? 58 then
               bind (json.scan_once f strict (json.skip_ws r2))
                 (fun '(v, r3) =>
                    match json.skip_ws r3 with
                    | c4 :: r4 =>
                        if c4 =? 125 then Return ([(k, v)], r4)
                        else if c4 =? 44 then
                          bind (json.object_members f strict (json.skip_ws r4))
                            (fun '(rest, r5) => Return ((k, v) :: rest, r5))
                        else json.decode_error "Expecting ',' delimiter"
                    | [] => json.decode_error "Expecting ',' delimiter"
                    end)
             else json.decode_error "Expecting ':' delimiter"
         | [] => json.decode_error "Expecting ':' delimiter"
         end).
Proof. reflexivity. Qed.

Lemma wf_list_cons (x : value) (l : list value) :
  wf_value (PyList (x :: l)) = wf_value x && wf_value (PyList l).
Proof. reflexivity. Qed.

Lemma items_str_starts_value (x : value) (l : list value) (rest : str) :
  starts_value (items_str (x :: l) ++ rest).
Proof.
  cbn [items_str]. rewrite <- app_assoc. apply dumps_starts_value.
Qed.

Lemma array_items_reads_back (strict : bool) (rest : str) (l : list value) :
  Forall reads_back l ->
  forall (x : value) (fuel : nat),
    reads_back x ->
    wf_value (PyList (x :: l)) = true ->
    (List.length (items_str (x :: l)) + 1 < fuel)%nat ->
    json.array_items fuel strict (items_str (x :: l) ++ 93 :: rest)
    = Return (x :: l, rest).
Proof.
  induction 1 as [|y l Hy Hl IH]; intros x fuel Hx Hwf Hfuel.
  - rewrite wf_list_cons in Hwf. apply andb_true_iff in Hwf. destruct Hwf as [Hwx _].
    destruct fuel as [|f]; [lia|]. rewrite array_items_step.
    cbn [items_str] in *. rewrite app_nil_r in *.
    rewrite (Hx Hwx strict f (93 :: rest)); [|lia|apply number_end_bracket].
    reflexivity.
  - rewrite wf_list_cons in Hwf. apply andb_true_iff in Hwf. destruct Hwf as [Hwx Hwl].
    destruct fuel as [|f]; [lia|]. rewrite array_items_step.
    change (items_str (x :: y :: l))
      with (json.dumps x ++ u ", " ++ items_str (y :: l)) in *.
    rewrite !length_app in Hfuel. change (List.length (u ", ")) with 2%nat in Hfuel.
    rewrite <- !app_assoc. change (u ", ") with [44; 32]. cbn [List.app].
    rewrite (Hx Hwx strict f); [|lia|apply number_end_comma].
    cbn [bind]. change (json.skip_ws (44 :: ?s)) with (44 :: s).
    cbv beta iota. change (44 =? 93) with false. change (44 =? 44) with true.
    cbv beta iota.
    change (json.skip_ws (32 :: ?s)) with (json.skip_ws s).
    rewrite (skip_ws_starts_value _ (items_str_starts_value y l (93 :: rest))).
    rewrite (IH y f Hy Hwl); [reflexivity | lia].
Qed.

Lemma wf_dict_cons (k : str) (x : value) (d : list (str * value)) :
  wf_value (PyDict ((k, x) :: d)) = true ->
  wf_str k = true /\ wf_value x = true /\ wf_value (PyDict d) = true.
Proof.
  cbn [wf_value keys map fst unique]. intros H.
  apply andb_true_iff in H. destruct H as [Hu Ha].
  apply andb_true_iff in Hu. destruct Hu as [_ Hu].
  apply andb_true_iff in Ha. destruct Ha as [Ha Hr].
  apply andb_true_iff in Ha. destruct Ha as [Hk Hx].
  repeat split; try assumption.
  cbn [wf_value]. apply andb_true_iff. split; [exact Hu | exact Hr].
Qed.

Lemma members_str_starts_value (k : str) (x : value) (d : list (str * value)) (rest : str) :
  starts_value (members_str ((k, x) :: d) ++ rest).
Proof. cbn. repeat split; (reflexivity || discriminate). Qed.

Lemma members_str_head (k : str) (x : value) (d : list (str * value)) (rest : str) :
  exists s, members_str ((k, x) :: d) ++ rest = 34 :: s.
Proof. eexists. reflexivity. Qed.

Lemma object_members_reads_back (strict : bool) (rest : str) (d : list (str * value)) :
  Forall (fun kv => reads_back (snd kv)) d ->
  forall (k : str) (x : value) (fuel : nat),
    reads_back x ->
    wf_value (PyDict ((k, x) :: d)) = true ->
    (List.length (members_str ((k, x) :: d)) + 1 < fuel)%nat ->
    json.object_members fuel strict (members_str ((k, x) :: d) ++ 125 :: rest)
    = Return ((k, x) :: d, rest).
Proof.
  induction 1 as [|[k' y] d Hy Hd IH]; intros k x fuel Hx Hwf Hfuel.
  - destruct (wf_dict_cons _ _ _ Hwf) as (Hwk & Hwx & _).
    destruct fuel as [|f]; [lia|].
    cbn [members_str] in *. rewrite app_nil_r in *.
    unfold json.encode_str in *. change (u ": ") with [58; 32] in *.
    rewrite !length_app in Hfuel. cbn [List.length] in Hfuel.
    rewrite <- !app_assoc. cbn [List.app].
    rewrite object_members_step, scanstring_encoded by exact Hwk.
    cbn [bind]. change (json.skip_ws (58 :: ?s)) with (58 :: s).
    cbv beta iota. change (58 =? 58) with true. cbv beta iota.
    change (json.skip_ws (32 :: ?s)) with (json.skip_ws s).
    rewrite (skip_ws_starts_value _ (dumps_starts_value x (125 :: rest))).
    rewrite (Hx Hwx strict f (125 :: rest)); [|lia|apply number_end_brace].
    reflexivity.
  - destruct (wf_dict_cons _ _ _ Hwf) as (Hwk & Hwx & Hwd).
    destruct fuel as [|f]; [lia|].
    change (members_str ((k, x) :: (k', y) :: d))
      with (json.encode_str k ++ u ": " ++ json.dumps x ++ u ", "
            ++ members_str ((k', y) :: d)) in *.
    unfold json.encode_str in *.
    change (u ": ") with [58; 32] in *. change (u ", ") with [44; 32] in *.
    rewrite !length_app in Hfuel. cbn [List.length] in Hfuel.
    rewrite <- !app_assoc. cbn [List.app].
    rewrite object_members_step, scanstring_encoded by exact Hwk.
    cbn [bind]. change (json.skip_ws (58 :: ?s)) with (58 :: s).
    cbv beta iota. change (58 =? 58) with true. cbv beta iota.
    change (json.skip_ws (32 :: ?s)) with (json.skip_ws s).
    rewrite (skip_ws_starts_value _ (dumps_starts_value x _)).
    rewrite (Hx Hwx strict f); [|lia|apply number_end_comma].
    cbn [bind]. change (json.skip_ws (44 :: ?s)) with (44 :: s).
    cbv beta iota. change (44 =? 125) with false. change (44 =? 44) with true.
    cbv beta iota.
    change (json.skip_ws (32 :: ?s)) with (json.skip_ws s).
    rewrite (skip_ws_starts_value _ (members_str_starts_value k' y d (125 :: rest))).
    rewrite (IH k' y f Hy Hwd); [reflexivity | lia].
Qed.

Lemma existsb_str_eqb (k : str) (l : list str) :
  existsb (str_eqb k) l = false -> ~ In k l.
Proof.
  intros H Hin.
  assert (Ht : existsb (str_eqb k) l = true).
  { apply existsb_exists. exists k. split; [exact Hin | apply str_eqb_refl]. }
  congruence.
Qed.

Lemma dict_get_not_in (k : str) (d : dict) : ~ In k (keys d) -> dict_get k d = None.
Proof.
  induction d as [|[k' v] d IH]; cbn; [reflexivity|].
  intros H. destruct (str_eqb k k') eqn:E.
  - apply str_eqb_eq in E. subst. tauto.
  - apply IH. tauto.
Qed.

Lemma fold_dict_set (pairs acc : dict) :
  unique (keys pairs) = true ->
  (forall k, In k (keys pairs) -> ~ In k (keys acc)) ->
  fold_left (fun d kv => dict_set (fst kv) (snd kv) d) pairs acc = acc ++ pairs.
Proof.
  revert acc. induction pairs as [|[k v] pairs IH]; intros acc Hu Hdis; cbn.
  - now rewrite app_nil_r.
  - cbn in Hu. apply andb_true_iff in Hu. destruct Hu as [Hk Hu].
    apply negb_true_iff in Hk. apply existsb_str_eqb in Hk.
    rewrite dict_set_absent by (apply dict_get_not_in, Hdis; now left).
    rewrite IH; [now rewrite <- app_assoc | exact Hu |].
    intros k0 Hin. unfold keys. rewrite map_app, in_app_iff. cbn.
    intros [Hacc|[<-|[]]].
    + apply (Hdis k0); [now right | exact Hacc].
    + exact (Hk Hin).
Qed.

Lemma dict_of_pairs_unique (d : dict) :
  unique (keys d) = true -> dict_of_pairs d = d.
Proof.
  intros Hu. unfold dict_of_pairs. rewrite fold_dict_set; auto.
Qed.

Lemma dumps_reads_back (v : value) : reads_back v.
Proof.
  induction v as [| b | z | f | s | l IH | d IH] using value_ind';
    intros Hwf strict fuel rest Hfuel Hrest;
    (destruct fuel as [|fuel]; [lia|]).
  - reflexivity.
  - destruct b; reflexivity.
  - cbn [json.dumps].
    pose proof (match_number_int z rest Hrest) as Hm.
    destruct (str_of_int_head z) as (c & r & Hs & Hc).
    rewrite Hs in *. cbn [List.app] in *. now apply scan_once_number.
  - destruct f as [| [|] | neg n frac exp]; try reflexivity.
    cbn [json.dumps].
    pose proof (match_number_float neg n frac exp rest Hwf Hrest) as Hm.
    destruct (float_number_head neg n frac exp) as (c & r & Hs & Hc).
    rewrite Hs in *. cbn [List.app] in *. now apply scan_once_number.
  - cbn [json.dumps]. unfold json.encode_str.
    rewrite <- !app_assoc. cbn [List.app].
    rewrite scan_once_str, scanstring_encoded by exact Hwf. reflexivity.
  - rewrite dumps_list in *. rewrite <- !app_assoc. cbn [List.app].
    rewrite scan_once_list.
    destruct l as [|x l].
    + reflexivity.
    + pose proof (items_str_starts_value x l (93 :: rest)) as Hstart.
      rewrite (skip_ws_starts_value _ Hstart).
      destruct (items_str (x :: l) ++ 93 :: rest) as [|c1 r1] eqn:E; [contradiction|].
      destruct Hstart as (_ & Hc1 & _).
      apply N.eqb_neq in Hc1. rewrite Hc1. rewrite <- E.
      inversion IH as [|? ? Hx Hl]; subst.
      rewrite (array_items_reads_back strict rest l Hl x fuel Hx Hwf); [reflexivity|].
      rewrite !length_app in Hfuel. cbn [List.length] in Hfuel. lia.
  - rewrite dumps_dict in *. rewrite <- !app_assoc. cbn [List.app].
    rewrite scan_once_dict.
    destruct d as [|[k x] d].
    + reflexivity.
    + pose proof (members_str_starts_value k x d (125 :: rest)) as Hstart.
      rewrite (skip_ws_starts_value _ Hstart).
      destruct (members_str ((k, x) :: d) ++ 125 :: rest) as [|c1 r1] eqn:E;
        [contradiction|].
      destruct Hstart as (_ & _ & Hc1 & _).
      apply N.eqb_neq in Hc1. rewrite Hc1. rewrite <- E.
      inversion IH as [|? ? Hx Hl]; subst.
      rewrite (object_members_reads_back strict rest d Hl k x fuel Hx Hwf).
      * cbn [bind]. rewrite dict_of_pairs_unique; [reflexivity|].
        cbn [wf_value] in Hwf. apply andb_true_iff in Hwf. tauto.
      * rewrite !length_app in Hfuel. cbn [List.length] in Hfuel. lia.
Qed.

(** [json.loads (json.dumps v)] is [v] for every well-formed value; in
    CPython this needs [v] to be within the limits of the interpreter (see
    [reads_back_equal]). *)
Lemma loads_dumps (strict : bool) (v : value) :
  wf_value v = true -> json.loads strict (json.dumps v) = Return v.
Proof.
  intros Hwf. unfold json.loads.
  pose proof (dumps_starts_value v []) as Hstart. rewrite app_nil_r in Hstart.
  rewrite (skip_ws_starts_value _ Hstart).
  replace (startswith [65279] (json.dumps v)) with false.
  - pose proof (dumps_reads_back v Hwf strict (json.fuel_for (json.dumps v)) []) as H.
    rewrite app_nil_r in H. rewrite H; [reflexivity | unfold json.fuel_for; lia | exact I].
  - destruct (json.dumps v) as [|c r]; [contradiction|].
    destruct Hstart as (_ & _ & _ & Hc). cbn [startswith].
    replace (65279 =? c) with false; [reflexivity|].
    symmetry. apply N.eqb_neq. congruence.
Qed.

(** ** Unrecoverable text *)




(** ** Values that are not objects *)

Lemma fill_missing_list (keys : list str) (l : list value) :
  app.fill_missing keys (PyList l)
  = if forallb (fun key => existsb (eq_str key) l) keys
    then Return (PyList l)
    else raise TypeError (u "list indices must be integers or slices, not str").
Proof.
  induction keys as [|k rest IH]; simpl; [reflexivity|].
  destruct (existsb (eq_str k) l); simpl; [exact IH | reflexivity].
Qed.

Lemma fill_missing_str (keys : list str) (s : str) :
  app.fill_missing keys (PyStr s)
  = if forallb (fun key => contains key s) keys
    then Return (PyStr s)
    else raise TypeError (u "'str' object does not support item assignment").
Proof.
  induction keys as [|k rest IH]; simpl; [reflexivity|].
  destruct (contains k s); simpl; [exact IH | reflexivity].
Qed.

Lemma validate_json_non_dict (json_str : str) (data : value) :
  json.loads true json_str = Return data ->
  is_dict data = false ->
  if holds_required_keys data
  then app.validate_json json_str = Return data
  else exists e, app.validate_json json_str = Raise e /\ exn_cls e = TypeError.
Proof.
  intros Hloads Hnd. unfold app.validate_json. rewrite Hloads.
  destruct data as [| b | z | f | s | l | d]; try discriminate Hnd;
    cbn [holds_required_keys];
    try (eexists; split; [reflexivity | reflexivity]).
  - rewrite fill_missing_str.
    destruct (forallb _ required_keys); [reflexivity|].
    eexists; split; reflexivity.
  - rewrite fill_missing_list.
    destruct (forallb _ required_keys); [reflexivity|].
    eexists; split; reflexivity.
Qed.

Lemma convert_text_status (endpoint : str -> ChatHuggingFace) (raw_text : str)
    (w w' : world) (e : exn) :
  strip raw_text <> [] ->
  app.convert_text_to_json endpoint raw_text REPO_ID 2 w = (Raise e, w') ->
  is_HTTPException e = false ->
  app.http_status (fst (app.convert_text endpoint [(u "text", PyStr raw_text)] w))
  = if is_ValueError e then 400%Z else 500%Z.
Proof.
  intros Hblank Hconv Hhttp.
  unfold app.convert_text, try_except.
  replace (dict_get (u "text") [(u "text", PyStr raw_text)]) with (Some (PyStr raw_text))
    by (vm_compute; reflexivity).
  destruct (strip raw_text) as [|c r]; [congruence|].
  unfold mbind. rewrite Hconv. unfold app.http_handlers. rewrite Hhttp.
  destruct (is_ValueError e); reflexivity.
Qed.

Lemma convert_file_status (endpoint : str -> ChatHuggingFace) (file : app.UploadFile)
    (raw_text : str) (w w' : world) (e : exn) :
  endswith (u ".txt") (app.filename file) = true ->
  app.decode_utf8 (app.file_bytes file) = Return raw_text ->
  strip raw_text <> [] ->
  app.convert_text_to_json endpoint raw_text REPO_ID 2 w = (Raise e, w') ->
  is_HTTPException e = false ->
  app.http_status (fst (app.convert_file endpoint file w))
  = if is_ValueError e then 400%Z else 500%Z.
Proof.
  intros Hname Hdec Hblank Hconv Hhttp.
  unfold app.convert_file, try_except. rewrite Hname. cbn [negb].
  unfold mbind at 1. unfold lift. rewrite Hdec.
  destruct (strip raw_text) as [|c r]; [congruence|].
  unfold mbind. rewrite Hconv. unfold app.http_handlers. rewrite Hhttp.
  destruct (is_ValueError e); reflexivity.
Qed.

(** C10, as amended.  If the text parses to a JSON value that is not an
    object, [app.validate_json] never raises a [ValueError]: it raises a
    [TypeError], except that a list holding all seven required key names as
    elements, or a string holding all seven as substrings, is returned as it
    is.  When every reply of the model leads to such a [TypeError], both
    endpoints answer 500 and not 400. *)
Theorem validate_json_non_object (json_str : str) (data : value) :
  json.loads true json_str = Return data ->
  is_dict data = false ->
  (if holds_required_keys data
   then app.validate_json json_str = Return data
   else exists e, app.validate_json json_str = Raise e /\ exn_cls e = TypeError)
  /\ (forall e, app.validate_json json_str = Raise e -> is_ValueError e = false)
  /\ (holds_required_keys data = false ->
      forall (endpoint : str -> ChatHuggingFace) (raw_text : str) (w : world),
        strip raw_text <> [] ->
        (forall i prompt, exists r data0,
            endpoint REPO_ID i prompt = Return r
            /\ langchain.parse (text_of r) = Return data0
            /\ json.dumps data0 = json_str) ->
        app.http_status
          (fst (app.convert_text endpoint [(u "text", PyStr raw_text)] w)) = 500%Z
        /\ forall file : app.UploadFile,
             endswith (u ".txt") (app.filename file) = true ->
             app.decode_utf8 (app.file_bytes file) = Return raw_text ->
             app.http_status (fst (app.convert_file endpoint file w)) = 500%Z).
Proof.
  intros Hloads Hnd.
  pose proof (validate_json_non_dict _ _ Hloads Hnd) as Hv.
  split; [exact Hv|]. split.
  - intros e He. destruct (holds_required_keys data).
    + rewrite Hv in He. discriminate.
    + destruct Hv as (e' & He' & Hcls). rewrite He' in He.
      injection He as <-. unfold is_ValueError. now rewrite Hcls.
  - intros Hkeys endpoint raw_text w Hblank Hreply.
    rewrite Hkeys in Hv. destruct Hv as (e0 & He0 & Hcls0).
    assert (Hout : forall i, app_chain_outcome (endpoint REPO_ID) raw_text i = Raise e0).
    { intros i. unfold app_chain_outcome, app.run_chain, chain_invoke, mbind, lift, invoke.
      rewrite app_format_prompt. cbn [calls].
      destruct (Hreply i (app_prompt_before ++ raw_text ++ app_prompt_after))
        as (r & data0 & Hr & Hp & Hd).
      rewrite Hr. cbn [fst]. unfold app.normalize. rewrite Hp. cbn [bind].
      rewrite Hd. exact He0. }
    assert (Hconv : exists e w',
               app.convert_text_to_json endpoint raw_text REPO_ID 2 w = (Raise e, w')
               /\ exn_cls e = TypeError).
    { rewrite app_convert_unfold.
      destruct (app_attempts_fail (endpoint REPO_ID) raw_text 2
                  (fun i => ex_intro _ e0 (Hout i)) (Z.to_nat (2 + 1)) 0%Z w)
        as (e & w' & Hrun & _ & _ & Hlast); [reflexivity | simpl; lia |].
      exists e, w'. split; [exact Hrun|].
      rewrite Hout in Hlast. injection Hlast as <-. exact Hcls0. }
    destruct Hconv as (e & w' & Hconv & Hcls).
    assert (Hhttp : is_HTTPException e = false)
      by (unfold is_HTTPException; now rewrite Hcls).
    assert (Hval : is_ValueError e = false)
      by (unfold is_ValueError; now rewrite Hcls).
    split.
    + rewrite (convert_text_status _ _ _ _ _ Hblank Hconv Hhttp). now rewrite Hval.
    + intros file Hname Hdec.
      rewrite (convert_file_status _ _ _ _ _ _ Hname Hdec Hblank Hconv Hhttp).
      now rewrite Hval.
Qed.

Lemma validate_json_non_object_witness :
  (if holds_required_keys (PyList [])
   then app.validate_json (u "[]") = Return (PyList [])
   else exists e, app.validate_json (u "[]") = Raise e /\ exn_cls e = TypeError)
  /\ (forall e, app.validate_json (u "[]") = Raise e -> is_ValueError e = false)
  /\ (holds_required_keys (PyList []) = false ->
      forall (endpoint : str -> ChatHuggingFace) (raw_text : str) (w : world),
        strip raw_text <> [] ->
        (forall i prompt, exists r data0,
            endpoint REPO_ID i prompt = Return r
            /\ langchain.parse (text_of r) = Return data0
            /\ json.dumps data0 = u "[]") ->
        app.http_status
          (fst (app.convert_text endpoint [(u "text", PyStr raw_text)] w)) = 500%Z
        /\ forall file : app.UploadFile,
             endswith (u ".txt") (app.filename file) = true ->
             app.decode_utf8 (app.file_bytes file) = Return raw_text ->
             app.http_status (fst (app.convert_file endpoint file w)) = 500%Z).
Proof.
  apply (validate_json_non_object (u "[]") (PyList [])).
  - vm_compute. reflexivity.
  - reflexivity.
Defined.

(** C10 as stated fails: the array of the seven required key names is not
    an object, yet [app.validate_json] raises nothing on it and returns the
    list, and the endpoint answers 200 with that list as data. *)
Lemma validate_json_non_object_counterexample :
  let json_str :=
    u "[\x22date\x22, \x22branding_priorities\x22, \x22cleaning_slots\x22, \x22stabling_geometry\x22, \x22fitness_certificates\x22, \x22job_card_status\x22, \x22mileage\x22]" in
  let endpoint : str -> ChatHuggingFace := fun _ _ _ => Return (AIMessage json_str) in
  json.loads true json_str = Return (PyList (map PyStr required_keys))
  /\ app.validate_json json_str = Return (PyList (map PyStr required_keys))
  /\ app.convert_text endpoint [(u "text", PyStr (u "notes"))] (mkWorld 0 [])
     = (Return (app.mkJSONResponse 200
                  (PyDict [(u "success", PyBool true);
                           (u "data", PyList (map PyStr required_keys))])),
        mkWorld 1 [Invoked (app_prompt_before ++ u "notes" ++ app_prompt_after)]).
Proof. repeat split; vm_compute; reflexivity. Qed.

(** ** Idempotent completion *)

Lemma missing_entries_none (keys : list str) (d : dict) :
  forallb (fun k => dict_contains k d) keys = true -> missing_entries keys d = [].
Proof.
  induction keys as [|k rest IH]; cbn; [reflexivity|].
  intros H. apply andb_true_iff in H. destruct H as [Hk Hrest].
  rewrite Hk. now apply IH.
Qed.

Lemma fill_missing_complete (d : dict) :
  forallb (fun k => dict_contains k d) required_keys = true ->
  app.fill_missing required_keys (PyDict d) = Return (PyDict d).
Proof.
  intros H. rewrite fill_missing_dict, missing_entries_none by exact H.
  now rewrite app_nil_r.
Qed.

(** What [app.validate_json] can return: a dict that holds every required
    key, or a list or string in which every required key is found. *)
Lemma validate_json_returns (json_str : str) (v : value) :
  app.validate_json json_str = Return v ->
  match v with
  | PyDict d => forallb (fun k => dict_contains k d) required_keys = true
  | _ => holds_required_keys v = true
  end.
Proof.
  unfold app.validate_json.
  destruct (json.loads true json_str) as [data|e] eqn:Hloads; [|discriminate].
  destruct data as [| b | z | f | s | l | d]; try discriminate.
  - rewrite fill_missing_str. cbn [holds_required_keys].
    destruct (forallb _ required_keys) eqn:E; [|discriminate].
    intros H. injection H as <-. exact E.
  - rewrite fill_missing_list. cbn [holds_required_keys].
    destruct (forallb _ required_keys) eqn:E; [|discriminate].
    intros H. injection H as <-. exact E.
  - rewrite fill_missing_dict. intros H.
    assert (Hv : v = PyDict (d ++ missing_entries required_keys d)) by congruence.
    rewrite Hv. apply forallb_forall. intros k Hk.
    now apply missing_entries_complete.
Qed.

Lemma validate_json_fixpoint (v : value) :
  wf_value v = true ->
  match v with
  | PyDict d => forallb (fun k => dict_contains k d) required_keys = true
  | _ => holds_required_keys v = true
  end ->
  app.validate_json (json.dumps v) = Return v.
Proof.
  intros Hwf Hkeys. unfold app.validate_json. rewrite (loads_dumps true v Hwf).
  destruct v as [| b | z | f | s | l | d]; try discriminate Hkeys.
  - rewrite fill_missing_str. cbn [holds_required_keys] in Hkeys. now rewrite Hkeys.
  - rewrite fill_missing_list. cbn [holds_required_keys] in Hkeys. now rewrite Hkeys.
  - now apply fill_missing_complete.
Qed.

Lemma reads_back_equal_wf_value (v : value) :
  reads_back_equal v = true -> wf_value v = true.
Proof.
  unfold reads_back_equal. intros H.
  apply andb_true_iff in H. destruct H as [H _].
  apply andb_true_iff in H. now destruct H as [H _].
Qed.

(** C6, as amended.  For every mapping of JSON values that holds all seven
    required keys and that [json.dumps] and [json.loads] give back equal (in
    its strings no high surrogate is directly followed by a low surrogate,
    its integers have at most 4300 digits, it is nested at most 100 deep and
    holds no [NaN]), [app.validate_json] applied to its JSON serialization
    returns the same mapping, so applying it to the serialized result once
    more changes nothing; and whatever such value [app.validate_json]
    returns on any text is returned again from its serialization. *)
Theorem completion_idempotent (d : dict) :
  reads_back_equal (PyDict d) = true ->
  forallb (fun k => dict_contains k d) required_keys = true ->
  app.validate_json (json.dumps (PyDict d)) = Return (PyDict d)
  /\ bind (app.validate_json (json.dumps (PyDict d)))
          (fun v => app.validate_json (json.dumps v))
     = app.validate_json (json.dumps (PyDict d))
  /\ forall (json_str : str) (v : value),
       app.validate_json json_str = Return v ->
       reads_back_equal v = true ->
       app.validate_json (json.dumps v) = Return v.
Proof.
  intros Hok Hkeys.
  assert (H1 : app.validate_json (json.dumps (PyDict d)) = Return (PyDict d))
    by (apply validate_json_fixpoint; [now apply reads_back_equal_wf_value | exact Hkeys]).
  split; [exact H1|]. split.
  - rewrite H1. cbn [bind]. exact H1.
  - intros json_str v Hv Hokv.
    apply validate_json_fixpoint; [now apply reads_back_equal_wf_value|].
    now apply (validate_json_returns json_str).
Qed.

Lemma completion_idempotent_witness :
  let d : dict :=
    [(u "date", PyStr (u "2024-01-01"));
     (u "branding_priorities", PyStr (u "Not specified"));
     (u "cleaning_slots", PyStr (u "KMRC-012, 11pm, team A"));
     (u "stabling_geometry", PyList [PyStr (u "KMRC-018"); PyInt 3]);
     (u "fitness_certificates", PyDict [(u "telecom", PyStr (u "1 dec"))]);
     (u "job_card_status", PyNone);
     (u "mileage", PyFloat (FNumber false 12 (Some (D5 Nil)) None));
     (u "extra", PyBool true)] in
  app.validate_json (json.dumps (PyDict d)) = Return (PyDict d)
  /\ bind (app.validate_json (json.dumps (PyDict d)))
          (fun v => app.validate_json (json.dumps v))
     = app.validate_json (json.dumps (PyDict d))
  /\ forall (json_str : str) (v : value),
       app.validate_json json_str = Return v ->
       reads_back_equal v = true ->
       app.validate_json (json.dumps v) = Return v.
Proof.
  intros d. apply (completion_idempotent d).
  - vm_compute. reflexivity.
  - vm_compute. reflexivity.
Defined.

(** C6 as stated fails on a mapping one of whose strings holds a high
    surrogate directly followed by a low surrogate: [json.dumps] writes two
    escapes, [json.loads] reads them back as the single character U+1F600,
    and the mapping returned differs from the one serialized. *)
Lemma completion_idempotent_counterexample :
  let d : dict :=
    [(u "date", PyStr [55357; 56832]);
     (u "branding_priorities", PyStr (u "Not specified"));
     (u "cleaning_slots", PyStr (u "Not specified"));
     (u "stabling_geometry", PyStr (u "Not specified"));
     (u "fitness_certificates", PyStr (u "Not specified"));
     (u "job_card_status", PyStr (u "Not specified"));
     (u "mileage", PyStr (u "Not specified"))] in
  forallb (fun k => dict_contains k d) required_keys = true
  /\ json.dumps (PyStr [55357; 56832]) = u "\x22\ud83d\ude00\x22"
  /\ app.validate_json (json.dumps (PyDict d))
     = Return (PyDict (dict_set (u "date") (PyStr [128512]) d))
  /\ PyDict (dict_set (u "date") (PyStr [128512]) d) <> PyDict d.
Proof.
  intros d. split; [|split; [|split]].
  - vm_compute. reflexivity.
  - vm_compute. reflexivity.
  - vm_compute. reflexivity.
  - vm_compute. intros H. discriminate H.
Qed.

(** * Further properties of the two modules *)

(** ** [validate_json] of converter.py *)

Lemma check_keys_returns (keys : list str) (data v : value) :
  converter.check_keys keys data = Return v ->
  v = data /\ forall k, In k keys -> has_key data k.
Proof.
  induction keys as [|k rest IH]; cbn [converter.check_keys].
  - intros H. injection H as <-. split; [reflexivity | intros k []].
  - destruct (py_contains k data) as [[|]|e] eqn:E; cbn [bind negb];
      try discriminate.
    intros H. destruct (IH H) as [-> Hrest]. split; [reflexivity|].
    intros k' [<-|Hin]; [exact E | now apply Hrest].
Qed.

Lemma check_keys_complete (keys : list str) (data : value) :
  (forall k, In k keys -> has_key data k) ->
  converter.check_keys keys data = Return data.
Proof.
  induction keys as [|k rest IH]; cbn [converter.check_keys]; intros H;
    [reflexivity|].
  rewrite (H k (or_introl eq_refl)). cbn [bind negb].
  apply IH. intros k' Hk'. apply H. now right.
Qed.

Lemma check_keys_first_missing (before after : list str) (k : str) (d : dict) :
  forallb (fun k' => dict_contains k' d) before = true ->
  dict_contains k d = false ->
  converter.check_keys (before ++ k :: after) (PyDict d)
  = raise ValueError (u "Missing key: " ++ k).
Proof.
  induction before as [|k0 rest IH]; cbn [converter.check_keys List.app forallb py_contains bind].
  - intros _ Hk. now rewrite Hk.
  - intros H Hk. apply andb_true_iff in H. destruct H as [H0 Hrest].
    rewrite H0. cbn [negb]. now apply IH.
Qed.

Lemma fill_missing_present (keys : list str) (data : value) :
  (forall k, In k keys -> has_key data k) ->
  app.fill_missing keys data = Return data.
Proof.
  induction keys as [|k rest IH]; cbn [app.fill_missing]; intros H;
    [reflexivity|].
  rewrite (H k (or_introl eq_refl)). cbn [bind negb].
  apply IH. intros k' Hk'. apply H. now right.
Qed.

Lemma forallb_has_key (d : dict) (keys : list str) :
  forallb (fun k => dict_contains k d) keys = true ->
  forall k, In k keys -> has_key (PyDict d) k.
Proof.
  intros H k Hk. unfold has_key. cbn [py_contains]. f_equal.
  rewrite forallb_forall in H. now apply H.
Qed.

(** X1. On the text of a JSON object, [validate_json] of converter.py
    returns the object as parsed when it holds all seven required keys, and
    otherwise raises a [ValueError] that names the first required key, in
    the order of the list, that the object lacks. *)
Theorem converter_validate_json_object (json_str : str) (d : dict) :
  json.loads true json_str = Return (PyDict d) ->
  (forallb (fun k => dict_contains k d) required_keys = true ->
   converter.validate_json json_str = Return (PyDict d))
  /\ (forall (before after : list str) (k : str),
        required_keys = before ++ k :: after ->
        forallb (fun k' => dict_contains k' d) before = true ->
        dict_contains k d = false ->
        converter.validate_json json_str
        = Raise (mkExn ValueError (u "Missing key: " ++ k))).
Proof.
  intros Hloads. unfold converter.validate_json. rewrite Hloads. split.
  - intros Hall. apply check_keys_complete. now apply forallb_has_key.
  - intros before after k Hreq Hbefore Hk. rewrite Hreq.
    now apply check_keys_first_missing.
Qed.

Lemma converter_validate_json_object_witness :
  (forallb (fun k => dict_contains k [(u "date", PyStr (u "1 nov")); (u "mileage", PyInt 7)])
     required_keys = true ->
   converter.validate_json (u "{\x22date\x22: \x221 nov\x22, \x22mileage\x22: 7}")
   = Return (PyDict [(u "date", PyStr (u "1 nov")); (u "mileage", PyInt 7)]))
  /\ converter.validate_json (u "{\x22date\x22: \x221 nov\x22, \x22mileage\x22: 7}")
     = Raise (mkExn ValueError (u "Missing key: " ++ u "branding_priorities")).
Proof.
  destruct (converter_validate_json_object
              (u "{\x22date\x22: \x221 nov\x22, \x22mileage\x22: 7}")
              [(u "date", PyStr (u "1 nov")); (u "mileage", PyInt 7)])
    as [Hall Hmiss]; [vm_compute; reflexivity|].
  split; [exact Hall|].
  apply (Hmiss [u "date"]
           [u "cleaning_slots"; u "stabling_geometry"; u "fitness_certificates";
            u "job_card_status"; u "mileage"]
           (u "branding_priorities")).
  - reflexivity.
  - vm_compute. reflexivity.
  - vm_compute. reflexivity.
Defined.
Lemma converter_validate_json_inv (json_str : str) (v : value) :
  converter.validate_json json_str = Return v ->
  json.loads true json_str = Return v
  /\ forall k, In k required_keys -> has_key v k.
Proof.
  unfold converter.validate_json.
  destruct (json.loads true json_str) as [data|e]; [|discriminate].
  intros H. apply check_keys_returns in H. destruct H as [-> Hkeys].
  split; [reflexivity | exact Hkeys].
Qed.

(** X2. [validate_json] of converter.py changes nothing: a value it returns
    is the value [json.loads] gives for the text, and each of the seven
    required keys is [in] that value. *)
Theorem converter_validate_json_returns (json_str : str) (v : value) :
  converter.validate_json json_str = Return v ->
  json.loads true json_str = Return v
  /\ forall k, In k required_keys -> has_key v k.
Proof. apply converter_validate_json_inv. Qed.

Lemma converter_validate_json_returns_witness :
  let json_str :=
    u "{\x22date\x22: 1, \x22branding_priorities\x22: 2, \x22cleaning_slots\x22: 3, \x22stabling_geometry\x22: 4, \x22fitness_certificates\x22: 5, \x22job_card_status\x22: 6, \x22mileage\x22: 7}" in
  let v := PyDict [(u "date", PyInt 1); (u "branding_priorities", PyInt 2);
                   (u "cleaning_slots", PyInt 3); (u "stabling_geometry", PyInt 4);
                   (u "fitness_certificates", PyInt 5); (u "job_card_status", PyInt 6);
                   (u "mileage", PyInt 7)] in
  json.loads true json_str = Return v
  /\ (forall k, In k required_keys -> has_key v k).
Proof.
  intros json_str v. apply (converter_validate_json_returns json_str v).
  vm_compute. reflexivity.
Defined.

(** The keys a returned value of [app.validate_json] holds, as membership
    tests. *)
Lemma app_validate_json_has_keys (json_str : str) (v : value) :
  app.validate_json json_str = Return v ->
  forall k, In k required_keys -> has_key v k.
Proof.
  intros H. apply validate_json_returns in H.
  intros k Hk. unfold has_key.
  destruct v as [| b | z | f | s | l | d]; cbn [holds_required_keys] in H;
    try discriminate H; cbn [py_contains]; f_equal;
    rewrite forallb_forall in H; now apply H.
Qed.

(** X3. The two [validate_json] functions agree wherever the strict one
    accepts: a value that converter.py's returns is returned unchanged by
    app.py's, a text on which app.py's raises makes converter.py's raise as
    well, and a value that app.py's returns as [json.loads] gave it is
    accepted by converter.py's. *)
Theorem validate_json_strict_refines (json_str : str) :
  (forall v, converter.validate_json json_str = Return v ->
             app.validate_json json_str = Return v)
  /\ (forall e, app.validate_json json_str = Raise e ->
                exists e', converter.validate_json json_str = Raise e')
  /\ (forall v, app.validate_json json_str = Return v ->
                json.loads true json_str = Return v ->
                converter.validate_json json_str = Return v).
Proof.
  assert (Hagree : forall v, converter.validate_json json_str = Return v ->
                             app.validate_json json_str = Return v).
  { intros v H. apply converter_validate_json_inv in H. destruct H as [Hloads Hkeys].
    unfold app.validate_json. rewrite Hloads. now apply fill_missing_present. }
  split; [exact Hagree|]. split.
  - intros e He.
    destruct (converter.validate_json json_str) as [v|e'] eqn:Hc; [|now exists e'].
    rewrite (Hagree v eq_refl) in He. discriminate.
  - intros v Happ Hloads.
    pose proof (app_validate_json_has_keys _ _ Happ) as Hkeys.
    unfold converter.validate_json. rewrite Hloads. now apply check_keys_complete.
Qed.

Lemma validate_json_strict_refines_witness :
  let json_str :=
    u "{\x22date\x22: 1, \x22branding_priorities\x22: 2, \x22cleaning_slots\x22: 3, \x22stabling_geometry\x22: 4, \x22fitness_certificates\x22: 5, \x22job_card_status\x22: 6, \x22mileage\x22: 7}" in
  let v := PyDict [(u "date", PyInt 1); (u "branding_priorities", PyInt 2);
                   (u "cleaning_slots", PyInt 3); (u "stabling_geometry", PyInt 4);
                   (u "fitness_certificates", PyInt 5); (u "job_card_status", PyInt 6);
                   (u "mileage", PyInt 7)] in
  app.validate_json json_str = Return v
  /\ (exists e', converter.validate_json (u "[]") = Raise e').
Proof.
  intros json_str v. split.
  - apply (proj1 (validate_json_strict_refines json_str) v). vm_compute. reflexivity.
  - apply (proj1 (proj2 (validate_json_strict_refines (u "[]")))
             (mkExn TypeError (u "list indices must be integers or slices, not str"))).
    vm_compute. reflexivity.
Defined.

Lemma check_keys_list (keys : list str) (l : list value) :
  if forallb (fun key => existsb (eq_str key) l) keys
  then converter.check_keys keys (PyList l) = Return (PyList l)
  else exists k, In k keys
         /\ converter.check_keys keys (PyList l)
            = Raise (mkExn ValueError (u "Missing key: " ++ k)).
Proof.
  induction keys as [|k rest IH]; cbn [forallb converter.check_keys py_contains bind];
    [reflexivity|].
  destruct (existsb (eq_str k) l); cbn [negb andb].
  - destruct (forallb _ rest); [exact IH|].
    destruct IH as (k' & Hin & Hk'). exists k'. split; [now right | exact Hk'].
  - exists k. split; [now left | reflexivity].
Qed.

Lemma check_keys_str (keys : list str) (s : str) :
  if forallb (fun key => contains key s) keys
  then converter.check_keys keys (PyStr s) = Return (PyStr s)
  else exists k, In k keys
         /\ converter.check_keys keys (PyStr s)
            = Raise (mkExn ValueError (u "Missing key: " ++ k)).
Proof.
  induction keys as [|k rest IH]; cbn [forallb converter.check_keys py_contains bind];
    [reflexivity|].
  destruct (contains k s); cbn [negb andb].
  - destruct (forallb _ rest); [exact IH|].
    destruct IH as (k' & Hin & Hk'). exists k'. split; [now right | exact Hk'].
  - exists k. split; [now left | reflexivity].
Qed.

(** X4. On the text of a JSON value that is not an object, [validate_json]
    of converter.py raises a [TypeError] for [null], a boolean or a number;
    for an array or a string it returns the value when each required key is
    one of its elements (a substring of it), and otherwise raises the
    [ValueError] of a missing key. *)
Theorem converter_validate_json_non_object (json_str : str) (data : value) :
  json.loads true json_str = Return data ->
  is_dict data = false ->
  if is_scalar data
  then exists e, converter.validate_json json_str = Raise e /\ exn_cls e = TypeError
  else if holds_required_keys data
       then converter.validate_json json_str = Return data
       else exists k, In k required_keys
              /\ converter.validate_json json_str
                 = Raise (mkExn ValueError (u "Missing key: " ++ k)).
Proof.
  intros Hloads Hnd. unfold converter.validate_json. rewrite Hloads.
  destruct data as [| b | z | f | s | l | d]; try discriminate Hnd;
    cbn [is_scalar holds_required_keys];
    try (eexists; split; reflexivity).
  - apply check_keys_str.
  - apply check_keys_list.
Qed.

Lemma converter_validate_json_non_object_witness :
  (exists e, converter.validate_json (u "42") = Raise e /\ exn_cls e = TypeError)
  /\ (exists k, In k required_keys
        /\ converter.validate_json (u "[\x22date\x22]")
           = Raise (mkExn ValueError (u "Missing key: " ++ k))).
Proof.
  split.
  - apply (converter_validate_json_non_object (u "42") (PyInt 42)); reflexivity.
  - apply (converter_validate_json_non_object (u "[\x22date\x22]")
             (PyList [PyStr (u "date")])); reflexivity.
Defined.

(** ** The retry loops *)

Lemma prints_app (t1 t2 : list event) :
  prints (t1 ++ t2) = (prints t1 + prints t2)%nat.
Proof. unfold prints. now rewrite filter_app, length_app. Qed.

Lemma sleeps_app (t1 t2 : list event) :
  sleeps (t1 ++ t2) = (sleeps t1 + sleeps t2)%nat.
Proof. unfold sleeps. now rewrite filter_app, length_app. Qed.

Lemma loop_event_printed (prompt : str) (attempt : Z) (e : exn) :
  loop_event prompt (Printed (attempt_failed attempt e)).
Proof. now exists attempt, e. Qed.

(** The loop of converter.py, whatever the model does.  [added] is what the
    loop appends to the trace. *)
Lemma converter_attempts_trace (model : ChatHuggingFace) (raw_text : str)
    (max_retries : Z) :
  forall (n : nat) (attempt : Z) (w : world) (r : result value) (w' : world),
    (attempt + Z.of_nat n = max_retries + 1)%Z ->
    converter.attempts model langchain.parse converter.prompt_template raw_text
      max_retries n attempt w = (r, w') ->
    exists added,
      trace w' = trace w ++ added
      /\ calls w' = (calls w + invocations added)%nat
      /\ Forall (loop_event (converter_prompt_before ++ raw_text
                             ++ converter_prompt_after)) added
      /\ match r with
         | Return v =>
             prints added = sleeps added
             /\ (forall i, (i < prints added)%nat ->
                   exists e, converter_chain_outcome model raw_text (calls w + i) = Raise e)
             /\ ((n = 0%nat /\ v = PyNone /\ added = [])
                 \/ (invocations added = S (prints added)
                     /\ (prints added < n)%nat
                     /\ converter_chain_outcome model raw_text (calls w + prints added)
                        = Return v))
         | Raise e =>
             invocations added = n /\ prints added = n /\ S (sleeps added) = n
             /\ (forall i, (i < n)%nat ->
                   exists e', converter_chain_outcome model raw_text (calls w + i) = Raise e')
             /\ converter_chain_outcome model raw_text (calls w + n - 1) = Raise e
         end.
Proof.
  induction n as [|n IH]; intros attempt w r w' Hn Hrun.
  - cbn in Hrun. injection Hrun as <- <-. exists [].
    split; [now rewrite app_nil_r|]. split; [cbn; lia|]. split; [constructor|].
    split; [reflexivity|]. split; [intros i Hi; cbn in Hi; lia|]. left. auto.
  - cbn [converter.attempts] in Hrun. unfold try_except in Hrun.
    rewrite converter_run_chain_step in Hrun.
    destruct (converter_chain_outcome model raw_text (calls w)) as [v|e] eqn:Hout.
    + injection Hrun as <- <-. eexists [_].
      split; [reflexivity|]. split; [cbn; lia|].
      split; [repeat constructor|].
      split; [reflexivity|]. split; [intros i Hi; cbn in Hi; lia|].
      right. cbn. split; [reflexivity|]. split; [lia|].
      now rewrite Nat.add_0_r.
    + unfold mbind at 1 in Hrun. cbn [print calls trace] in Hrun.
      destruct (Z.eqb_spec attempt max_retries) as [Hlast|Hmore].
      * assert (n = 0%nat) by lia. subst n.
        cbn in Hrun. injection Hrun as <- <-.
        eexists [_; _]. split; [cbn; now rewrite <- app_assoc|].
        split; [cbn; lia|].
        split; [repeat constructor; apply loop_event_printed|].
        cbn. repeat split.
        -- intros i Hi. assert (i = 0%nat) by lia. subst i.
           rewrite Nat.add_0_r. now exists e.
        -- replace (calls w + 1 - 1)%nat with (calls w) by lia. exact Hout.
      * unfold mbind at 1 in Hrun. cbn [sleep calls trace] in Hrun.
        apply IH in Hrun; [|lia].
        destruct Hrun as (added & Htr & Hcalls & Hev & Hres).
        cbn [calls trace] in Htr, Hcalls, Hres.
        exists ([Invoked (converter_prompt_before ++ raw_text ++ converter_prompt_after);
                 Printed (attempt_failed attempt e); Slept 1] ++ added).
        split; [rewrite Htr; now repeat rewrite <- app_assoc|].
        split; [rewrite invocations_app; cbn; lia|].
        split.
        { apply Forall_app. split; [|exact Hev].
          repeat constructor. apply loop_event_printed. }
        rewrite invocations_app, prints_app, sleeps_app.
        change (invocations [Invoked (converter_prompt_before ++ raw_text ++ converter_prompt_after);
                 Printed (attempt_failed attempt e); Slept 1]) with 1%nat.
        change (prints [Invoked (converter_prompt_before ++ raw_text ++ converter_prompt_after);
                 Printed (attempt_failed attempt e); Slept 1]) with 1%nat.
        change (sleeps [Invoked (converter_prompt_before ++ raw_text ++ converter_prompt_after);
                 Printed (attempt_failed attempt e); Slept 1]) with 1%nat.
        destruct r as [v|e2].
        -- destruct Hres as (Hps & Hfail & Hcase).
           split; [lia|]. split.
           ++ intros i Hi. destruct i as [|i].
              ** rewrite Nat.add_0_r. now exists e.
              ** replace (calls w + S i)%nat with (S (calls w) + i)%nat by lia.
                 apply Hfail. lia.
           ++ right. destruct Hcase as [(Hn0 & _)|(Hinv & Hlt & Hv)]; [lia|].
              split; [lia|]. split; [lia|].
              replace (calls w + (1 + prints added))%nat
                with (S (calls w) + prints added)%nat by lia.
              exact Hv.
        -- destruct Hres as (Hinv & Hp & Hs & Hfail & Hlastrun).
           split; [lia|]. split; [lia|]. split; [lia|]. split.
           ++ intros i Hi. destruct i as [|i].
              ** rewrite Nat.add_0_r. now exists e.
              ** replace (calls w + S i)%nat with (S (calls w) + i)%nat by lia.
                 apply Hfail. lia.
           ++ replace (calls w + S n - 1)%nat with (S (calls w) + n - 1)%nat by lia.
              exact Hlastrun.
Qed.

(** The loop of app.py, whatever the model does.  An iteration whose first
    run fails with a [ValueError] runs the chain a second time; a failure of
    that second run is not printed. *)
Lemma app_attempts_trace (model : ChatHuggingFace) (raw_text : str)
    (max_retries : Z) :
  forall (n : nat) (attempt : Z) (w : world) (r : result value) (w' : world),
    (attempt + Z.of_nat n = max_retries + 1)%Z ->
    app.attempts model langchain.parse app.prompt_template raw_text
      max_retries n attempt w = (r, w') ->
    exists added,
      trace w' = trace w ++ added
      /\ calls w' = (calls w + invocations added)%nat
      /\ Forall (loop_event (app_prompt_before ++ raw_text ++ app_prompt_after)) added
      /\ (invocations added <= 2 * n)%nat
      /\ match r with
         | Return v =>
             (sleeps added <= prints added <= S (sleeps added))%nat
             /\ (forall i, (i + 1 < invocations added)%nat ->
                   exists e, app_chain_outcome model raw_text (calls w + i) = Raise e)
             /\ ((n = 0%nat /\ v = PyNone /\ added = [])
                 \/ ((sleeps added < n)%nat
                     /\ (0 < invocations added)%nat
                     /\ app_chain_outcome model raw_text (calls w + invocations added - 1)
                        = Return v))
         | Raise e =>
             prints added = n /\ S (sleeps added) = n
             /\ (n <= invocations added)%nat
             /\ (forall i, (i < invocations added)%nat ->
                   exists e', app_chain_outcome model raw_text (calls w + i) = Raise e')
             /\ app_chain_outcome model raw_text (calls w + invocations added - 1) = Raise e
         end.
Proof.
  set (p := app_prompt_before ++ raw_text ++ app_prompt_after).
  induction n as [|n IH]; intros attempt w r w' Hn Hrun.
  - cbn in Hrun. injection Hrun as <- <-. exists [].
    split; [now rewrite app_nil_r|]. split; [cbn; lia|]. split; [constructor|].
    split; [cbn; lia|].
    split; [cbn; lia|]. split; [intros i Hi; cbn in Hi; lia|]. left. auto.
  - cbn [app.attempts] in Hrun. unfold try_except at 1 in Hrun.
    rewrite app_run_chain_step in Hrun. fold p in Hrun.
    destruct (app_chain_outcome model raw_text (calls w)) as [v|e] eqn:Hout.
    { injection Hrun as <- <-. exists [Invoked p].
      split; [reflexivity|]. split; [cbn; lia|].
      split; [repeat constructor|]. split; [cbn; lia|].
      split; [cbn; lia|]. split; [intros i Hi; cbn in Hi; lia|].
      right. cbn. split; [lia|]. split; [lia|].
      replace (calls w + 1 - 1)%nat with (calls w) by lia. exact Hout. }
    destruct (is_ValueError e) eqn:Hve.
    + unfold mbind at 1 in Hrun. cbn [print calls trace] in Hrun.
      unfold try_except at 1 in Hrun.
      rewrite app_run_chain_step in Hrun. fold p in Hrun. cbn [calls trace] in Hrun.
      destruct (app_chain_outcome model raw_text (S (calls w))) as [v2|e2] eqn:Hout2.
      { injection Hrun as <- <-.
        exists [Invoked p; Printed (attempt_failed attempt e); Invoked p].
        split; [now repeat rewrite <- app_assoc|]. split; [cbn; lia|].
        split; [repeat constructor; apply loop_event_printed|].
        split; [cbn; lia|].
        split; [cbn; lia|]. split.
        - intros i Hi. cbn in Hi. assert (i = 0%nat) by lia. subst i.
          rewrite Nat.add_0_r. now exists e.
        - right. cbn. split; [lia|]. split; [lia|].
          replace (calls w + 2 - 1)%nat with (S (calls w)) by lia. exact Hout2. }
      destruct (Z.eqb_spec attempt max_retries) as [Hlast|Hmore].
      * assert (n = 0%nat) by lia. subst n.
        cbn in Hrun. injection Hrun as <- <-.
        exists [Invoked p; Printed (attempt_failed attempt e); Invoked p].
        split; [now repeat rewrite <- app_assoc|]. split; [cbn; lia|].
        split; [repeat constructor; apply loop_event_printed|].
        split; [cbn; lia|]. cbn. repeat split; try lia.
        -- intros i Hi. destruct i as [|[|i]]; [| |lia].
           ++ rewrite Nat.add_0_r. now exists e.
           ++ replace (calls w + 1)%nat with (S (calls w)) by lia. now exists e2.
        -- replace (calls w + 2 - 1)%nat with (S (calls w)) by lia. exact Hout2.
      * unfold mbind at 1 in Hrun. cbn [sleep calls trace] in Hrun.
        apply IH in Hrun; [|lia].
        destruct Hrun as (added & Htr & Hcalls & Hev & Hbound & Hres).
        cbn [calls trace] in Htr, Hcalls, Hres.
        exists ([Invoked p; Printed (attempt_failed attempt e); Invoked p; Slept 1] ++ added).
        split; [rewrite Htr; now repeat rewrite <- app_assoc|].
        split; [rewrite invocations_app; cbn; lia|].
        split.
        { apply Forall_app. split; [|exact Hev].
          repeat constructor. apply loop_event_printed. }
        rewrite invocations_app, prints_app, sleeps_app.
        change (invocations [Invoked p; Printed (attempt_failed attempt e); Invoked p; Slept 1])
          with 2%nat.
        change (prints [Invoked p; Printed (attempt_failed attempt e); Invoked p; Slept 1])
          with 1%nat.
        change (sleeps [Invoked p; Printed (attempt_failed attempt e); Invoked p; Slept 1])
          with 1%nat.
        split; [lia|].
        assert (Hfirst : forall i, (i < 2)%nat ->
                   exists e', app_chain_outcome model raw_text (calls w + i) = Raise e').
        { intros i Hi. destruct i as [|[|i]]; [| |lia].
          - rewrite Nat.add_0_r. now exists e.
          - replace (calls w + 1)%nat with (S (calls w)) by lia. now exists e2. }
        destruct r as [v|e3].
        -- destruct Hres as (Hps & Hfail & Hcase).
           split; [lia|]. split.
           ++ intros i Hi. destruct (Nat.lt_ge_cases i 2) as [Hi2|Hi2]; [now apply Hfirst|].
              replace (calls w + i)%nat with (S (S (calls w)) + (i - 2))%nat by lia.
              apply Hfail. lia.
           ++ right. destruct Hcase as [(Hn0 & _)|(Hlt & Hpos & Hv)]; [lia|].
              split; [lia|]. split; [lia|].
              replace (calls w + (2 + invocations added) - 1)%nat
                with (S (S (calls w)) + invocations added - 1)%nat by lia.
              exact Hv.
        -- destruct Hres as (Hp & Hs & Hinv & Hfail & Hlastrun).
           split; [lia|]. split; [lia|]. split; [lia|]. split.
           ++ intros i Hi. destruct (Nat.lt_ge_cases i 2) as [Hi2|Hi2]; [now apply Hfirst|].
              replace (calls w + i)%nat with (S (S (calls w)) + (i - 2))%nat by lia.
              apply Hfail. lia.
           ++ replace (calls w + (2 + invocations added) - 1)%nat
                with (S (S (calls w)) + invocations added - 1)%nat by lia.
              exact Hlastrun.
    + unfold mbind at 1 in Hrun. cbn [print calls trace] in Hrun.
      destruct (Z.eqb_spec attempt max_retries) as [Hlast|Hmore].
      * assert (n = 0%nat) by lia. subst n.
        cbn in Hrun. injection Hrun as <- <-.
        exists [Invoked p; Printed (attempt_failed attempt e)].
        split; [now repeat rewrite <- app_assoc|]. split; [cbn; lia|].
        split; [repeat constructor; apply loop_event_printed|].
        split; [cbn; lia|]. cbn. repeat split; try lia.
        -- intros i Hi. assert (i = 0%nat) by lia. subst i.
           rewrite Nat.add_0_r. now exists e.
        -- replace (calls w + 1 - 1)%nat with (calls w) by lia. exact Hout.
      * unfold mbind at 1 in Hrun. cbn [sleep calls trace] in Hrun.
        apply IH in Hrun; [|lia].
        destruct Hrun as (added & Htr & Hcalls & Hev & Hbound & Hres).
        cbn [calls trace] in Htr, Hcalls, Hres.
        exists ([Invoked p; Printed (attempt_failed attempt e); Slept 1] ++ added).
        split; [rewrite Htr; now repeat rewrite <- app_assoc|].
        split; [rewrite invocations_app; cbn; lia|].
        split.
        { apply Forall_app. split; [|exact Hev].
          repeat constructor. apply loop_event_printed. }
        rewrite invocations_app, prints_app, sleeps_app.
        change (invocations [Invoked p; Printed (attempt_failed attempt e); Slept 1])
          with 1%nat.
        change (prints [Invoked p; Printed (attempt_failed attempt e); Slept 1])
          with 1%nat.
        change (sleeps [Invoked p; Printed (attempt_failed attempt e); Slept 1])
          with 1%nat.
        split; [lia|].
        destruct r as [v|e3].
        -- destruct Hres as (Hps & Hfail & Hcase).
           split; [lia|]. split.
           ++ intros i Hi. destruct i as [|i].
              ** rewrite Nat.add_0_r. now exists e.
              ** replace (calls w + S i)%nat with (S (calls w) + i)%nat by lia.
                 apply Hfail. lia.
           ++ right. destruct Hcase as [(Hn0 & _)|(Hlt & Hpos & Hv)]; [lia|].
              split; [lia|]. split; [lia|].
              replace (calls w + (1 + invocations added) - 1)%nat
                with (S (calls w) + invocations added - 1)%nat by lia.
              exact Hv.
        -- destruct Hres as (Hp & Hs & Hinv & Hfail & Hlastrun).
           split; [lia|]. split; [lia|]. split; [lia|]. split.
           ++ intros i Hi. destruct i as [|i].
              ** rewrite Nat.add_0_r. now exists e.
              ** replace (calls w + S i)%nat with (S (calls w) + i)%nat by lia.
                 apply Hfail. lia.
           ++ replace (calls w + (1 + invocations added) - 1)%nat
                with (S (calls w) + invocations added - 1)%nat by lia.
              exact Hlastrun.
Qed.

Lemma converter_attempts_none (model : ChatHuggingFace) (parser : str -> result value)
    (template : langchain.PromptTemplate) (raw_text : str) (max_retries : Z) (w : world) :
  (max_retries < 0)%Z ->
  converter.attempts model parser template raw_text max_retries
    (Z.to_nat (max_retries + 1)) 0%Z w = (Return PyNone, w).
Proof.
  intros H. replace (Z.to_nat (max_retries + 1)) with 0%nat by lia. reflexivity.
Qed.

Lemma app_attempts_none (model : ChatHuggingFace) (parser : str -> result value)
    (template : langchain.PromptTemplate) (raw_text : str) (max_retries : Z) (w : world) :
  (max_retries < 0)%Z ->
  app.attempts model parser template raw_text max_retries
    (Z.to_nat (max_retries + 1)) 0%Z w = (Return PyNone, w).
Proof.
  intros H. replace (Z.to_nat (max_retries + 1)) with 0%nat by lia. reflexivity.
Qed.

(** What a successful run of the chain returns has passed [validate_json]. *)
Lemma converter_chain_outcome_validated (model : ChatHuggingFace) (raw_text : str)
    (i : nat) (v : value) :
  converter_chain_outcome model raw_text i = Return v ->
  exists data, converter.validate_json (json.dumps data) = Return v.
Proof.
  unfold converter_chain_outcome, converter.run_chain, chain_invoke, mbind, lift, invoke.
  rewrite converter_format_prompt. cbn [calls fst].
  destruct (model i _) as [r|e]; [|discriminate].
  cbn [fst snd].
  destruct (match langchain.parse (text_of r) with
            | Return data => Return data
            | Raise _ => json.loads true (text_of r)
            end) as [data|e]; [|discriminate].
  cbn [fst]. intros H. now exists data.
Qed.

Lemma app_chain_outcome_validated (model : ChatHuggingFace) (raw_text : str)
    (i : nat) (v : value) :
  app_chain_outcome model raw_text i = Return v ->
  exists data, app.validate_json (json.dumps data) = Return v.
Proof.
  unfold app_chain_outcome, app.run_chain, chain_invoke, mbind, lift, invoke.
  rewrite app_format_prompt. cbn [calls fst].
  destruct (model i _) as [r|e]; [|discriminate].
  cbn [fst snd]. unfold app.normalize.
  destruct (match langchain.parse (text_of r) with
            | Return data => Return data
            | Raise _ => json.loads true (text_of r)
            end) as [data|e]; [|discriminate].
  cbn [bind]. intros H. now exists data.
Qed.

(** X5. When [convert_text_to_json] of converter.py returns, with
    [max_retries] at least 0, it returns the result of the last run of the
    chain it made; every run before that one failed, each failure was
    printed and followed by one sleep, and no more than [max_retries + 1]
    runs were made. *)
Theorem converter_returns_first_success (endpoint : str -> ChatHuggingFace)
    (raw_text repo_id : str) (max_retries : Z) (w w' : world) (v : value) :
  (0 <= max_retries)%Z ->
  converter.convert_text_to_json endpoint raw_text repo_id max_retries w = (Return v, w') ->
  (calls w < calls w' <= calls w + Z.to_nat (max_retries + 1))%nat
  /\ converter_chain_outcome (endpoint repo_id) raw_text (calls w' - 1) = Return v
  /\ (forall i, (calls w <= i < calls w' - 1)%nat ->
        exists e, converter_chain_outcome (endpoint repo_id) raw_text i = Raise e)
  /\ (prints (trace w') + calls w + 1 = prints (trace w) + calls w')%nat
  /\ (sleeps (trace w') + calls w + 1 = sleeps (trace w) + calls w')%nat.
Proof.
  intros Hmax Hrun. rewrite converter_convert_unfold in Hrun.
  apply converter_attempts_trace in Hrun; [|lia].
  destruct Hrun as (added & Htr & Hcalls & _ & Hps & Hfail & Hcase).
  destruct Hcase as [(Hn0 & _)|(Hinv & Hlt & Hv)]; [lia|].
  rewrite Htr, prints_app, sleeps_app.
  split; [lia|]. split.
  - replace (calls w' - 1)%nat with (calls w + prints added)%nat by lia. exact Hv.
  - split; [|lia].
    intros i Hi. replace i with (calls w + (i - calls w))%nat by lia.
    apply Hfail. lia.
Qed.

Lemma converter_returns_first_success_witness :
  let endpoint : str -> ChatHuggingFace :=
    fun _ i _ =>
      match i with
      | O => raise (OtherException (u "TimeoutError")) (u "timed out")
      | S _ => Return (AIMessage (u "{\x22date\x22: 1, \x22branding_priorities\x22: 2, \x22cleaning_slots\x22: 3, \x22stabling_geometry\x22: 4, \x22fitness_certificates\x22: 5, \x22job_card_status\x22: 6, \x22mileage\x22: 7}"))
      end in
  let w := mkWorld 0 [] in
  let out := converter.convert_text_to_json endpoint (u "notes") REPO_ID 2 w in
  (calls w < calls (snd out) <= calls w + Z.to_nat (2 + 1))%nat
  /\ (exists v, fst out = Return v
        /\ converter_chain_outcome (endpoint REPO_ID) (u "notes") (calls (snd out) - 1)
           = Return v)
  /\ (forall i, (calls w <= i < calls (snd out) - 1)%nat ->
        exists e, converter_chain_outcome (endpoint REPO_ID) (u "notes") i = Raise e)
  /\ (prints (trace (snd out)) + calls w + 1 = prints (trace w) + calls (snd out))%nat
  /\ (sleeps (trace (snd out)) + calls w + 1 = sleeps (trace w) + calls (snd out))%nat.
Proof.
  intros endpoint w out.
  destruct (fst out) as [v|e] eqn:Hfst; [|vm_compute in Hfst; discriminate Hfst].
  destruct (converter_returns_first_success endpoint (u "notes") REPO_ID 2 w (snd out) v)
    as (H1 & H2 & H3 & H4 & H5).
  - lia.
  - rewrite <- Hfst. subst out. now destruct (converter.convert_text_to_json _ _ _ _ _).
  - split; [exact H1|]. split; [exists v; split; [reflexivity | exact H2]|].
    split; [exact H3|]. split; [exact H4 | exact H5].
Defined.

(** X6. When [convert_text_to_json] of app.py returns, with [max_retries]
    at least 0, it returns the result of the last run of the chain it made
    and every run before that one failed.  It made at most
    [2 * (max_retries + 1)] runs, slept fewer than [max_retries + 1] times,
    and printed as many lines as it slept or one more: the failure that
    starts the second run of an iteration is printed, a failure of the
    second run is not. *)
Theorem app_returns_first_success (endpoint : str -> ChatHuggingFace)
    (raw_text repo_id : str) (max_retries : Z) (w w' : world) (v : value) :
  (0 <= max_retries)%Z ->
  app.convert_text_to_json endpoint raw_text repo_id max_retries w = (Return v, w') ->
  (calls w < calls w' <= calls w + 2 * Z.to_nat (max_retries + 1))%nat
  /\ app_chain_outcome (endpoint repo_id) raw_text (calls w' - 1) = Return v
  /\ (forall i, (calls w <= i < calls w' - 1)%nat ->
        exists e, app_chain_outcome (endpoint repo_id) raw_text i = Raise e)
  /\ (sleeps (trace w') < sleeps (trace w) + Z.to_nat (max_retries + 1))%nat
  /\ (sleeps (trace w') + prints (trace w) <= prints (trace w') + sleeps (trace w)
      <= S (sleeps (trace w') + prints (trace w)))%nat.
Proof.
  intros Hmax Hrun. rewrite app_convert_unfold in Hrun.
  apply app_attempts_trace in Hrun; [|lia].
  destruct Hrun as (added & Htr & Hcalls & _ & Hbound & Hps & Hfail & Hcase).
  destruct Hcase as [(Hn0 & _)|(Hlt & Hpos & Hv)]; [lia|].
  rewrite Htr, prints_app, sleeps_app.
  split; [lia|]. split.
  - replace (calls w' - 1)%nat with (calls w + invocations added - 1)%nat by lia. exact Hv.
  - split; [|lia].
    intros i Hi. replace i with (calls w + (i - calls w))%nat by lia.
    apply Hfail. lia.
Qed.

Lemma app_returns_first_success_witness :
  let endpoint : str -> ChatHuggingFace :=
    fun _ i _ =>
      match i with
      | O => Return (AIMessage (u "I cannot process this request."))
      | S _ => Return (AIMessage (u "{\x22date\x22: \x221 nov\x22}"))
      end in
  let w := mkWorld 0 [] in
  let out := app.convert_text_to_json endpoint (u "notes") REPO_ID 2 w in
  (calls w < calls (snd out) <= calls w + 2 * Z.to_nat (2 + 1))%nat
  /\ (exists v, fst out = Return v
        /\ app_chain_outcome (endpoint REPO_ID) (u "notes") (calls (snd out) - 1) = Return v)
  /\ (forall i, (calls w <= i < calls (snd out) - 1)%nat ->
        exists e, app_chain_outcome (endpoint REPO_ID) (u "notes") i = Raise e)
  /\ (sleeps (trace (snd out)) < sleeps (trace w) + Z.to_nat (2 + 1))%nat
  /\ (sleeps (trace (snd out)) + prints (trace w)
      <= prints (trace (snd out)) + sleeps (trace w)
      <= S (sleeps (trace (snd out)) + prints (trace w)))%nat.
Proof.
  intros endpoint w out.
  destruct (fst out) as [v|e] eqn:Hfst; [|vm_compute in Hfst; discriminate Hfst].
  destruct (app_returns_first_success endpoint (u "notes") REPO_ID 2 w (snd out) v)
    as (H1 & H2 & H3 & H4 & H5).
  - lia.
  - rewrite <- Hfst. subst out. now destruct (app.convert_text_to_json _ _ _ _ _).
  - split; [exact H1|]. split; [exists v; split; [reflexivity | exact H2]|].
    split; [exact H3|]. split; [exact H4 | exact H5].
Defined.

(** X7. Whatever the model does and whatever [max_retries] is, a conversion
    keeps the trace it found and appends to it nothing but calls of the
    model with the one prompt built from the raw text (the format
    instructions are never sent), lines that report a failed attempt, and
    sleeps of one second; converter.py makes at most [max_retries + 1]
    calls, app.py at most twice as many. *)
Theorem conversion_trace_discipline (endpoint : str -> ChatHuggingFace)
    (raw_text repo_id : str) (max_retries : Z) (w : world) :
  (exists added,
      trace (snd (converter.convert_text_to_json endpoint raw_text repo_id max_retries w))
      = trace w ++ added
      /\ calls (snd (converter.convert_text_to_json endpoint raw_text repo_id max_retries w))
         = (calls w + invocations added)%nat
      /\ Forall (loop_event (converter_prompt_before ++ raw_text
                             ++ converter_prompt_after)) added
      /\ (invocations added <= Z.to_nat (max_retries + 1))%nat)
  /\ (exists added,
        trace (snd (app.convert_text_to_json endpoint raw_text repo_id max_retries w))
        = trace w ++ added
        /\ calls (snd (app.convert_text_to_json endpoint raw_text repo_id max_retries w))
           = (calls w + invocations added)%nat
        /\ Forall (loop_event (app_prompt_before ++ raw_text ++ app_prompt_after)) added
        /\ (invocations added <= 2 * Z.to_nat (max_retries + 1))%nat).
Proof.
  split.
  - rewrite converter_convert_unfold.
    destruct (Z.ltb_spec max_retries 0) as [Hneg|Hpos].
    + rewrite converter_attempts_none by exact Hneg. exists [].
      cbn. rewrite app_nil_r. repeat split; [lia | constructor | lia].
    + destruct (converter.attempts _ _ _ _ _ _ _ w) as [r w'] eqn:Hrun.
      apply converter_attempts_trace in Hrun; [|lia].
      destruct Hrun as (added & Htr & Hcalls & Hev & Hres).
      exists added. cbn [snd]. split; [exact Htr|]. split; [exact Hcalls|].
      split; [exact Hev|].
      destruct r as [v|e].
      * destruct Hres as (_ & _ & [(_ & _ & ->)|(Hinv & Hlt & _)]); [cbn; lia | lia].
      * destruct Hres as (Hinv & _). lia.
  - rewrite app_convert_unfold.
    destruct (Z.ltb_spec max_retries 0) as [Hneg|Hpos].
    + rewrite app_attempts_none by exact Hneg. exists [].
      cbn. rewrite app_nil_r. repeat split; [lia | constructor | lia].
    + destruct (app.attempts _ _ _ _ _ _ _ w) as [r w'] eqn:Hrun.
      apply app_attempts_trace in Hrun; [|lia].
      destruct Hrun as (added & Htr & Hcalls & Hev & Hbound & _).
      exists added. cbn [snd]. auto.
Qed.

(** X8. When a conversion gives up, that is, when [convert_text_to_json]
    raises, it has gone through all [max_retries + 1] iterations: it has
    printed exactly [max_retries + 1] lines and slept exactly [max_retries]
    times, in converter.py and in app.py alike, every run of the chain it
    made has failed, and the exception raised is that of the last run. *)
Theorem conversion_gives_up (endpoint : str -> ChatHuggingFace)
    (raw_text repo_id : str) (max_retries : Z) (w w' : world) (e : exn) :
  (converter.convert_text_to_json endpoint raw_text repo_id max_retries w = (Raise e, w') ->
   Z.of_nat (prints (trace w')) = (Z.of_nat (prints (trace w)) + max_retries + 1)%Z
   /\ Z.of_nat (sleeps (trace w')) = (Z.of_nat (sleeps (trace w)) + max_retries)%Z
   /\ (forall i, (calls w <= i < calls w')%nat ->
         exists e', converter_chain_outcome (endpoint repo_id) raw_text i = Raise e')
   /\ converter_chain_outcome (endpoint repo_id) raw_text (calls w' - 1) = Raise e)
  /\ (app.convert_text_to_json endpoint raw_text repo_id max_retries w = (Raise e, w') ->
      Z.of_nat (prints (trace w')) = (Z.of_nat (prints (trace w)) + max_retries + 1)%Z
      /\ Z.of_nat (sleeps (trace w')) = (Z.of_nat (sleeps (trace w)) + max_retries)%Z
      /\ (forall i, (calls w <= i < calls w')%nat ->
            exists e', app_chain_outcome (endpoint repo_id) raw_text i = Raise e')
      /\ app_chain_outcome (endpoint repo_id) raw_text (calls w' - 1) = Raise e).
Proof.
  split; intros Hrun.
  - rewrite converter_convert_unfold in Hrun.
    destruct (Z.ltb_spec max_retries 0) as [Hneg|Hpos];
      [rewrite converter_attempts_none in Hrun by exact Hneg; discriminate Hrun|].
    apply converter_attempts_trace in Hrun; [|lia].
    destruct Hrun as (added & Htr & Hcalls & _ & Hinv & Hp & Hs & Hfail & Hlast).
    rewrite Htr, prints_app, sleeps_app.
    split; [lia|]. split; [lia|]. split.
    + intros i Hi. replace i with (calls w + (i - calls w))%nat by lia.
      apply Hfail. lia.
    + replace (calls w' - 1)%nat with (calls w + Z.to_nat (max_retries + 1) - 1)%nat by lia.
      exact Hlast.
  - rewrite app_convert_unfold in Hrun.
    destruct (Z.ltb_spec max_retries 0) as [Hneg|Hpos];
      [rewrite app_attempts_none in Hrun by exact Hneg; discriminate Hrun|].
    apply app_attempts_trace in Hrun; [|lia].
    destruct Hrun as (added & Htr & Hcalls & _ & _ & Hp & Hs & Hinv & Hfail & Hlast).
    rewrite Htr, prints_app, sleeps_app.
    split; [lia|]. split; [lia|]. split.
    + intros i Hi. replace i with (calls w + (i - calls w))%nat by lia.
      apply Hfail. lia.
    + replace (calls w' - 1)%nat with (calls w + invocations added - 1)%nat by lia.
      exact Hlast.
Qed.

Lemma conversion_gives_up_witness :
  let endpoint : str -> ChatHuggingFace :=
    fun _ _ _ => raise (OtherException (u "TimeoutError")) (u "timed out") in
  let e := mkExn (OtherException (u "TimeoutError")) (u "timed out") in
  let w := mkWorld 0 [] in
  let w1 := snd (converter.convert_text_to_json endpoint (u "notes") REPO_ID 2 w) in
  let w2 := snd (app.convert_text_to_json endpoint (u "notes") REPO_ID 2 w) in
  (Z.of_nat (prints (trace w1)) = (Z.of_nat (prints (trace w)) + 2 + 1)%Z
   /\ Z.of_nat (sleeps (trace w1)) = (Z.of_nat (sleeps (trace w)) + 2)%Z
   /\ (forall i, (calls w <= i < calls w1)%nat ->
         exists e', converter_chain_outcome (endpoint REPO_ID) (u "notes") i = Raise e')
   /\ converter_chain_outcome (endpoint REPO_ID) (u "notes") (calls w1 - 1) = Raise e)
  /\ (Z.of_nat (prints (trace w2)) = (Z.of_nat (prints (trace w)) + 2 + 1)%Z
      /\ Z.of_nat (sleeps (trace w2)) = (Z.of_nat (sleeps (trace w)) + 2)%Z
      /\ (forall i, (calls w <= i < calls w2)%nat ->
            exists e', app_chain_outcome (endpoint REPO_ID) (u "notes") i = Raise e')
      /\ app_chain_outcome (endpoint REPO_ID) (u "notes") (calls w2 - 1) = Raise e).
Proof.
  intros endpoint e w w1 w2. split.
  - apply (proj1 (conversion_gives_up endpoint (u "notes") REPO_ID 2 w w1 e)).
    vm_compute. reflexivity.
  - apply (proj2 (conversion_gives_up endpoint (u "notes") REPO_ID 2 w w2 e)).
    vm_compute. reflexivity.
Defined.

(** X9. With a negative [max_retries] the loop body never runs: both
    [convert_text_to_json] functions return [None] without calling the
    model, printing or sleeping. *)
Theorem negative_max_retries (endpoint : str -> ChatHuggingFace)
    (raw_text repo_id : str) (max_retries : Z) (w : world) :
  (max_retries < 0)%Z ->
  converter.convert_text_to_json endpoint raw_text repo_id max_retries w = (Return PyNone, w)
  /\ app.convert_text_to_json endpoint raw_text repo_id max_retries w = (Return PyNone, w).
Proof.
  intros H. rewrite converter_convert_unfold, app_convert_unfold.
  split; [now apply converter_attempts_none | now apply app_attempts_none].
Qed.

Lemma negative_max_retries_witness :
  let endpoint : str -> ChatHuggingFace := fun _ _ _ => Return (AIMessage (u "{}")) in
  converter.convert_text_to_json endpoint (u "notes") REPO_ID (-3) (mkWorld 4 [Slept 1])
  = (Return PyNone, mkWorld 4 [Slept 1])
  /\ app.convert_text_to_json endpoint (u "notes") REPO_ID (-3) (mkWorld 4 [Slept 1])
     = (Return PyNone, mkWorld 4 [Slept 1]).
Proof.
  intros endpoint.
  apply (negative_max_retries endpoint (u "notes") REPO_ID (-3) (mkWorld 4 [Slept 1])).
  lia.
Defined.

(** X10. With [max_retries] at least 0, a value that [convert_text_to_json]
    returns, in either module, has passed [validate_json]: each of the seven
    required keys is [in] it, and it is never the [None] of a loop that ran
    out. *)
Theorem converted_value_holds_keys (endpoint : str -> ChatHuggingFace)
    (raw_text repo_id : str) (max_retries : Z) (w w' : world) (v : value) :
  (0 <= max_retries)%Z ->
  converter.convert_text_to_json endpoint raw_text repo_id max_retries w = (Return v, w')
  \/ app.convert_text_to_json endpoint raw_text repo_id max_retries w = (Return v, w') ->
  (forall k, In k required_keys -> has_key v k) /\ v <> PyNone.
Proof.
  intros Hmax Hrun.
  assert (Hkeys : forall k, In k required_keys -> has_key v k).
  { destruct Hrun as [Hrun|Hrun].
    - rewrite converter_convert_unfold in Hrun.
      apply converter_attempts_trace in Hrun; [|lia].
      destruct Hrun as (added & _ & _ & _ & _ & _ & [(Hn0 & _)|(_ & _ & Hv)]); [lia|].
      apply converter_chain_outcome_validated in Hv. destruct Hv as [data Hv].
      now apply converter_validate_json_inv in Hv.
    - rewrite app_convert_unfold in Hrun.
      apply app_attempts_trace in Hrun; [|lia].
      destruct Hrun as (added & _ & _ & _ & _ & _ & _ & [(Hn0 & _)|(_ & _ & Hv)]); [lia|].
      apply app_chain_outcome_validated in Hv. destruct Hv as [data Hv].
      now apply (app_validate_json_has_keys _ _ Hv). }
  split; [exact Hkeys|].
  intros ->. specialize (Hkeys (u "date") (or_introl eq_refl)). discriminate Hkeys.
Qed.

Lemma converted_value_holds_keys_witness :
  let endpoint : str -> ChatHuggingFace :=
    fun _ _ _ => Return (AIMessage (u "{\x22date\x22: \x221 nov\x22}")) in
  let v := PyDict [(u "date", PyStr (u "1 nov"));
                   (u "branding_priorities", PyStr (u "Not specified"));
                   (u "cleaning_slots", PyStr (u "Not specified"));
                   (u "stabling_geometry", PyStr (u "Not specified"));
                   (u "fitness_certificates", PyStr (u "Not specified"));
                   (u "job_card_status", PyStr (u "Not specified"));
                   (u "mileage", PyStr (u "Not specified"))] in
  (forall k, In k required_keys -> has_key v k) /\ v <> PyNone.
Proof.
  intros endpoint v.
  apply (converted_value_holds_keys endpoint (u "notes") REPO_ID 2 (mkWorld 0 [])
           (mkWorld 1 [Invoked (app_prompt_before ++ u "notes" ++ app_prompt_after)]) v).
  - lia.
  - right. vm_compute. reflexivity.
Defined.

(** ** The HTTP boundary *)

Lemma decode_utf8_raises (n : nat) :
  forall (bytes : list N) (e : exn),
    (List.length bytes <= n)%nat ->
    app.decode_utf8 bytes = Raise e -> exn_cls e = UnicodeDecodeError.
Proof.
  induction n as [|n IH]; intros bytes e Hn H.
  - destruct bytes; [discriminate H | simpl in Hn; lia].
  - destruct bytes as [|b0 r]; [discriminate H|].
    cbn [app.decode_utf8] in H.
    repeat match type of H with
    | Return _ = Raise _ => discriminate H
    | app.decode_error_utf8 = Raise _ => inversion H; reflexivity
    | app.cons_decoded _ (app.decode_utf8 ?x) = Raise _ =>
        let E := fresh "E" in
        destruct (app.decode_utf8 x) as [s0|e0] eqn:E;
        [ discriminate H
        | apply IH in E; [| simpl in *; lia];
          cbn in H; inversion H; subst; exact E ]
    | _ => break_match_in H
    end.
Qed.

Lemma convert_file_empty_run (endpoint : str -> ChatHuggingFace)
    (file : app.UploadFile) (text_content : str) (w : world) :
  endswith (u ".txt") (app.filename file) = true ->
  app.decode_utf8 (app.file_bytes file) = Return text_content ->
  strip text_content = [] ->
  app.convert_file endpoint file w
  = (Raise (mkExn (HTTPException 400) (u "File is empty")), w).
Proof.
  intros Hname Hdec Hblank. unfold app.convert_file, try_except.
  rewrite Hname. cbn [negb]. unfold mbind, lift. rewrite Hdec, Hblank. reflexivity.
Qed.

(** X11. An upload whose name ends in [.txt] and whose bytes are valid
    UTF-8 but hold nothing besides white space (an upload of no bytes
    included) is answered 400, [File is empty], without a call of the
    model. *)
Theorem convert_file_empty (endpoint : str -> ChatHuggingFace)
    (file : app.UploadFile) (text_content : str) (w : world) :
  endswith (u ".txt") (app.filename file) = true ->
  app.decode_utf8 (app.file_bytes file) = Return text_content ->
  strip text_content = [] ->
  app.convert_file endpoint file w
  = (Raise (mkExn (HTTPException 400) (u "File is empty")), w).
Proof. apply convert_file_empty_run. Qed.

Lemma convert_file_empty_witness :
  let endpoint : str -> ChatHuggingFace := fun _ _ _ => Return (AIMessage (u "{}")) in
  app.convert_file endpoint (app.mkUploadFile (u "notes.txt") (u " \n\t ")) (mkWorld 0 [])
  = (Raise (mkExn (HTTPException 400) (u "File is empty")), mkWorld 0 [])
  /\ app.convert_file endpoint (app.mkUploadFile (u ".txt") []) (mkWorld 0 [])
     = (Raise (mkExn (HTTPException 400) (u "File is empty")), mkWorld 0 []).
Proof.
  intros endpoint. split.
  - apply (convert_file_empty endpoint (app.mkUploadFile (u "notes.txt") (u " \n\t "))
             (u " \n\t ")); reflexivity.
  - apply (convert_file_empty endpoint (app.mkUploadFile (u ".txt") []) []); reflexivity.
Defined.

(** X12. An upload whose name ends in [.txt] and whose bytes are not valid
    UTF-8 is answered 400 and not 500, because [UnicodeDecodeError] is a
    [ValueError]; the detail is [Conversion error: ] followed by the message
    of the decoding error, and the model is not called. *)
Theorem convert_file_not_utf8 (endpoint : str -> ChatHuggingFace)
    (file : app.UploadFile) (e : exn) (w : world) :
  endswith (u ".txt") (app.filename file) = true ->
  app.decode_utf8 (app.file_bytes file) = Raise e ->
  app.convert_file endpoint file w
  = (Raise (mkExn (HTTPException 400) (u "Conversion error: " ++ exn_msg e)), w).
Proof.
  intros Hname Hdec. unfold app.convert_file, try_except.
  rewrite Hname. cbn [negb]. unfold mbind, lift. rewrite Hdec.
  apply (decode_utf8_raises _ _ _ (le_n _)) in Hdec.
  unfold app.http_handlers, is_HTTPException, is_ValueError. rewrite Hdec. reflexivity.
Qed.

Lemma convert_file_not_utf8_witness :
  let endpoint : str -> ChatHuggingFace := fun _ _ _ => Return (AIMessage (u "{}")) in
  app.http_status
    (fst (app.convert_file endpoint (app.mkUploadFile (u "notes.txt") [104; 105; 255])
            (mkWorld 0 []))) = 400%Z
  /\ snd (app.convert_file endpoint (app.mkUploadFile (u "notes.txt") [104; 105; 255])
            (mkWorld 0 [])) = mkWorld 0 [].
Proof.
  intros endpoint.
  rewrite (convert_file_not_utf8 endpoint (app.mkUploadFile (u "notes.txt") [104; 105; 255])
             (mkExn UnicodeDecodeError (u "'utf-8' codec can't decode byte"))
             (mkWorld 0 []) eq_refl eq_refl).
  split; reflexivity.
Defined.

(** X13. A body whose [text] is not a string (a number, [null], a list, an
    object) is answered 500: [raw_text.strip()] raises an [AttributeError],
    which the last handler turns into a server error, and the model is not
    called. *)
Theorem convert_text_not_string (endpoint : str -> ChatHuggingFace)
    (request : dict) (v : value) (w : world) :
  dict_get (u "text") request = Some v ->
  (forall s, v <> PyStr s) ->
  app.convert_text endpoint request w
  = (Raise (mkExn (HTTPException 500)
              (u "Server error: " ++ u "'" ++ u (type_name v)
               ++ u "' object has no attribute 'strip'")), w).
Proof.
  intros Hget Hns. unfold app.convert_text, try_except. rewrite Hget.
  destruct v as [| b | z | f | s | l | d]; try reflexivity.
  now destruct (Hns s).
Qed.

Lemma convert_text_not_string_witness :
  let endpoint : str -> ChatHuggingFace := fun _ _ _ => Return (AIMessage (u "{}")) in
  app.convert_text endpoint [(u "text", PyInt 5)] (mkWorld 0 [])
  = (Raise (mkExn (HTTPException 500)
              (u "Server error: " ++ u "'" ++ u (type_name (PyInt 5))
               ++ u "' object has no attribute 'strip'")), mkWorld 0 []).
Proof.
  intros endpoint.
  apply (convert_text_not_string endpoint [(u "text", PyInt 5)] (PyInt 5) (mkWorld 0 [])).
  - reflexivity.
  - intros s H. discriminate H.
Defined.

(** *** What the lenient parser and the normalizer raise *)

Lemma is_JSONDecodeError_loads (strict : bool) (s : str) (e : exn) :
  json.loads strict s = Raise e -> langchain.is_JSONDecodeError e = true.
Proof.
  intros H. apply loads_raises in H. unfold langchain.is_JSONDecodeError. now rewrite H.
Qed.

Lemma try_prefixes_raises (strict : bool) (rev_chars : list str) (closing : str) (e : exn) :
  langchain.try_prefixes strict rev_chars closing = Some (Raise e) -> False.
Proof.
  induction rev_chars as [|c shorter IH]; cbn [langchain.try_prefixes]; [discriminate|].
  destruct (json.loads strict _) as [v|e0] eqn:E; [discriminate|].
  rewrite (is_JSONDecodeError_loads _ _ _ E). exact IH.
Qed.

Lemma parse_partial_json_raises (strict : bool) (s : str) (e : exn) :
  langchain.parse_partial_json strict s = Raise e -> exn_cls e = JSONDecodeError.
Proof.
  unfold langchain.parse_partial_json.
  destruct (json.loads strict s) as [v|e0] eqn:E; [discriminate|].
  rewrite (is_JSONDecodeError_loads _ _ _ E).
  destruct (langchain.scan_chars s [] [] false false) as [[[[nc st] ins] esc]|];
    [|discriminate].
  destruct (langchain.try_prefixes strict _ _) as [[v|e1]|] eqn:Et.
  - discriminate.
  - now apply try_prefixes_raises in Et.
  - intros H. injection H as <-. now apply loads_raises in E.
Qed.

Lemma parse_json_markdown_raises (s : str) (e : exn) :
  langchain.parse_json_markdown s = Raise e -> exn_cls e = JSONDecodeError.
Proof.
  unfold langchain.parse_json_markdown, langchain._parse_json.
  destruct (langchain.parse_partial_json false _) as [v|e0] eqn:E; [discriminate|].
  apply parse_partial_json_raises in E.
  unfold langchain.is_JSONDecodeError. rewrite E.
  apply parse_partial_json_raises.
Qed.

(** Without the limits of the interpreter, [JsonOutputParser.parse] raises
    nothing but [OutputParserException]. *)
Lemma parse_raises (text : str) (e : exn) :
  langchain.parse text = Raise e -> exn_cls e = OutputParserException.
Proof.
  unfold langchain.parse.
  destruct (langchain.parse_json_markdown (strip text)) as [v|e0] eqn:E; [discriminate|].
  apply parse_json_markdown_raises in E.
  unfold langchain.is_JSONDecodeError. rewrite E.
  intros H. injection H as <-. reflexivity.
Qed.

Lemma fill_missing_raises (keys : list str) (data : value) (e : exn) :
  app.fill_missing keys data = Raise e -> exn_cls e = TypeError.
Proof.
  revert data. induction keys as [|k rest IH]; intros data; cbn [app.fill_missing];
    [discriminate|].
  destruct data as [| b | z | f | s | l | d]; cbn [py_contains bind raise];
    try (intros H; injection H as <-; reflexivity).
  - destruct (contains k s); cbn [negb py_setitem bind raise].
    + apply IH.
    + intros H; injection H as <-; reflexivity.
  - destruct (existsb (eq_str k) l); cbn [negb py_setitem bind raise].
    + apply IH.
    + intros H; injection H as <-; reflexivity.
  - destruct (dict_contains k d); cbn [negb py_setitem bind]; apply IH.
Qed.

Lemma app_validate_json_raises (json_str : str) (e : exn) :
  app.validate_json json_str = Raise e ->
  exn_cls e = ValueError \/ exn_cls e = TypeError.
Proof.
  unfold app.validate_json.
  destruct (json.loads true json_str) as [data|e0].
  - intros H. right. now apply fill_missing_raises in H.
  - intros H. injection H as <-. now left.
Qed.

Lemma normalize_raises (text_out : str) (e : exn) :
  app.normalize langchain.parse text_out = Raise e ->
  exn_cls e = JSONDecodeError \/ exn_cls e = ValueError \/ exn_cls e = TypeError.
Proof.
  unfold app.normalize.
  destruct (langchain.parse text_out) as [data|e1].
  - cbn [bind]. intros H. right. now apply app_validate_json_raises in H.
  - destruct (json.loads true text_out) as [data|e2] eqn:E; cbn [bind].
    + intros H. right. now apply app_validate_json_raises in H.
    + intros H. injection H as <-. left. now apply loads_raises in E.
Qed.

(** A failed run of the chain of app.py: the model raised, or the
    normalizer did. *)
Lemma app_chain_outcome_raises (model : ChatHuggingFace) (raw_text : str)
    (i : nat) (e : exn) :
  app_chain_outcome model raw_text i = Raise e ->
  model i (app_prompt_before ++ raw_text ++ app_prompt_after) = Raise e
  \/ exn_cls e = JSONDecodeError \/ exn_cls e = ValueError \/ exn_cls e = TypeError.
Proof.
  unfold app_chain_outcome, app.run_chain, chain_invoke, mbind, lift, invoke.
  rewrite app_format_prompt. cbn [calls fst].
  destruct (model i _) as [r|e0]; cbn [fst snd].
  - intros H. right. now apply normalize_raises in H.
  - intros H. left. now injection H as <-.
Qed.

(** *** The rendering of the response *)

Lemma dumps_compact_list (l : list value) :
  json.dumps_compact (PyList l)
  = let? body := items_compact l in Return ([91] ++ body ++ [93]).
Proof. reflexivity. Qed.

Lemma dumps_compact_dict (d : list (str * value)) :
  json.dumps_compact (PyDict d)
  = let? body := members_compact d in Return ([123] ++ body ++ [125]).
Proof. reflexivity. Qed.

(** The compact encoder raises nothing but the [ValueError] of a float that
    is not finite. *)
Lemma dumps_compact_raises (v : value) (e : exn) :
  json.dumps_compact v = Raise e ->
  e = mkExn ValueError (u "Out of range float values are not JSON compliant").
Proof.
  revert e.
  induction v as [| b | z | f | s | l IH | d IH] using value_ind'; intros e.
  - discriminate.
  - destruct b; discriminate.
  - discriminate.
  - cbn [json.dumps_compact]. destruct (json.is_finite f); [discriminate|].
    intros H. now injection H as <-.
  - discriminate.
  - rewrite dumps_compact_list.
    assert (Hitems : forall e0, items_compact l = Raise e0 ->
              e0 = mkExn ValueError (u "Out of range float values are not JSON compliant")).
    { induction IH as [|x l Hx Hl IHl]; intros e0; [discriminate|].
      cbn [items_compact].
      destruct (json.dumps_compact x) as [first|e1] eqn:E1; cbn [bind].
      - destruct l as [|y l]; [discriminate|].
        destruct (items_compact (y :: l)) as [rest|e2] eqn:E2; cbn [bind]; [discriminate|].
        intros H. injection H as <-. now apply IHl.
      - intros H. injection H as <-. now apply Hx. }
    destruct (items_compact l) as [body|e0]; cbn [bind]; [discriminate|].
    intros H. injection H as <-. now apply Hitems.
  - rewrite dumps_compact_dict.
    assert (Hmembers : forall e0, members_compact d = Raise e0 ->
              e0 = mkExn ValueError (u "Out of range float values are not JSON compliant")).
    { induction IH as [|[k x] d Hx Hd IHd]; intros e0; [discriminate|].
      cbn [members_compact]. cbn [snd] in Hx.
      destruct (json.dumps_compact x) as [first|e1] eqn:E1; cbn [bind].
      - destruct d as [|y d]; [discriminate|].
        destruct (members_compact (y :: d)) as [rest|e2] eqn:E2; cbn [bind]; [discriminate|].
        intros H. injection H as <-. now apply IHd.
      - intros H. injection H as <-. now apply Hx. }
    destruct (members_compact d) as [body|e0]; cbn [bind]; [discriminate|].
    intros H. injection H as <-. now apply Hmembers.
Qed.

Lemma encode_utf8_from_raises (s : str) :
  forall (position : nat) (e : exn),
    app.encode_utf8_from position s = Raise e -> exn_cls e = UnicodeEncodeError.
Proof.
  induction s as [|c r IH]; intros position e; cbn [app.encode_utf8_from]; [discriminate|].
  destruct (app.is_surrogate c).
  - intros H. now injection H as <-.
  - destruct (app.encode_utf8_from (S position) r) as [bytes|e0] eqn:E; cbn [bind];
      [discriminate|].
    intros H. injection H as <-. now apply (IH (S position)).
Qed.

(** The rendering raises nothing but [ValueError]: that of a float that is
    not finite, or the [UnicodeEncodeError] of a surrogate. *)
Lemma render_raises (content : value) (e : exn) :
  app.render content = Raise e ->
  exn_cls e = ValueError \/ exn_cls e = UnicodeEncodeError.
Proof.
  unfold app.render.
  destruct (json.dumps_compact content) as [text|e0] eqn:E; cbn [bind].
  - intros H. right. now apply (encode_utf8_from_raises text 0%nat).
  - intros H. injection H as <-. left. now rewrite (dumps_compact_raises _ _ E).
Qed.

Lemma new_JSONResponse_answer (content : value) (w : world) :
  match app.new_JSONResponse 200 content with
  | Return response => (Return response, w)
  | Raise e => app.http_handlers e w
  end = (answer content, w).
Proof.
  unfold app.new_JSONResponse, answer.
  destruct (app.render content) as [body|e] eqn:E; cbn [bind]; [reflexivity|].
  unfold app.http_handlers, is_HTTPException, is_ValueError.
  destruct (render_raises _ _ E) as [-> | ->]; reflexivity.
Qed.

Lemma answer_ok (content : dict) :
  dict_get (u "success") content = Some (PyBool true) ->
  dict_contains (u "data") content = true ->
  endpoint_outcome_ok (answer (PyDict content))
  /\ In (app.http_status (answer (PyDict content))) [200; 400; 500]%Z.
Proof.
  intros Hs Hd. unfold answer.
  destruct (app.render (PyDict content)); cbn; [|auto].
  split; [|auto]. split; [reflexivity|]. now exists content.
Qed.

(** The two endpoints on a request that passes the checks: the conversion
    is run, its result is wrapped in a response, and an exception of the
    conversion or of the rendering goes through the handlers. *)
Lemma convert_text_run (endpoint : str -> ChatHuggingFace) (request : dict)
    (raw_text : str) (w : world) :
  dict_get (u "text") request = Some (PyStr raw_text) ->
  strip raw_text <> [] ->
  app.convert_text endpoint request w
  = match app.convert_text_to_json endpoint raw_text REPO_ID 2 w with
    | (Return result, w') =>
        (answer (PyDict [(u "success", PyBool true); (u "data", result)]), w')
    | (Raise e, w') => app.http_handlers e w'
    end.
Proof.
  intros Hget Hblank. unfold app.convert_text, try_except. rewrite Hget.
  destruct (strip raw_text) as [|c r]; [congruence|].
  unfold mbind, lift.
  destruct (app.convert_text_to_json endpoint raw_text REPO_ID 2 w) as [[result|e] w'];
    [apply new_JSONResponse_answer | reflexivity].
Qed.

Lemma convert_file_run (endpoint : str -> ChatHuggingFace) (file : app.UploadFile)
    (text_content : str) (w : world) :
  endswith (u ".txt") (app.filename file) = true ->
  app.decode_utf8 (app.file_bytes file) = Return text_content ->
  strip text_content <> [] ->
  app.convert_file endpoint file w
  = match app.convert_text_to_json endpoint text_content REPO_ID 2 w with
    | (Return result, w') =>
        (answer (PyDict [(u "success", PyBool true); (u "data", result);
                         (u "filename", PyStr (app.filename file))]), w')
    | (Raise e, w') => app.http_handlers e w'
    end.
Proof.
  intros Hname Hdec Hblank. unfold app.convert_file, try_except.
  rewrite Hname. cbn [negb]. unfold mbind at 1. unfold lift at 1. rewrite Hdec.
  destruct (strip text_content) as [|c r]; [congruence|].
  unfold mbind, lift.
  destruct (app.convert_text_to_json endpoint text_content REPO_ID 2 w) as [[result|e] w'];
    [apply new_JSONResponse_answer | reflexivity].
Qed.

Lemma http_handlers_raise (e : exn) (w : world) :
  exists e', @app.http_handlers app.JSONResponse e w = (Raise e', w)
             /\ is_HTTPException e' = true
             /\ (is_HTTPException e = false ->
                 exn_cls e' = HTTPException (if is_ValueError e then 400 else 500)%Z).
Proof.
  unfold app.http_handlers.
  destruct (is_HTTPException e) eqn:Hh.
  - exists e. repeat split; [exact Hh | discriminate].
  - destruct (is_ValueError e); eexists; repeat split.
Qed.


(** X14. Whatever the request and whatever the model does, an endpoint
    either returns a response with status 200 whose body holds [success]
    true and the converted [data], or raises an [HTTPException]: no other
    exception leaves the handlers. *)
Theorem endpoints_raise_only_HTTPException (endpoint : str -> ChatHuggingFace) (w : world) :
  (forall file : app.UploadFile,
      endpoint_outcome_ok (fst (app.convert_file endpoint file w)))
  /\ (forall request : dict,
        endpoint_outcome_ok (fst (app.convert_text endpoint request w))).
Proof.
  assert (Hh : forall e w0,
             endpoint_outcome_ok (fst (@app.http_handlers app.JSONResponse e w0))).
  { intros e w0. destruct (http_handlers_raise e w0) as (e' & -> & He' & _). exact He'. }
  split.
  - intros file.
    destruct (endswith (u ".txt") (app.filename file)) eqn:Hname;
      [|unfold app.convert_file, try_except; rewrite Hname; reflexivity].
    destruct (app.decode_utf8 (app.file_bytes file)) as [text_content|e] eqn:Hdec;
      [|unfold app.convert_file, try_except; rewrite Hname; cbn [negb];
        unfold mbind, lift; rewrite Hdec; apply Hh].
    destruct (strip text_content) as [|c r] eqn:Hblank;
      [rewrite (convert_file_empty_run endpoint file text_content w Hname Hdec Hblank);
       reflexivity|].
    rewrite (convert_file_run endpoint file text_content w Hname Hdec)
      by (rewrite Hblank; discriminate).
    destruct (app.convert_text_to_json endpoint text_content REPO_ID 2 w) as [[v|e] w'];
      [|apply Hh].
    now apply answer_ok.
  - intros request.
    destruct (dict_get (u "text") request) as [v|] eqn:Hget;
      [|unfold app.convert_text, try_except; rewrite Hget; reflexivity].
    destruct v as [| b | z | f | raw_text | l | d];
      try (unfold app.convert_text, try_except; rewrite Hget; reflexivity).
    destruct (strip raw_text) as [|c r] eqn:Hblank;
      [unfold app.convert_text, try_except; rewrite Hget, Hblank; reflexivity|].
    rewrite (convert_text_run endpoint request raw_text w Hget)
      by (rewrite Hblank; discriminate).
    destruct (app.convert_text_to_json endpoint raw_text REPO_ID 2 w) as [[v|e] w'];
      [|apply Hh].
    now apply answer_ok.
Qed.

Lemma app_convert_raises (endpoint : str -> ChatHuggingFace) (raw_text repo_id : str)
    (max_retries : Z) (w w' : world) (e : exn) :
  (forall i prompt e0, endpoint repo_id i prompt = Raise e0 -> is_HTTPException e0 = false) ->
  app.convert_text_to_json endpoint raw_text repo_id max_retries w = (Raise e, w') ->
  is_HTTPException e = false.
Proof.
  intros Hmodel Hrun. rewrite app_convert_unfold in Hrun.
  destruct (Z.ltb_spec max_retries 0) as [Hneg|Hpos];
    [rewrite app_attempts_none in Hrun by exact Hneg; discriminate Hrun|].
  apply app_attempts_trace in Hrun; [|lia].
  destruct Hrun as (added & _ & _ & _ & _ & _ & _ & _ & _ & Hlast).
  apply app_chain_outcome_raises in Hlast.
  destruct Hlast as [Hm|[Hc|[Hc|Hc]]];
    [now apply Hmodel in Hm | | |]; unfold is_HTTPException; now rewrite Hc.
Qed.

(** X15. When the model raises no [HTTPException] of its own, the two
    endpoints answer with status 200, 400 or 500 and no other. *)
Theorem endpoint_status_codes (endpoint : str -> ChatHuggingFace) (w : world) :
  (forall i prompt e, endpoint REPO_ID i prompt = Raise e -> is_HTTPException e = false) ->
  (forall file : app.UploadFile,
      In (app.http_status (fst (app.convert_file endpoint file w))) [200; 400; 500]%Z)
  /\ (forall request : dict,
        In (app.http_status (fst (app.convert_text endpoint request w))) [200; 400; 500]%Z).
Proof.
  intros Hmodel.
  assert (Hh : forall e w0, is_HTTPException e = false ->
             In (app.http_status (fst (@app.http_handlers app.JSONResponse e w0)))
                [200; 400; 500]%Z).
  { intros e w0 He. destruct (http_handlers_raise e w0) as (e' & -> & _ & Hcls).
    cbn [fst app.http_status]. rewrite (Hcls He).
    destruct (is_ValueError e); cbn; auto. }
  split.
  - intros file.
    destruct (endswith (u ".txt") (app.filename file)) eqn:Hname;
      [|unfold app.convert_file, try_except; rewrite Hname; cbn; auto].
    destruct (app.decode_utf8 (app.file_bytes file)) as [text_content|e] eqn:Hdec.
    + destruct (strip text_content) as [|c r] eqn:Hblank;
        [rewrite (convert_file_empty_run endpoint file text_content w Hname Hdec Hblank);
         cbn; auto|].
      rewrite (convert_file_run endpoint file text_content w Hname Hdec)
        by (rewrite Hblank; discriminate).
      destruct (app.convert_text_to_json endpoint text_content REPO_ID 2 w)
        as [[v|e] w'] eqn:Hrun; [now apply answer_ok|].
      apply Hh. exact (app_convert_raises _ _ _ _ _ _ _ Hmodel Hrun).
    + unfold app.convert_file, try_except. rewrite Hname. cbn [negb].
      unfold mbind, lift. rewrite Hdec. apply Hh.
      apply (decode_utf8_raises _ _ _ (le_n _)) in Hdec.
      unfold is_HTTPException. now rewrite Hdec.
  - intros request.
    destruct (dict_get (u "text") request) as [v|] eqn:Hget;
      [|unfold app.convert_text, try_except; rewrite Hget; cbn; auto].
    destruct v as [| b | z | f | raw_text | l | d];
      try (unfold app.convert_text, try_except; rewrite Hget; cbn; now auto).
    destruct (strip raw_text) as [|c r] eqn:Hblank;
      [unfold app.convert_text, try_except; rewrite Hget, Hblank; cbn; auto|].
    rewrite (convert_text_run endpoint request raw_text w Hget)
      by (rewrite Hblank; discriminate).
    destruct (app.convert_text_to_json endpoint raw_text REPO_ID 2 w)
      as [[v|e] w'] eqn:Hrun; [now apply answer_ok|].
    apply Hh. exact (app_convert_raises _ _ _ _ _ _ _ Hmodel Hrun).
Qed.

Lemma endpoint_status_codes_witness :
  let endpoint : str -> ChatHuggingFace :=
    fun _ _ _ => raise (OtherException (u "TimeoutError")) (u "timed out") in
  In (app.http_status
        (fst (app.convert_file endpoint (app.mkUploadFile (u "notes.txt") (u "clean"))
                (mkWorld 0 [])))) [200; 400; 500]%Z
  /\ In (app.http_status
           (fst (app.convert_text endpoint [(u "text", PyStr (u "clean"))] (mkWorld 0 []))))
        [200; 400; 500]%Z.
Proof.
  intros endpoint.
  destruct (endpoint_status_codes endpoint (mkWorld 0 [])) as [Hfile Htext].
  - intros i prompt e H. injection H as <-. reflexivity.
  - split; [apply Hfile | apply Htext].
Defined.

Lemma app_chain_outcome_model_raises (model : ChatHuggingFace) (raw_text : str)
    (i : nat) (e : exn) :
  model i (app_prompt_before ++ raw_text ++ app_prompt_after) = Raise e ->
  app_chain_outcome model raw_text i = Raise e.
Proof.
  intros H. unfold app_chain_outcome, app.run_chain, chain_invoke, mbind, lift, invoke.
  rewrite app_format_prompt. cbn [calls fst]. rewrite H. reflexivity.
Qed.

Lemma app_chain_outcome_reply (model : ChatHuggingFace) (raw_text : str)
    (i : nat) (r : response) :
  model i (app_prompt_before ++ raw_text ++ app_prompt_after) = Return r ->
  app_chain_outcome model raw_text i = app.normalize langchain.parse (text_of r).
Proof.
  intros H. unfold app_chain_outcome, app.run_chain, chain_invoke, mbind, lift, invoke.
  rewrite app_format_prompt. cbn [calls fst]. rewrite H. reflexivity.
Qed.

(** The conversion of app.py with the default [max_retries] when every run
    fails: what it raises, and what it leaves in the trace. *)
Lemma app_convert_all_fail (endpoint : str -> ChatHuggingFace) (raw_text : str) (w : world) :
  (forall i, exists e, app_chain_outcome (endpoint REPO_ID) raw_text i = Raise e) ->
  exists e w',
    app.convert_text_to_json endpoint raw_text REPO_ID 2 w = (Raise e, w')
    /\ calls w' = app_calls_after (app_chain_outcome (endpoint REPO_ID) raw_text) 3 (calls w)
    /\ (invocations (trace w') + calls w = invocations (trace w) + calls w')%nat
    /\ prints (trace w') = (prints (trace w) + 3)%nat
    /\ sleeps (trace w') = (sleeps (trace w) + 2)%nat
    /\ app_chain_outcome (endpoint REPO_ID) raw_text (calls w' - 1) = Raise e.
Proof.
  intros Hfail.
  destruct (app_attempts_fail (endpoint REPO_ID) raw_text 2 Hfail 3 0%Z w)
    as (e & w' & Hrun & Hcalls & Hinv & Hout); [reflexivity | lia |].
  exists e, w'. rewrite app_convert_unfold.
  change (Z.to_nat (2 + 1)) with 3%nat.
  split; [exact Hrun|]. split; [exact Hcalls|]. split; [exact Hinv|].
  apply app_attempts_trace in Hrun; [|reflexivity].
  destruct Hrun as (added & Htr & _ & _ & _ & Hp & Hs & _).
  rewrite Htr, prints_app, sleeps_app.
  split; [lia|]. split; [lia | exact Hout].
Qed.

(** X16. When every call of the model raises an exception that is neither
    a [ValueError] nor an [HTTPException] (a transport error, say), a
    request with a text that is not blank is answered 500 with the detail
    [Server error: ] followed by the message of the third call's exception,
    after exactly three calls of the model, three printed lines and two
    sleeps; and so is the upload of a [.txt] file with that text. *)
Theorem model_failure_is_server_error (endpoint : str -> ChatHuggingFace)
    (raw_text : str) (w : world) :
  strip raw_text <> [] ->
  (forall i prompt, exists e,
      endpoint REPO_ID i prompt = Raise e
      /\ is_ValueError e = false /\ is_HTTPException e = false) ->
  exists e w',
    endpoint REPO_ID (calls w + 2)%nat (app_prompt_before ++ raw_text ++ app_prompt_after)
    = Raise e
    /\ (forall request : dict,
          dict_get (u "text") request = Some (PyStr raw_text) ->
          app.convert_text endpoint request w
          = (Raise (mkExn (HTTPException 500) (u "Server error: " ++ exn_msg e)), w'))
    /\ (forall file : app.UploadFile,
          endswith (u ".txt") (app.filename file) = true ->
          app.decode_utf8 (app.file_bytes file) = Return raw_text ->
          app.convert_file endpoint file w
          = (Raise (mkExn (HTTPException 500) (u "Server error: " ++ exn_msg e)), w'))
    /\ invocations (trace w') = (invocations (trace w) + 3)%nat
    /\ prints (trace w') = (prints (trace w) + 3)%nat
    /\ sleeps (trace w') = (sleeps (trace w) + 2)%nat.
Proof.
  intros Hblank Hmodel.
  set (p := app_prompt_before ++ raw_text ++ app_prompt_after).
  assert (Hout : forall i, exists e,
             app_chain_outcome (endpoint REPO_ID) raw_text i = Raise e
             /\ endpoint REPO_ID i p = Raise e
             /\ is_ValueError e = false /\ is_HTTPException e = false).
  { intros i. destruct (Hmodel i p) as (e & He & Hv & Hh). exists e.
    split; [now apply app_chain_outcome_model_raises | auto]. }
  assert (Hfail : forall i, exists e, app_chain_outcome (endpoint REPO_ID) raw_text i = Raise e).
  { intros i. destruct (Hout i) as (e & He & _). now exists e. }
  assert (Hnone : forall i, fails_with_ValueError
                              (app_chain_outcome (endpoint REPO_ID) raw_text i) = false).
  { intros i. destruct (Hout i) as (e & He & _ & Hv & _). now rewrite He. }
  destruct (app_convert_all_fail endpoint raw_text w Hfail)
    as (e & w' & Hrun & Hcalls & Hinv & Hp & Hs & Hlast).
  rewrite (app_calls_after_none _ _ _ Hnone) in Hcalls.
  replace (calls w' - 1)%nat with (calls w + 2)%nat in Hlast by lia.
  destruct (Hout (calls w + 2)%nat) as (e0 & He0 & Hm0 & Hv0 & Hh0).
  assert (e0 = e) by congruence. subst e0.
  exists e, w'. split; [exact Hm0|].
  assert (Hhandled : @app.http_handlers app.JSONResponse e w'
                     = (Raise (mkExn (HTTPException 500) (u "Server error: " ++ exn_msg e)), w')).
  { unfold app.http_handlers. rewrite Hh0, Hv0. reflexivity. }
  split; [|split; [|split; [lia | split; [exact Hp | exact Hs]]]].
  - intros request Hget.
    rewrite (convert_text_run endpoint request raw_text w Hget Hblank), Hrun.
    exact Hhandled.
  - intros file Hname Hdec.
    rewrite (convert_file_run endpoint file raw_text w Hname Hdec Hblank), Hrun.
    exact Hhandled.
Qed.

Lemma model_failure_is_server_error_witness :
  let endpoint : str -> ChatHuggingFace :=
    fun _ _ _ => raise (OtherException (u "TimeoutError")) (u "timed out") in
  let w := mkWorld 0 [] in
  exists e w',
    endpoint REPO_ID (calls w + 2)%nat (app_prompt_before ++ u "notes" ++ app_prompt_after)
    = Raise e
    /\ (forall request : dict,
          dict_get (u "text") request = Some (PyStr (u "notes")) ->
          app.convert_text endpoint request w
          = (Raise (mkExn (HTTPException 500) (u "Server error: " ++ exn_msg e)), w'))
    /\ (forall file : app.UploadFile,
          endswith (u ".txt") (app.filename file) = true ->
          app.decode_utf8 (app.file_bytes file) = Return (u "notes") ->
          app.convert_file endpoint file w
          = (Raise (mkExn (HTTPException 500) (u "Server error: " ++ exn_msg e)), w'))
    /\ invocations (trace w') = (invocations (trace w) + 3)%nat
    /\ prints (trace w') = (prints (trace w) + 3)%nat
    /\ sleeps (trace w') = (sleeps (trace w) + 2)%nat.
Proof.
  intros endpoint w.
  apply (model_failure_is_server_error endpoint (u "notes") w).
  - vm_compute. discriminate.
  - intros i prompt. eexists. repeat split.
Defined.

(** X17. When the model answers every call with a text on which
    [parser.parse] raises and [json.loads] raises a [ValueError] (the
    [JSONDecodeError] of a text that is not JSON, for instance), a request
    with a text that is not blank is answered 400, with the detail
    [Conversion error: ] followed by the message [json.loads] gave for the
    sixth reply, after exactly six calls of the model, three printed lines
    and two sleeps; and so is the upload of a [.txt] file with that text.
    What [json.loads] raises is a hypothesis here: an exception of it that
    is no [ValueError] is handled as a server error. *)
Theorem unparseable_replies_are_client_error (endpoint : str -> ChatHuggingFace)
    (raw_text : str) (w : world) :
  strip raw_text <> [] ->
  (forall i prompt, exists r e1 e2,
      endpoint REPO_ID i prompt = Return r
      /\ langchain.parse (text_of r) = Raise e1
      /\ json.loads true (text_of r) = Raise e2
      /\ is_ValueError e2 = true) ->
  exists r e w',
    endpoint REPO_ID (calls w + 5)%nat (app_prompt_before ++ raw_text ++ app_prompt_after)
    = Return r
    /\ json.loads true (text_of r) = Raise e
    /\ (forall request : dict,
          dict_get (u "text") request = Some (PyStr raw_text) ->
          app.convert_text endpoint request w
          = (Raise (mkExn (HTTPException 400) (u "Conversion error: " ++ exn_msg e)), w'))
    /\ (forall file : app.UploadFile,
          endswith (u ".txt") (app.filename file) = true ->
          app.decode_utf8 (app.file_bytes file) = Return raw_text ->
          app.convert_file endpoint file w
          = (Raise (mkExn (HTTPException 400) (u "Conversion error: " ++ exn_msg e)), w'))
    /\ invocations (trace w') = (invocations (trace w) + 6)%nat
    /\ prints (trace w') = (prints (trace w) + 3)%nat
    /\ sleeps (trace w') = (sleeps (trace w) + 2)%nat.
Proof.
  intros Hblank Hmodel.
  set (p := app_prompt_before ++ raw_text ++ app_prompt_after).
  assert (Hout : forall i, exists r e,
             endpoint REPO_ID i p = Return r
             /\ json.loads true (text_of r) = Raise e
             /\ app_chain_outcome (endpoint REPO_ID) raw_text i = Raise e
             /\ is_ValueError e = true).
  { intros i. destruct (Hmodel i p) as (r & e1 & e2 & Hr & Hparse & Hloads & Hval).
    exists r, e2. rewrite (app_chain_outcome_reply _ _ _ _ Hr).
    unfold app.normalize. rewrite Hparse, Hloads. auto. }
  assert (Hfail : forall i, exists e, app_chain_outcome (endpoint REPO_ID) raw_text i = Raise e).
  { intros i. destruct (Hout i) as (r & e & _ & _ & He & _). now exists e. }
  assert (Hall : forall i, fails_with_ValueError
                             (app_chain_outcome (endpoint REPO_ID) raw_text i) = true).
  { intros i. destruct (Hout i) as (r & e & _ & _ & He & Hval). now rewrite He. }
  destruct (app_convert_all_fail endpoint raw_text w Hfail)
    as (e & w' & Hrun & Hcalls & Hinv & Hp & Hs & Hlast).
  rewrite (app_calls_after_all _ _ _ Hall) in Hcalls.
  replace (calls w' - 1)%nat with (calls w + 5)%nat in Hlast by lia.
  destruct (Hout (calls w + 5)%nat) as (r & e0 & Hr & Hloads & He0 & Hval).
  assert (e0 = e) by congruence. subst e0.
  exists r, e, w'. split; [exact Hr|]. split; [exact Hloads|].
  assert (Hhandled : @app.http_handlers app.JSONResponse e w'
                     = (Raise (mkExn (HTTPException 400)
                                 (u "Conversion error: " ++ exn_msg e)), w')).
  { unfold app.http_handlers. rewrite Hval.
    replace (is_HTTPException e) with false; [reflexivity|].
    unfold is_ValueError in Hval. unfold is_HTTPException.
    destruct (exn_cls e); try reflexivity; discriminate Hval. }
  split; [|split; [|split; [lia | split; [exact Hp | exact Hs]]]].
  - intros request Hget.
    rewrite (convert_text_run endpoint request raw_text w Hget Hblank), Hrun.
    exact Hhandled.
  - intros file Hname Hdec.
    rewrite (convert_file_run endpoint file raw_text w Hname Hdec Hblank), Hrun.
    exact Hhandled.
Qed.

Lemma unparseable_replies_are_client_error_witness :
  let endpoint : str -> ChatHuggingFace :=
    fun _ _ _ => Return (AIMessage (u "I cannot process this request.")) in
  let w := mkWorld 0 [] in
  exists r e w',
    endpoint REPO_ID (calls w + 5)%nat (app_prompt_before ++ u "notes" ++ app_prompt_after)
    = Return r
    /\ json.loads true (text_of r) = Raise e
    /\ (forall request : dict,
          dict_get (u "text") request = Some (PyStr (u "notes")) ->
          app.convert_text endpoint request w
          = (Raise (mkExn (HTTPException 400) (u "Conversion error: " ++ exn_msg e)), w'))
    /\ (forall file : app.UploadFile,
          endswith (u ".txt") (app.filename file) = true ->
          app.decode_utf8 (app.file_bytes file) = Return (u "notes") ->
          app.convert_file endpoint file w
          = (Raise (mkExn (HTTPException 400) (u "Conversion error: " ++ exn_msg e)), w'))
    /\ invocations (trace w') = (invocations (trace w) + 6)%nat
    /\ prints (trace w') = (prints (trace w) + 3)%nat
    /\ sleeps (trace w') = (sleeps (trace w) + 2)%nat.
Proof.
  intros endpoint w.
  apply (unparseable_replies_are_client_error endpoint (u "notes") w).
  - vm_compute. discriminate.
  - intros i prompt. eexists. eexists. eexists.
    split; [reflexivity|]. split; [vm_compute; reflexivity|].
    split; vm_compute; reflexivity.
Defined.

(** ** From the reply of the model to the response *)

(** *** [json.dumps] writes printable ASCII *)

Ltac literals :=
  repeat match goal with
  | |- context [u ?s] => let r := eval vm_compute in (u s) in change (u s) with r
  end.

Ltac printable_chars :=
  literals;
  repeat first [ apply Forall_nil
               | apply Forall_cons; [unfold printable; lia|] ].

Lemma hexdigit_printable (n : N) : n < 16 -> printable (json.hexdigit n).
Proof.
  intros H. unfold printable, json.hexdigit. destruct (N.ltb_spec n 10); lia.
Qed.

Lemma u_escape_printable (c : N) : c < 65536 -> Forall printable (json.u_escape c).
Proof.
  intros H. unfold json.u_escape.
  repeat constructor; try (unfold printable; lia); apply hexdigit_printable;
    first [ apply N.mod_lt; lia | zify; Z.to_euclidean_division_equations; lia ].
Qed.

Lemma escape_char_printable (c : char) : Forall printable (json.escape_char c).
Proof.
  unfold json.escape_char.
  repeat match goal with
  | |- Forall printable (if ?b then _ else _) => destruct b eqn:?
  end; try (solve [printable_chars]).
  - apply andb_true_iff in Heqb6. destruct Heqb6 as [H1 H2].
    apply N.leb_le in H1. apply N.leb_le in H2.
    printable_chars.
  - apply u_escape_printable. now apply N.ltb_lt.
  - cbv zeta. apply Forall_app. split; apply u_escape_printable.
    + assert ((c - 65536) / 1024 mod 1024 < 1024) by (apply N.mod_lt; lia). lia.
    + assert ((c - 65536) mod 1024 < 1024) by (apply N.mod_lt; lia). lia.
Qed.

Lemma encode_str_printable (s : str) : Forall printable (json.encode_str s).
Proof.
  unfold json.encode_str.
  apply Forall_app. split; [printable_chars|].
  apply Forall_app. split; [|printable_chars].
  induction s as [|c s IH]; [constructor|].
  cbn [flat_map]. apply Forall_app. split; [apply escape_char_printable | exact IH].
Qed.

Lemma digits_str_printable (d : uint) : Forall printable (digits_str d).
Proof.
  induction d; cbn [digits_str];
    first [ apply Forall_nil
          | apply Forall_cons; [unfold printable; lia | assumption] ].
Qed.

Lemma str_of_int_printable (z : Z) : Forall printable (str_of_int z).
Proof.
  unfold str_of_int. apply Forall_app. split; [|apply digits_str_printable].
  destruct (z <? 0)%Z; printable_chars.
Qed.

Lemma float_str_printable (f : float_repr) : Forall printable (json.float_str f).
Proof.
  destruct f as [| neg | neg n frac exp]; unfold json.float_str.
  - printable_chars.
  - apply Forall_app. split; [destruct neg|]; printable_chars.
  - apply Forall_app. split; [destruct neg; printable_chars|].
    apply Forall_app. split; [apply digits_str_printable|].
    apply Forall_app. split.
    + destruct frac; [|apply Forall_nil].
      apply Forall_cons; [unfold printable; lia | apply digits_str_printable].
    + destruct exp as [[sg d]|]; [|apply Forall_nil].
      apply Forall_cons; [unfold printable; lia|].
      apply Forall_app. split; [|apply digits_str_printable].
      destruct sg; printable_chars.
Qed.

(** Whatever the value, [json.dumps] writes printable ASCII only. *)
Lemma dumps_printable (v : value) : Forall printable (json.dumps v).
Proof.
  induction v as [| b | z | f | s | l IH | d IH] using value_ind'.
  - cbn [json.dumps]. printable_chars.
  - destruct b; cbn [json.dumps]; printable_chars.
  - apply str_of_int_printable.
  - apply float_str_printable.
  - apply encode_str_printable.
  - rewrite dumps_list.
    apply Forall_app. split; [printable_chars|].
    apply Forall_app. split; [|printable_chars].
    induction IH as [|x l Hx Hl IHl]; [constructor|].
    cbn [items_str]. apply Forall_app. split; [exact Hx|].
    destruct l as [|y l]; [constructor|].
    apply Forall_app. split; [printable_chars | exact IHl].
  - rewrite dumps_dict.
    apply Forall_app. split; [printable_chars|].
    apply Forall_app. split; [|printable_chars].
    induction IH as [|[k x] d Hx Hd IHd]; [constructor|].
    cbn [members_str]. apply Forall_app. split; [apply encode_str_printable|].
    apply Forall_app. split; [printable_chars|].
    apply Forall_app. split; [exact Hx|].
    destruct d as [|kx d]; [constructor|].
    apply Forall_app. split; [printable_chars | exact IHd].
Qed.

(** *** [parser.parse] on a serialized object *)

Lemma lstrip_by_head (p : char -> bool) (c : char) (s : str) :
  p c = false -> lstrip_by p (c :: s) = c :: s.
Proof. intros H. cbn [lstrip_by]. now rewrite H. Qed.

Lemma strip_by_ends (p : char -> bool) (c c' : char) (m : str) :
  p c = false -> p c' = false ->
  rstrip_by p (lstrip_by p (c :: m ++ [c'])) = c :: m ++ [c'].
Proof.
  intros Hc Hc'. rewrite (lstrip_by_head _ _ _ Hc). unfold rstrip_by.
  change (c :: m ++ [c']) with ((c :: m) ++ [c']).
  rewrite rev_app_distr.
  change (List.rev [c'] ++ List.rev (c :: m)) with (c' :: List.rev (c :: m)).
  rewrite (lstrip_by_head _ _ _ Hc').
  change (c' :: List.rev (c :: m)) with (List.rev [c'] ++ List.rev (c :: m)).
  rewrite <- rev_app_distr. apply rev_involutive.
Qed.

Lemma startswith_prefix (p s : str) :
  startswith p s = true -> s = p ++ skipn (List.length p) s.
Proof.
  revert s. induction p as [|a p IH]; intros s H; [reflexivity|].
  destruct s as [|b s]; [discriminate H|].
  cbn [startswith] in H. apply andb_true_iff in H. destruct H as [Hab Hp].
  apply N.eqb_eq in Hab. subst b. cbn. f_equal. now apply IH.
Qed.

Lemma take_while_lstrip (p : char -> bool) (s : str) :
  langchain.take_while p s ++ lstrip_by p s = s.
Proof.
  induction s as [|c r IH]; [reflexivity|]. cbn.
  destruct (p c); [cbn; now rewrite IH | reflexivity].
Qed.

Lemma str_partition_quote (body value rest : str) :
  str_partition [34] body = Some (value, rest) ->
  body = value ++ 34 :: rest /\ ~ In 34 value.
Proof.
  revert value rest. induction body as [|c r IH]; intros value rest H.
  - discriminate H.
  - cbn [str_partition startswith] in H.
    destruct (N.eqb_spec 34 c) as [<-|Hne]; cbn [andb] in H.
    + injection H as <- <-. split; [reflexivity | intros []].
    + destruct (str_partition [34] r) as [[before rest0]|] eqn:E; [|discriminate H].
      injection H as <- <-. destruct (IH _ _ eq_refl) as [-> Hnot].
      split; [reflexivity|]. intros [Hc|Hin]; [congruence | contradiction].
Qed.

Lemma escape_newlines_id (s : str) :
  Forall printable s -> langchain.escape_newlines s = s.
Proof.
  induction 1 as [|c r Hc Hr IH]; [reflexivity|]. cbn [langchain.escape_newlines].
  unfold printable in Hc.
  destruct (N.eqb_spec c 10); [lia|]. destruct (N.eqb_spec c 13); [lia|].
  destruct (N.eqb_spec c 9); [lia|]. now rewrite IH.
Qed.

Lemma escape_quotes_id (b : bool) (s : str) :
  ~ In 34 s -> langchain.escape_quotes b s = s.
Proof.
  revert b. induction s as [|c r IH]; intros b H; [reflexivity|].
  cbn [langchain.escape_quotes].
  destruct (N.eqb_spec c 34) as [->|Hne]; [destruct H; now left|].
  cbn [andb]. rewrite IH; [reflexivity|]. intros Hin. apply H. now right.
Qed.

Lemma match_action_input_id (s replacement rest : str) :
  Forall printable s ->
  langchain.match_action_input s = Some (replacement, rest) ->
  replacement ++ rest = s /\ Forall printable rest.
Proof.
  intros Hs. unfold langchain.match_action_input.
  set (key := u "\x22action_input\x22:").
  destruct (startswith key s) eqn:Hkey; [|discriminate].
  apply startswith_prefix in Hkey.
  set (after := skipn (List.length key) s) in *.
  destruct (lstrip_by isspace after) as [|q body] eqn:Hstrip; [discriminate|].
  destruct (N.eqb_spec q 34) as [->|Hq]; [|discriminate].
  destruct (str_partition [34] body) as [[value rest0]|] eqn:Hpart; [|discriminate].
  intros H. injection H as <- <-.
  apply str_partition_quote in Hpart. destruct Hpart as [-> Hnot].
  assert (Hafter : after = langchain.take_while isspace after ++ 34 :: value ++ 34 :: rest0).
  { rewrite <- Hstrip. symmetry. apply take_while_lstrip. }
  assert (Hall : Forall printable (langchain.take_while isspace after ++ 34 :: value ++ 34 :: rest0)).
  { rewrite <- Hafter. rewrite Hkey in Hs. apply Forall_app in Hs. tauto. }
  apply Forall_app in Hall. destruct Hall as [_ Hall].
  apply Forall_inv_tail in Hall. apply Forall_app in Hall. destruct Hall as [Hvalue Hrest].
  apply Forall_inv_tail in Hrest.
  split; [|exact Hrest].
  unfold langchain._replace_new_line.
  rewrite (escape_newlines_id _ Hvalue), (escape_quotes_id _ _ Hnot).
  transitivity (key ++ after); [|symmetry; exact Hkey].
  transitivity (key ++ (langchain.take_while isspace after ++ 34 :: value ++ [34]) ++ rest0);
    [reflexivity|].
  apply (f_equal (List.app key)).
  rewrite <- app_assoc. cbn [List.app]. rewrite <- app_assoc. symmetry. exact Hafter.
Qed.

Lemma custom_parser_from_id (fuel : nat) (s : str) :
  Forall printable s -> langchain.custom_parser_from fuel s = s.
Proof.
  revert s. induction fuel as [|f IH]; intros s Hs; [reflexivity|].
  cbn [langchain.custom_parser_from].
  destruct (langchain.match_action_input s) as [[replacement rest]|] eqn:E.
  - apply (match_action_input_id _ _ _ Hs) in E. destruct E as [<- Hrest].
    now rewrite (IH _ Hrest).
  - destruct s as [|c r]; [reflexivity|].
    rewrite IH; [reflexivity | now apply Forall_inv_tail in Hs].
Qed.

(** [JsonOutputParser.parse] reads the serialization of an object back. *)
Lemma parse_dumps_dict (d : dict) :
  wf_value (PyDict d) = true ->
  langchain.parse (json.dumps (PyDict d)) = Return (PyDict d).
Proof.
  intros Hwf.
  pose proof (dumps_printable (PyDict d)) as Hp.
  pose proof (loads_dumps false _ Hwf) as Hloads.
  assert (Hstrip : strip (json.dumps (PyDict d)) = json.dumps (PyDict d)).
  { rewrite dumps_dict. apply strip_by_ends; reflexivity. }
  assert (Hstrip2 : strip_chars langchain._json_strip_chars (json.dumps (PyDict d))
                    = json.dumps (PyDict d)).
  { rewrite dumps_dict. apply strip_by_ends; reflexivity. }
  unfold langchain.parse. rewrite Hstrip.
  unfold langchain.parse_json_markdown, langchain._parse_json. rewrite Hstrip2.
  unfold langchain._custom_parser. rewrite (custom_parser_from_id _ _ Hp).
  unfold langchain.parse_partial_json. rewrite Hloads. reflexivity.
Qed.

(** X18. Serializing a value and parsing the text again gives the value
    back: [json.loads(json.dumps(data))] is [data], for every value that is
    within the limits of the interpreter (integers of at most 4300 digits,
    nesting of at most 100), holds no [NaN], and whose strings hold no high
    surrogate directly followed by a low one.  On such a value the
    [validate_json] that [convert_text_to_json] calls on [json.dumps(data)]
    never takes its [Invalid JSON output] branch and does to the text what
    its loop does to [data]. *)
Theorem serialized_data_reads_back (data : value) :
  reads_back_equal data = true ->
  json.loads true (json.dumps data) = Return data
  /\ app.validate_json (json.dumps data) = app.fill_missing required_keys data
  /\ converter.validate_json (json.dumps data) = converter.check_keys required_keys data.
Proof.
  intros Hok. pose proof (loads_dumps true data (reads_back_equal_wf_value _ Hok)) as H.
  unfold app.validate_json, converter.validate_json. rewrite H. auto.
Qed.

Lemma serialized_data_reads_back_witness :
  let data :=
    PyDict [(u "date", PyStr (u "1 nov \x22A\x22\n" ++ [233; 128512; 55357]));
            (u "mileage", PyList [PyInt (-12); PyFloat (FNumber true 0 (Some (D5 Nil)) (Some (Minus, D3 Nil)));
                                  PyNone; PyBool false; PyDict []; PyList []])] in
  json.loads true (json.dumps data) = Return data
  /\ app.validate_json (json.dumps data) = app.fill_missing required_keys data
  /\ converter.validate_json (json.dumps data) = converter.check_keys required_keys data.
Proof.
  intros data. apply (serialized_data_reads_back data). vm_compute. reflexivity.
Defined.

Lemma converter_chain_outcome_model_raises (model : ChatHuggingFace) (raw_text : str)
    (i : nat) (e : exn) :
  model i (converter_prompt_before ++ raw_text ++ converter_prompt_after) = Raise e ->
  converter_chain_outcome model raw_text i = Raise e.
Proof.
  intros H.
  unfold converter_chain_outcome, converter.run_chain, chain_invoke, mbind, lift, invoke.
  rewrite converter_format_prompt. cbn [calls fst]. rewrite H. reflexivity.
Qed.

Lemma converter_chain_outcome_reply (model : ChatHuggingFace) (raw_text : str)
    (i : nat) (r : response) (data : value) :
  model i (converter_prompt_before ++ raw_text ++ converter_prompt_after) = Return r ->
  langchain.parse (text_of r) = Return data ->
  converter_chain_outcome model raw_text i = converter.validate_json (json.dumps data).
Proof.
  intros H Hp.
  unfold converter_chain_outcome, converter.run_chain, chain_invoke, mbind, lift, invoke.
  rewrite converter_format_prompt. cbn [calls fst]. rewrite H. cbn [fst snd].
  rewrite Hp. reflexivity.
Qed.

Lemma app_attempts_first (model : ChatHuggingFace) (raw_text : str) (max_retries : Z)
    (n : nat) (attempt : Z) (w : world) (v : value) :
  app_chain_outcome model raw_text (calls w) = Return v ->
  app.attempts model langchain.parse app.prompt_template raw_text max_retries (S n) attempt w
  = (Return v,
     mkWorld (S (calls w))
       (trace w ++ [Invoked (app_prompt_before ++ raw_text ++ app_prompt_after)])).
Proof.
  intros H. cbn [app.attempts]. unfold try_except at 1.
  rewrite app_run_chain_step, H. reflexivity.
Qed.

Lemma converter_attempts_first (model : ChatHuggingFace) (raw_text : str) (max_retries : Z)
    (n : nat) (attempt : Z) (w : world) (v : value) :
  converter_chain_outcome model raw_text (calls w) = Return v ->
  converter.attempts model langchain.parse converter.prompt_template raw_text max_retries
    (S n) attempt w
  = (Return v,
     mkWorld (S (calls w))
       (trace w ++ [Invoked (converter_prompt_before ++ raw_text ++ converter_prompt_after)])).
Proof.
  intros H. cbn [converter.attempts]. unfold try_except at 1.
  rewrite converter_run_chain_step, H. reflexivity.
Qed.

Lemma app_chain_outcome_parsed (model : ChatHuggingFace) (raw_text : str)
    (i : nat) (r : response) (d : dict) :
  model i (app_prompt_before ++ raw_text ++ app_prompt_after) = Return r ->
  langchain.parse (text_of r) = Return (PyDict d) ->
  wf_value (PyDict d) = true ->
  app_chain_outcome model raw_text i
  = Return (PyDict (d ++ missing_entries required_keys d)).
Proof.
  intros Hreply Hparse Hwf.
  rewrite (app_chain_outcome_reply _ _ _ _ Hreply).
  unfold app.normalize. rewrite Hparse. cbn [bind].
  unfold app.validate_json. rewrite (loads_dumps true _ Hwf).
  apply fill_missing_dict.
Qed.

(** X19. When [parser.parse] recovers an object from the model's reply to
    the first call, whatever the layout of the reply (compact, indented,
    inside a code fence, after a line of prose), [convert_text_to_json] of
    app.py returns that object completed with the missing required keys,
    after this one call and without printing or sleeping.  Each endpoint
    then builds its response from the completed object, [/convert] with the
    file name: it answers 200 with the object as [data] when the body can be
    rendered, and 400 with the message of the rendering error when it
    cannot, which is the case when the object holds a float that is not
    finite or a string with a surrogate.  The strings of the object are
    assumed to hold no high surrogate directly followed by a low one. *)
Theorem parsed_reply_is_completed (endpoint : str -> ChatHuggingFace)
    (raw_text : str) (max_retries : Z) (w : world) (r : response) (d : dict) :
  (0 <= max_retries)%Z ->
  endpoint REPO_ID (calls w) (app_prompt_before ++ raw_text ++ app_prompt_after) = Return r ->
  langchain.parse (text_of r) = Return (PyDict d) ->
  wf_value (PyDict d) = true ->
  let w' := mkWorld (S (calls w))
              (trace w ++ [Invoked (app_prompt_before ++ raw_text ++ app_prompt_after)]) in
  let result := PyDict (d ++ missing_entries required_keys d) in
  app.convert_text_to_json endpoint raw_text REPO_ID max_retries w = (Return result, w')
  /\ (forall request : dict,
        dict_get (u "text") request = Some (PyStr raw_text) ->
        strip raw_text <> [] ->
        app.convert_text endpoint request w
        = (answer (PyDict [(u "success", PyBool true); (u "data", result)]), w'))
  /\ (forall file : app.UploadFile,
        endswith (u ".txt") (app.filename file) = true ->
        app.decode_utf8 (app.file_bytes file) = Return raw_text ->
        strip raw_text <> [] ->
        app.convert_file endpoint file w
        = (answer (PyDict [(u "success", PyBool true); (u "data", result);
                           (u "filename", PyStr (app.filename file))]), w')).
Proof.
  intros Hmax Hreply Hparse Hwf w' result.
  pose proof (app_chain_outcome_parsed _ _ _ _ _ Hreply Hparse Hwf) as Hout.
  fold result in Hout.
  assert (Hrun : forall m, (0 <= m)%Z ->
             app.convert_text_to_json endpoint raw_text REPO_ID m w = (Return result, w')).
  { intros m Hm. rewrite app_convert_unfold.
    destruct (Z.to_nat (m + 1)) as [|n] eqn:Hn; [lia|].
    now apply app_attempts_first. }
  split; [now apply Hrun|]. split.
  - intros request Hget Hblank.
    rewrite (convert_text_run endpoint request raw_text w Hget Hblank).
    rewrite (Hrun 2%Z) by lia. reflexivity.
  - intros file Hname Hdec Hblank.
    rewrite (convert_file_run endpoint file raw_text w Hname Hdec Hblank).
    rewrite (Hrun 2%Z) by lia. reflexivity.
Qed.

(** A reply with the object in a code fence after a line of prose is
    answered 200; a reply whose object holds [NaN] is completed as well,
    and answered 400 because the body cannot be rendered. *)
Lemma parsed_reply_is_completed_witness :
  let fenced : str -> ChatHuggingFace :=
    fun _ _ _ =>
      Return (AIMessage (u "Here is the JSON:\n```json\n{\x22date\x22:\x221 nov\x22,\n \x22trains\x22: [12,18]}\n```")) in
  let not_a_number : str -> ChatHuggingFace :=
    fun _ _ _ => Return (AIMessage (u "{\x22date\x22: NaN}")) in
  let w := mkWorld 0 [] in
  let w' := mkWorld 1 [Invoked (app_prompt_before ++ u "notes" ++ app_prompt_after)] in
  let missing := map (fun k => (k, Not_specified)) (skipn 1 required_keys) in
  let result :=
    PyDict ([(u "date", PyStr (u "1 nov")); (u "trains", PyList [PyInt 12; PyInt 18])]
            ++ missing) in
  app.convert_text_to_json fenced (u "notes") REPO_ID 2 w = (Return result, w')
  /\ app.convert_text fenced [(u "text", PyStr (u "notes"))] w
     = (Return (app.mkJSONResponse 200
                  (PyDict [(u "success", PyBool true); (u "data", result)])), w')
  /\ app.convert_file fenced (app.mkUploadFile (u "notes.txt") (u "notes")) w
     = (Return (app.mkJSONResponse 200
                  (PyDict [(u "success", PyBool true); (u "data", result);
                           (u "filename", PyStr (u "notes.txt"))])), w')
  /\ app.convert_text_to_json not_a_number (u "notes") REPO_ID 2 w
     = (Return (PyDict ((u "date", PyFloat FNaN) :: missing)), w')
  /\ app.convert_text not_a_number [(u "text", PyStr (u "notes"))] w
     = (Raise (mkExn (HTTPException 400)
                 (u "Conversion error: Out of range float values are not JSON compliant")),
        w').
Proof.
  intros fenced not_a_number w w' missing result.
  pose proof (parsed_reply_is_completed fenced (u "notes") 2 w
                (AIMessage (u "Here is the JSON:\n```json\n{\x22date\x22:\x221 nov\x22,\n \x22trains\x22: [12,18]}\n```"))
                [(u "date", PyStr (u "1 nov")); (u "trains", PyList [PyInt 12; PyInt 18])])
    as H.
  assert (H0 : (0 <= 2)%Z) by lia.
  specialize (H H0 eq_refl).
  assert (H2 : langchain.parse
                 (text_of (AIMessage (u "Here is the JSON:\n```json\n{\x22date\x22:\x221 nov\x22,\n \x22trains\x22: [12,18]}\n```")))
               = Return (PyDict [(u "date", PyStr (u "1 nov"));
                                 (u "trains", PyList [PyInt 12; PyInt 18])]))
    by (vm_compute; reflexivity).
  assert (H3 : wf_value (PyDict [(u "date", PyStr (u "1 nov"));
                                 (u "trains", PyList [PyInt 12; PyInt 18])]) = true)
    by (vm_compute; reflexivity).
  specialize (H H2 H3). destruct H as (Hconv & Htext & Hfile).
  pose proof (parsed_reply_is_completed not_a_number (u "notes") 2 w
                (AIMessage (u "{\x22date\x22: NaN}")) [(u "date", PyFloat FNaN)]) as H'.
  specialize (H' H0 eq_refl).
  assert (H2' : langchain.parse (text_of (AIMessage (u "{\x22date\x22: NaN}")))
                = Return (PyDict [(u "date", PyFloat FNaN)]))
    by (vm_compute; reflexivity).
  assert (H3' : wf_value (PyDict [(u "date", PyFloat FNaN)]) = true)
    by (vm_compute; reflexivity).
  specialize (H' H2' H3'). destruct H' as (Hconv' & Htext' & _).
  assert (Hb : strip (u "notes") <> []) by (vm_compute; discriminate).
  assert (Hg : dict_get (u "text") [(u "text", PyStr (u "notes"))]
               = Some (PyStr (u "notes"))) by (vm_compute; reflexivity).
  assert (Hn : endswith (u ".txt")
                 (app.filename (app.mkUploadFile (u "notes.txt") (u "notes"))) = true)
    by (vm_compute; reflexivity).
  assert (Hd : app.decode_utf8
                 (app.file_bytes (app.mkUploadFile (u "notes.txt") (u "notes")))
               = Return (u "notes")) by (vm_compute; reflexivity).
  split; [rewrite Hconv; vm_compute; reflexivity|].
  split; [rewrite (Htext _ Hg Hb); vm_compute; reflexivity|].
  split; [rewrite (Hfile _ Hn Hd Hb); vm_compute; reflexivity|].
  split; [rewrite Hconv'; vm_compute; reflexivity|].
  rewrite (Htext' _ Hg Hb). vm_compute. reflexivity.
Defined.

(** X20. When [parser.parse] recovers from the model's reply to the first
    call an object that holds all seven required keys, whatever the layout
    of the reply, [convert_text_to_json] of converter.py returns that object
    as it is, after this one call and without printing or sleeping.  The
    strings of the object are assumed to hold no high surrogate directly
    followed by a low one. *)
Theorem converter_accepts_complete_reply (endpoint : str -> ChatHuggingFace)
    (raw_text repo_id : str) (max_retries : Z) (w : world) (r : response) (d : dict) :
  (0 <= max_retries)%Z ->
  endpoint repo_id (calls w) (converter_prompt_before ++ raw_text ++ converter_prompt_after)
  = Return r ->
  langchain.parse (text_of r) = Return (PyDict d) ->
  wf_value (PyDict d) = true ->
  forallb (fun k => dict_contains k d) required_keys = true ->
  converter.convert_text_to_json endpoint raw_text repo_id max_retries w
  = (Return (PyDict d),
     mkWorld (S (calls w))
       (trace w ++ [Invoked (converter_prompt_before ++ raw_text ++ converter_prompt_after)])).
Proof.
  intros Hmax Hreply Hparse Hwf Hkeys.
  rewrite converter_convert_unfold.
  destruct (Z.to_nat (max_retries + 1)) as [|n] eqn:Hn; [lia|].
  apply converter_attempts_first.
  rewrite (converter_chain_outcome_reply _ _ _ r (PyDict d) Hreply Hparse).
  unfold converter.validate_json. rewrite (loads_dumps true _ Hwf).
  apply check_keys_complete. now apply forallb_has_key.
Qed.

(** A compact reply, without a blank after the commas and colons. *)
Lemma converter_accepts_complete_reply_witness :
  let reply :=
    u "{\x22date\x22:\x221 nov\x22,\x22branding_priorities\x22:1,\x22cleaning_slots\x22:\x2211 pm\x22,\x22stabling_geometry\x22:null,\x22fitness_certificates\x22:[\x2227 nov\x22],\x22job_card_status\x22:\x22open\x22,\x22mileage\x22:1200}" in
  let d : dict :=
    [(u "date", PyStr (u "1 nov")); (u "branding_priorities", PyInt 1);
     (u "cleaning_slots", PyStr (u "11 pm")); (u "stabling_geometry", PyNone);
     (u "fitness_certificates", PyList [PyStr (u "27 nov")]);
     (u "job_card_status", PyStr (u "open")); (u "mileage", PyInt 1200)] in
  let endpoint : str -> ChatHuggingFace := fun _ _ _ => Return (OtherResult reply) in
  converter.convert_text_to_json endpoint (u "notes") REPO_ID 0 (mkWorld 0 [])
  = (Return (PyDict d),
     mkWorld 1 [Invoked (converter_prompt_before ++ u "notes" ++ converter_prompt_after)]).
Proof.
  intros reply d endpoint.
  apply (converter_accepts_complete_reply endpoint (u "notes") REPO_ID 0 (mkWorld 0 [])
           (OtherResult reply) d).
  - lia.
  - reflexivity.
  - vm_compute. reflexivity.
  - vm_compute. reflexivity.
  - vm_compute. reflexivity.
Defined.

Lemma check_keys_dict (keys : list str) (d : dict) :
  forallb (fun k => dict_contains k d) keys = false ->
  exists k, In k keys /\ dict_contains k d = false
    /\ converter.check_keys keys (PyDict d)
       = Raise (mkExn ValueError (u "Missing key: " ++ k)).
Proof.
  induction keys as [|k rest IH]; cbn [forallb converter.check_keys py_contains bind];
    [discriminate|].
  destruct (dict_contains k d) eqn:Hk; cbn [negb andb].
  - intros H. destruct (IH H) as (k' & Hin & Hk' & Hr).
    exists k'. split; [now right | auto].
  - intros _. exists k. split; [now left | auto].
Qed.

(** X21. converter.py completes nothing: when [parser.parse] recovers from
    every reply of the model an object that lacks a required key, whatever
    the layout of the replies, [convert_text_to_json] of converter.py makes
    [max_retries + 1] calls and then raises the [ValueError] that names a
    required key.  The strings of the objects are assumed to hold no high
    surrogate directly followed by a low one. *)
Theorem converter_rejects_incomplete_replies (endpoint : str -> ChatHuggingFace)
    (raw_text repo_id : str) (max_retries : Z) (w : world) :
  (0 <= max_retries)%Z ->
  (forall i prompt, exists r d,
      endpoint repo_id i prompt = Return r
      /\ langchain.parse (text_of r) = Return (PyDict d)
      /\ wf_value (PyDict d) = true
      /\ forallb (fun k => dict_contains k d) required_keys = false) ->
  exists k w',
    In k required_keys
    /\ converter.convert_text_to_json endpoint raw_text repo_id max_retries w
       = (Raise (mkExn ValueError (u "Missing key: " ++ k)), w')
    /\ invocations (trace w')
       = (invocations (trace w) + Z.to_nat (max_retries + 1))%nat.
Proof.
  intros Hmax Hmodel.
  set (p := converter_prompt_before ++ raw_text ++ converter_prompt_after).
  assert (Hout : forall i, exists k,
             In k required_keys
             /\ converter_chain_outcome (endpoint repo_id) raw_text i
                = Raise (mkExn ValueError (u "Missing key: " ++ k))).
  { intros i. destruct (Hmodel i p) as (r & d & Hr & Hparse & Hwf & Hkeys).
    rewrite (converter_chain_outcome_reply _ _ _ r (PyDict d) Hr Hparse).
    unfold converter.validate_json. rewrite (loads_dumps true _ Hwf).
    destruct (check_keys_dict _ _ Hkeys) as (k & Hin & _ & Hraise).
    now exists k. }
  assert (Hfail : forall i, exists e,
             converter_chain_outcome (endpoint repo_id) raw_text i = Raise e).
  { intros i. destruct (Hout i) as (k & _ & Hk). eexists. exact Hk. }
  rewrite converter_convert_unfold.
  destruct (converter_attempts_fail (endpoint repo_id) raw_text max_retries Hfail
              (Z.to_nat (max_retries + 1)) 0%Z w)
    as (e & w' & Hrun & Hcalls & Hinv & Hlast); [lia | lia |].
  destruct (Hout (calls w + Z.to_nat (max_retries + 1) - 1)%nat) as (k & Hin & Hk).
  assert (e = mkExn ValueError (u "Missing key: " ++ k)) by congruence. subst e.
  exists k, w'. auto.
Qed.

(** An indented reply, as [json.dumps(..., indent=2)] would lay it out. *)
Lemma converter_rejects_incomplete_replies_witness :
  let endpoint : str -> ChatHuggingFace :=
    fun _ _ _ => Return (AIMessage (u "{\n  \x22date\x22: \x221 nov\x22,\n  \x22mileage\x22: 1200\n}")) in
  exists k w',
    In k required_keys
    /\ converter.convert_text_to_json endpoint (u "notes") REPO_ID 2 (mkWorld 0 [])
       = (Raise (mkExn ValueError (u "Missing key: " ++ k)), w')
    /\ invocations (trace w')
       = (invocations (trace (mkWorld 0 [])) + Z.to_nat (2 + 1))%nat.
Proof.
  intros endpoint.
  apply (converter_rejects_incomplete_replies endpoint (u "notes") REPO_ID 2 (mkWorld 0 [])).
  - lia.
  - intros i prompt.
    exists (AIMessage (u "{\n  \x22date\x22: \x221 nov\x22,\n  \x22mileage\x22: 1200\n}")).
    exists [(u "date", PyStr (u "1 nov")); (u "mileage", PyInt 1200)].
    split; [reflexivity|]. split; [vm_compute; reflexivity|].
    split; vm_compute; reflexivity.
Defined.

(** ** What the scanner builds from printable text *)

Lemma skip_ws_printable (s : str) : Forall printable s -> Forall printable (json.skip_ws s).
Proof.
  induction 1 as [|c r Hc Hr IH]; cbn [json.skip_ws]; [constructor|].
  destruct (json.is_ws c); [exact IH | now constructor].
Qed.

Lemma skipn_printable (n : nat) (s : str) : Forall printable s -> Forall printable (skipn n s).
Proof.
  revert s. induction n as [|n IH]; intros s H; [exact H|].
  destruct s as [|c r]; [constructor|]. cbn [skipn]. apply IH. now apply Forall_inv_tail in H.
Qed.

Lemma scan_digits_printable (s : str) (d : uint) (r : str) :
  Forall printable s -> scan_digits s = (d, r) -> Forall printable r.
Proof.
  intros Hs. revert d r. induction Hs as [|c s Hc Hs IH]; intros d r H; cbn [scan_digits] in H.
  - injection H as <- <-. constructor.
  - destruct (digit_of_char c).
    + destruct (scan_digits s) as [d0 r0]. injection H as <- <-. now apply (IH d0).
    + injection H as <- <-. now constructor.
Qed.

Lemma hexval_bound (c : char) (n : N) : json.hexval c = Some n -> n < 16.
Proof.
  unfold json.hexval.
  destruct ((48 <=? c) && (c <=? 57)) eqn:E1.
  { apply andb_true_iff in E1. destruct E1 as [H1 H2].
    apply N.leb_le in H1. apply N.leb_le in H2. intros H. injection H as <-. lia. }
  destruct ((97 <=? c) && (c <=? 102)) eqn:E2.
  { apply andb_true_iff in E2. destruct E2 as [H1 H2].
    apply N.leb_le in H1. apply N.leb_le in H2. intros H. injection H as <-. lia. }
  destruct ((65 <=? c) && (c <=? 70)) eqn:E3; [|discriminate].
  apply andb_true_iff in E3. destruct E3 as [H1 H2].
  apply N.leb_le in H1. apply N.leb_le in H2. intros H. injection H as <-. lia.
Qed.

Lemma hex4_bound (a b c d : char) (n : N) : json.hex4 a b c d = Some n -> n < 65536.
Proof.
  unfold json.hex4.
  destruct (json.hexval a) as [x|] eqn:Ha; [|discriminate].
  destruct (json.hexval b) as [y|] eqn:Hb; [|discriminate].
  destruct (json.hexval c) as [z|] eqn:Hc; [|discriminate].
  destruct (json.hexval d) as [t|] eqn:Hd; [|discriminate].
  apply hexval_bound in Ha, Hb, Hc, Hd. intros H. injection H as <-. lia.
Qed.

Lemma surrogate_bounds (c : N) :
  (json.is_high_surrogate c = true -> 55296 <= c <= 56319)
  /\ (json.is_low_surrogate c = true -> 56320 <= c <= 57343).
Proof.
  unfold json.is_high_surrogate, json.is_low_surrogate. split; intros H;
    apply andb_true_iff in H; destruct H as [H1 H2];
    apply N.leb_le in H1; apply N.leb_le in H2; lia.
Qed.

Lemma not_surrogate_small (c : N) :
  c < 55296 -> json.is_high_surrogate c = false /\ json.is_low_surrogate c = false.
Proof.
  intros H. unfold json.is_high_surrogate, json.is_low_surrogate.
  split; apply andb_false_iff; left; apply N.leb_gt; lia.
Qed.

Lemma high_not_low (c : N) :
  json.is_high_surrogate c = true -> json.is_low_surrogate c = false.
Proof.
  intros H. apply surrogate_bounds in H. unfold json.is_low_surrogate.
  apply andb_false_iff. left. apply N.leb_gt. lia.
Qed.

Lemma wf_str_cons (c : char) (t : str) :
  c <= 1114111 ->
  (json.is_high_surrogate c = true -> starts_with_low_surrogate t = false) ->
  wf_str t = true ->
  wf_str (c :: t) = true.
Proof.
  intros Hc Hpair Ht. cbn [wf_str]. rewrite Ht, andb_true_r.
  apply andb_true_iff. split; [now apply N.leb_le|].
  apply negb_true_iff.
  destruct (json.is_high_surrogate c); [now rewrite Hpair | reflexivity].
Qed.

Lemma BACKSLASH_small (e ch : char) : json.BACKSLASH e = Some ch -> ch < 128.
Proof.
  unfold json.BACKSLASH.
  repeat match goal with
  | |- (if ?b then _ else _) = _ -> _ => destruct b
  end; intros H; try discriminate H; injection H as <-; lia.
Qed.

(** [scanstring] on printable text: the string it builds is well formed,
    and it starts with a low surrogate only when the text starts with the
    escape of one. *)
Lemma scanstring_printable (strict : bool) (n : nat) :
  forall s t r,
    (List.length s <= n)%nat ->
    Forall printable s ->
    json.scanstring strict s = Return (t, r) ->
    wf_str t = true
    /\ Forall printable r
    /\ (starts_with_low_surrogate t = true ->
        exists g1 g2 g3 g4 x r3 c,
          s = 92 :: 117 :: g1 :: g2 :: g3 :: g4 :: x :: r3
          /\ json.hex4 g1 g2 g3 g4 = Some c /\ json.is_low_surrogate c = true).
Proof.
  induction n as [|n IH]; intros s t r Hn Hs H.
  - destruct s; [discriminate H | simpl in Hn; lia].
  - destruct s as [|c s]; [discriminate H|].
    cbn [json.scanstring] in H.
    pose proof (Forall_inv Hs) as Hc. pose proof (Forall_inv_tail Hs) as Hs'.
    unfold printable in Hc.
    destruct (N.eqb_spec c 34) as [->|Hq].
    { injection H as <- <-. split; [reflexivity|]. split; [exact Hs'|]. discriminate. }
    destruct (N.eqb_spec c 92) as [->|Hb].
    + destruct s as [|e r1]; [discriminate H|].
      destruct (N.eqb_spec e 117) as [->|He].
      * destruct r1 as [|h1 [|h2 [|h3 [|h4 [|x0 r2']]]]]; try discriminate H.
        set (r2 := x0 :: r2') in *.
        assert (Hr2 : Forall printable r2).
        { do 5 apply Forall_inv_tail in Hs'. exact Hs'. }
        assert (Hlen2 : (List.length r2 <= n)%nat) by (simpl in Hn |- *; lia).
        destruct (json.hex4 h1 h2 h3 h4) as [uni|] eqn:Hhex; [|discriminate H].
        pose proof (hex4_bound _ _ _ _ _ Hhex) as Huni.
        assert (Hplain : forall t' r',
                   json.scanstring strict r2 = Return (t', r') ->
                   (json.is_high_surrogate uni = true ->
                    starts_with_low_surrogate t' = false) ->
                   wf_str (uni :: t') = true /\ Forall printable r'
                   /\ (starts_with_low_surrogate (uni :: t') = true ->
                       exists g1 g2 g3 g4 x r3 c,
                         92 :: 117 :: h1 :: h2 :: h3 :: h4 :: r2
                         = 92 :: 117 :: g1 :: g2 :: g3 :: g4 :: x :: r3
                         /\ json.hex4 g1 g2 g3 g4 = Some c
                         /\ json.is_low_surrogate c = true)).
        { intros t' r' Hscan Hpair.
          destruct (IH _ _ _ Hlen2 Hr2 Hscan) as (Hwf & Hr' & _).
          split; [apply wf_str_cons; [lia | exact Hpair | exact Hwf]|].
          split; [exact Hr'|].
          cbn [starts_with_low_surrogate]. intros Hlow.
          exists h1, h2, h3, h4, x0, r2', uni. auto. }
        assert (Hcons : forall t0,
                   json.cons_char uni (json.scanstring strict r2) = Return (t0, r) ->
                   exists t', t0 = uni :: t' /\ json.scanstring strict r2 = Return (t', r)).
        { intros t0 Hc0. destruct (json.scanstring strict r2) as [[t' r']|e0];
            [|discriminate Hc0].
          cbn [json.cons_char bind] in Hc0. injection Hc0 as <- <-. now exists t'. }
        destruct (json.is_high_surrogate uni) eqn:Hhigh.
        -- (* a high surrogate: joined with the escape of a low one *)
           assert (Hnolow : forall t' r',
                      json.scanstring strict r2 = Return (t', r') ->
                      (forall g1 g2 g3 g4 x r3 c,
                          r2 = 92 :: 117 :: g1 :: g2 :: g3 :: g4 :: x :: r3 ->
                          json.hex4 g1 g2 g3 g4 = Some c ->
                          json.is_low_surrogate c = true -> False) ->
                      starts_with_low_surrogate t' = false).
           { intros t' r' Hscan Hno.
             destruct (starts_with_low_surrogate t') eqn:Hst; [|reflexivity].
             destruct (IH _ _ _ Hlen2 Hr2 Hscan) as (_ & _ & Hhead).
             destruct (Hhead Hst) as (g1 & g2 & g3 & g4 & x & r3 & c & Heq & Hh & Hl).
             destruct (Hno _ _ _ _ _ _ _ Heq Hh Hl). }
           destruct r2' as [|v [|g1 [|g2 [|g3 [|g4 [|x1 r3']]]]]];
             try (apply Hcons in H; destruct H as (t' & -> & Hscan);
                  apply (Hplain _ _ Hscan); intros _;
                  apply (Hnolow _ _ Hscan); intros; subst r2; discriminate).
           subst r2.
           destruct ((x0 =? 92) && (v =? 117)) eqn:Hbv.
           ++ destruct (json.hex4 g1 g2 g3 g4) as [uni2|] eqn:Hhex2; [|discriminate H].
              destruct (json.is_low_surrogate uni2) eqn:Hlow2.
              ** destruct (json.scanstring strict (x1 :: r3')) as [[t3 r']|e0] eqn:Hscan;
                   [|discriminate H].
                 cbn [json.cons_char bind] in H. injection H as <- <-.
                 assert (Hr3 : Forall printable (x1 :: r3')).
                 { do 6 apply Forall_inv_tail in Hr2. exact Hr2. }
                 assert (Hlen3 : (List.length (x1 :: r3') <= n)%nat) by (simpl in Hn |- *; lia).
                 destruct (IH _ _ _ Hlen3 Hr3 Hscan) as (Hwf & Hr' & _).
                 apply surrogate_bounds in Hhigh. apply surrogate_bounds in Hlow2.
                 assert (Hj : 65536 <= json.join_surrogates uni uni2 <= 1114111)
                   by (unfold json.join_surrogates; lia).
                 split.
                 { apply wf_str_cons; [lia | | exact Hwf].
                   intros Hh. apply surrogate_bounds in Hh. lia. }
                 split; [exact Hr'|].
                 cbn [starts_with_low_surrogate]. intros Hl.
                 apply surrogate_bounds in Hl. lia.
              ** apply Hcons in H. destruct H as (t' & -> & Hscan).
                 apply (Hplain _ _ Hscan). intros _.
                 apply (Hnolow _ _ Hscan).
                 intros a1 a2 a3 a4 x r3 c Heq Hh Hl.
                 injection Heq as E1 E2 E3 E4 E5 E6 E7 E8. subst. congruence.
           ++ apply Hcons in H. destruct H as (t' & -> & Hscan).
              apply (Hplain _ _ Hscan). intros _.
              apply (Hnolow _ _ Hscan).
              intros a1 a2 a3 a4 x r3 c Heq Hh Hl.
              injection Heq as E1 E2 E3 E4 E5 E6 E7 E8. subst. discriminate Hbv.
        -- apply Hcons in H. destruct H as (t' & -> & Hscan).
           apply (Hplain _ _ Hscan). discriminate.
      * destruct (json.BACKSLASH e) as [ch|] eqn:Hbs; [|discriminate H].
        apply BACKSLASH_small in Hbs.
        destruct (json.scanstring strict r1) as [[t' r']|e0] eqn:Hscan; [|discriminate H].
        cbn [json.cons_char bind] in H. injection H as <- <-.
        assert (Hr1 : Forall printable r1) by (now apply Forall_inv_tail in Hs').
        assert (Hlen1 : (List.length r1 <= n)%nat) by (simpl in Hn |- *; lia).
        destruct (IH _ _ _ Hlen1 Hr1 Hscan) as (Hwf & Hr' & _).
        destruct (not_surrogate_small ch ltac:(lia)) as [Hnh Hnl].
        split; [apply wf_str_cons; [lia | congruence | exact Hwf]|].
        split; [exact Hr'|]. cbn [starts_with_low_surrogate]. congruence.
    + destruct (strict && (c <? 32)); [discriminate H|].
      destruct (json.scanstring strict s) as [[t' r']|e0] eqn:Hscan; [|discriminate H].
      cbn [json.cons_char bind] in H. injection H as <- <-.
      assert (Hlen0 : (List.length s <= n)%nat) by (simpl in Hn |- *; lia).
      destruct (IH _ _ _ Hlen0 Hs' Hscan) as (Hwf & Hr' & _).
      destruct (not_surrogate_small c ltac:(lia)) as [Hnh Hnl].
      split; [apply wf_str_cons; [lia | congruence | exact Hwf]|].
      split; [exact Hr'|]. cbn [starts_with_low_surrogate]. congruence.
Qed.

Lemma scanstring_printable' (strict : bool) (s t r : str) :
  Forall printable s ->
  json.scanstring strict s = Return (t, r) ->
  wf_str t = true /\ Forall printable r.
Proof.
  intros Hs H.
  destruct (scanstring_printable strict (List.length s) s t r (le_n _) Hs H) as (Hw & Hr & _).
  auto.
Qed.

Lemma scan_int_part_printable (s : str) (n : N) (r : str) :
  Forall printable s -> json.scan_int_part s = Some (n, r) -> Forall printable r.
Proof.
  intros Hs. unfold json.scan_int_part. destruct s as [|c s0]; [discriminate|].
  destruct (c =? 48).
  - intros H. injection H as <- <-. now apply Forall_inv_tail in Hs.
  - destruct (digit_of_char c); [|discriminate].
    destruct (scan_digits (c :: s0)) as [d r0] eqn:E. intros H. injection H as <- <-.
    now apply (scan_digits_printable _ _ _ Hs E).
Qed.

Lemma scan_frac_printable (s : str) (frac : option uint) (r : str) :
  Forall printable s -> json.scan_frac s = (frac, r) ->
  Forall printable r /\ match frac with Some d => has_digits d = true | None => True end.
Proof.
  intros Hs. unfold json.scan_frac. destruct s as [|c s0].
  - intros H. injection H as <- <-. auto.
  - destruct (c =? 46); [|intros H; injection H as <- <-; auto].
    destruct (scan_digits s0) as [d r0] eqn:E.
    apply Forall_inv_tail in Hs as Hs0.
    pose proof (scan_digits_printable _ _ _ Hs0 E) as Hr0.
    destruct d; intros H; injection H as <- <-; auto.
Qed.

Lemma scan_exp_printable (s : str) (exp : option (exp_sign * uint)) (r : str) :
  Forall printable s -> json.scan_exp s = (exp, r) ->
  Forall printable r
  /\ match exp with Some (_, d) => has_digits d = true | None => True end.
Proof.
  intros Hs. unfold json.scan_exp. destruct s as [|c s0].
  - intros H. injection H as <- <-. auto.
  - destruct ((c =? 101) || (c =? 69)); [|intros H; injection H as <- <-; auto].
    apply Forall_inv_tail in Hs as Hs0.
    destruct (json.scan_sign s0) as [sg r1] eqn:Esg.
    assert (Hr1 : Forall printable r1).
    { unfold json.scan_sign in Esg. destruct s0 as [|c1 s1]; [injection Esg as <- <-; auto|].
      apply Forall_inv_tail in Hs0 as Hs1.
      destruct (c1 =? 43); [injection Esg as <- <-; auto|].
      destruct (c1 =? 45); injection Esg as <- <-; auto. }
    destruct (scan_digits r1) as [d r2] eqn:E.
    pose proof (scan_digits_printable _ _ _ Hr1 E) as Hr2.
    destruct d; intros H; injection H as <- <-; auto.
Qed.

Lemma match_number_printable (s : str) (v : value) (r : str) :
  Forall printable s -> json.match_number s = Some (v, r) ->
  wf_value v = true /\ Forall printable r.
Proof.
  intros Hs. unfold json.match_number.
  assert (Hgen : forall (neg : bool) (s1 : str),
             Forall printable s1 ->
             match json.scan_int_part s1 with
             | Some (n, r0) =>
                 let (frac, r1) := json.scan_frac r0 in
                 let (exp, r2) := json.scan_exp r1 in
                 Some (json.number_value neg n frac exp, r2)
             | None => None
             end = Some (v, r) ->
             wf_value v = true /\ Forall printable r).
  { intros neg s1 Hs1.
    destruct (json.scan_int_part s1) as [[n r0]|] eqn:Ei; [|discriminate].
    pose proof (scan_int_part_printable _ _ _ Hs1 Ei) as Hr0.
    destruct (json.scan_frac r0) as [frac r1] eqn:Ef.
    destruct (scan_frac_printable _ _ _ Hr0 Ef) as [Hr1 Hfrac].
    destruct (json.scan_exp r1) as [exp r2] eqn:Ex.
    destruct (scan_exp_printable _ _ _ Hr1 Ex) as [Hr2 Hexp].
    intros H. injection H as <- <-. split; [|exact Hr2].
    unfold json.number_value.
    destruct frac as [d|]; destruct exp as [[sg d']|]; cbn [wf_value wf_float];
      try rewrite Hfrac; try rewrite Hexp; reflexivity. }
  destruct s as [|c s0]; [apply (Hgen false []); constructor|].
  destruct (c =? 45).
  - apply Hgen. now apply Forall_inv_tail in Hs.
  - now apply Hgen.
Qed.

(** *** Dictionaries built from scanned pairs *)

Lemma wf_list_intro (l : list value) :
  Forall (fun x => wf_value x = true) l -> wf_value (PyList l) = true.
Proof.
  induction 1 as [|x l Hx Hl IH]; [reflexivity|].
  rewrite wf_list_cons, Hx. exact IH.
Qed.

Lemma wf_dict_intro (d : dict) :
  unique (keys d) = true -> Forall wf_entry d -> wf_value (PyDict d) = true.
Proof.
  intros Hu Hall. cbn [wf_value]. rewrite Hu. cbn [andb]. clear Hu.
  induction Hall as [|[k x] r [Hk Hx] Hr IH]; [reflexivity|].
  cbn [fst snd] in Hk, Hx. rewrite Hk, Hx. exact IH.
Qed.

Lemma wf_dict_elim (d : dict) :
  wf_value (PyDict d) = true -> unique (keys d) = true /\ Forall wf_entry d.
Proof.
  induction d as [|[k x] d IH]; intros H; [split; [reflexivity | constructor]|].
  pose proof H as H0. apply wf_dict_cons in H. destruct H as (Hk & Hx & Hd).
  cbn [wf_value] in H0. apply andb_true_iff in H0. destruct H0 as [Hu _].
  split; [exact Hu|]. constructor; [split; assumption | now apply IH].
Qed.

Lemma keys_dict_set (a k : str) (v : value) (d : dict) :
  existsb (str_eqb a) (keys (dict_set k v d))
  = existsb (str_eqb a) (keys d) || str_eqb a k.
Proof.
  induction d as [|[k' v'] d IH]; cbn [dict_set keys map fst existsb].
  - now rewrite orb_false_r.
  - destruct (str_eqb k k') eqn:E; cbn [keys map fst existsb].
    + apply str_eqb_eq in E. subst k'.
      destruct (str_eqb a k); cbn; [reflexivity | now rewrite orb_false_r].
    + fold (keys (dict_set k v d)). fold (keys d). rewrite IH.
      now rewrite orb_assoc.
Qed.

Lemma unique_dict_set (k : str) (v : value) (d : dict) :
  unique (keys d) = true -> unique (keys (dict_set k v d)) = true.
Proof.
  induction d as [|[k' v'] d IH]; cbn [dict_set keys map fst unique]; intros H.
  - reflexivity.
  - fold (keys d) in H. apply andb_true_iff in H. destruct H as [Hk' Hu].
    destruct (str_eqb k k') eqn:E; cbn [keys map fst unique].
    + apply str_eqb_eq in E. subst k'. fold (keys d). now rewrite Hk', Hu.
    + fold (keys (dict_set k v d)). rewrite (IH Hu), andb_true_r.
      rewrite keys_dict_set. apply negb_true_iff in Hk'. rewrite Hk'. cbn [orb].
      apply negb_true_iff.
      destruct (str_eqb k' k) eqn:E'; [|reflexivity].
      apply str_eqb_eq in E'. subst k'. now rewrite str_eqb_refl in E.
Qed.

Lemma wf_entries_dict_set (k : str) (v : value) (d : dict) :
  wf_entry (k, v) -> Forall wf_entry d -> Forall wf_entry (dict_set k v d).
Proof.
  intros Hkv. induction 1 as [|[k' v'] d Hx Hd IH]; cbn [dict_set].
  - apply Forall_cons; [exact Hkv | apply Forall_nil].
  - destruct (str_eqb k k'); apply Forall_cons; assumption.
Qed.

Lemma wf_dict_of_pairs (pairs : list (str * value)) :
  Forall wf_entry pairs -> wf_value (PyDict (dict_of_pairs pairs)) = true.
Proof.
  intros Hp. unfold dict_of_pairs.
  assert (Hgen : forall acc : dict,
             unique (keys acc) = true -> Forall wf_entry acc ->
             unique (keys (fold_left (fun d kv => dict_set (fst kv) (snd kv) d) pairs acc)) = true
             /\ Forall wf_entry (fold_left (fun d kv => dict_set (fst kv) (snd kv) d) pairs acc)).
  { induction Hp as [|[k v] pairs Hkv Hrest IH]; intros acc Hu Ha; cbn [fold_left fst snd].
    - auto.
    - apply IH; [now apply unique_dict_set | now apply wf_entries_dict_set]. }
  destruct (Hgen [] eq_refl (Forall_nil _)) as [Hu Ha].
  now apply wf_dict_intro.
Qed.

(** *** The scanner *)

Lemma skip_ws_cons_printable (s : str) (c : char) (r : str) :
  Forall printable s -> json.skip_ws s = c :: r -> Forall printable r.
Proof.
  intros Hs E. pose proof (skip_ws_printable s Hs) as H. rewrite E in H.
  now apply Forall_inv_tail in H.
Qed.

Ltac skipped Hs :=
  first [ exact (skipn_printable 3 _ Hs) | exact (skipn_printable 4 _ Hs)
        | exact (skipn_printable 5 _ Hs) | exact (skipn_printable 8 _ Hs)
        | exact (skipn_printable 9 _ Hs) ].

Lemma scan_printable (fuel : nat) :
  (forall strict s v r,
      Forall printable s -> json.scan_once fuel strict s = Return (v, r) ->
      wf_value v = true /\ Forall printable r)
  /\ (forall strict s ps r,
        Forall printable s -> json.object_members fuel strict s = Return (ps, r) ->
        Forall wf_entry ps /\ Forall printable r)
  /\ (forall strict s vs r,
        Forall printable s -> json.array_items fuel strict s = Return (vs, r) ->
        Forall (fun x => wf_value x = true) vs /\ Forall printable r).
Proof.
  induction fuel as [|f (IHs & IHo & IHa)].
  - repeat split; intros; discriminate.
  - split; [|split].
    + intros strict s v r Hs H. cbn [json.scan_once] in H.
      destruct s as [|c s0]; [discriminate|].
      pose proof (Forall_inv_tail Hs) as Hs0.
      destruct (c =? 34).
      { destruct (json.scanstring strict s0) as [[t r']|e] eqn:E; [|discriminate H].
        cbn [bind] in H. injection H as <- <-.
        now apply (scanstring_printable' _ _ _ _ Hs0) in E. }
      destruct (c =? 123).
      { destruct (json.skip_ws s0) as [|c1 r1] eqn:Ews; [discriminate H|].
        pose proof (skip_ws_printable s0 Hs0) as Hws. rewrite Ews in Hws.
        destruct (c1 =? 125).
        - injection H as <- <-. split; [reflexivity | now apply Forall_inv_tail in Hws].
        - destruct (json.object_members f strict (c1 :: r1)) as [[ps r']|e] eqn:E;
            [|discriminate H].
          cbn [bind] in H. injection H as <- <-.
          apply (IHo _ _ _ _ Hws) in E. destruct E as [Hps Hr'].
          split; [now apply wf_dict_of_pairs | exact Hr']. }
      destruct (c =? 91).
      { destruct (json.skip_ws s0) as [|c1 r1] eqn:Ews; [discriminate H|].
        pose proof (skip_ws_printable s0 Hs0) as Hws. rewrite Ews in Hws.
        destruct (c1 =? 93).
        - injection H as <- <-. split; [reflexivity | now apply Forall_inv_tail in Hws].
        - destruct (json.array_items f strict (c1 :: r1)) as [[vs r']|e] eqn:E;
            [|discriminate H].
          cbn [bind] in H. injection H as <- <-.
          apply (IHa _ _ _ _ Hws) in E. destruct E as [Hvs Hr'].
          split; [now apply wf_list_intro | exact Hr']. }
      destruct (startswith (u "null") (c :: s0));
        [injection H as <- <-; split; [reflexivity | skipped Hs]|].
      destruct (startswith (u "true") (c :: s0));
        [injection H as <- <-; split; [reflexivity | skipped Hs]|].
      destruct (startswith (u "false") (c :: s0));
        [injection H as <- <-; split; [reflexivity | skipped Hs]|].
      destruct (json.match_number (c :: s0)) as [[v0 r0]|] eqn:Em.
      { injection H as <- <-. now apply (match_number_printable _ _ _ Hs) in Em. }
      destruct (startswith (u "NaN") (c :: s0));
        [injection H as <- <-; split; [reflexivity | skipped Hs]|].
      destruct (startswith (u "Infinity") (c :: s0));
        [injection H as <- <-; split; [reflexivity | skipped Hs]|].
      destruct (startswith (u "-Infinity") (c :: s0));
        [injection H as <- <-; split; [reflexivity | skipped Hs]|].
      discriminate H.
    + intros strict s ps r Hs H. cbn [json.object_members] in H.
      destruct s as [|c s0]; [discriminate|].
      pose proof (Forall_inv_tail Hs) as Hs0.
      destruct (c =? 34); [|discriminate H].
      destruct (json.scanstring strict s0) as [[k r1]|e] eqn:Ek; [|discriminate H].
      cbn [bind] in H.
      apply (scanstring_printable' _ _ _ _ Hs0) in Ek. destruct Ek as [Hk Hr1].
      destruct (json.skip_ws r1) as [|c2 r2] eqn:Ews1; [discriminate H|].
      pose proof (skip_ws_cons_printable _ _ _ Hr1 Ews1) as Hr2.
      destruct (c2 =? 58); [|discriminate H].
      destruct (json.scan_once f strict (json.skip_ws r2)) as [[v r3]|e] eqn:Ev;
        [|discriminate H].
      cbn [bind] in H.
      apply (IHs _ _ _ _ (skip_ws_printable _ Hr2)) in Ev. destruct Ev as [Hv Hr3].
      destruct (json.skip_ws r3) as [|c4 r4] eqn:Ews3; [discriminate H|].
      pose proof (skip_ws_cons_printable _ _ _ Hr3 Ews3) as Hr4.
      destruct (c4 =? 125).
      { injection H as <- <-. split; [|exact Hr4].
        apply Forall_cons; [split; assumption | apply Forall_nil]. }
      destruct (c4 =? 44); [|discriminate H].
      destruct (json.object_members f strict (json.skip_ws r4)) as [[rest r5]|e] eqn:Er;
        [|discriminate H].
      cbn [bind] in H. injection H as <- <-.
      apply (IHo _ _ _ _ (skip_ws_printable _ Hr4)) in Er. destruct Er as [Hrest Hr5].
      split; [|exact Hr5]. apply Forall_cons; [split; assumption | exact Hrest].
    + intros strict s vs r Hs H. cbn [json.array_items] in H.
      destruct (json.scan_once f strict s) as [[v r1]|e] eqn:Ev; [|discriminate H].
      cbn [bind] in H.
      apply (IHs _ _ _ _ Hs) in Ev. destruct Ev as [Hv Hr1].
      destruct (json.skip_ws r1) as [|c2 r2] eqn:Ews; [discriminate H|].
      pose proof (skip_ws_cons_printable _ _ _ Hr1 Ews) as Hr2.
      destruct (c2 =? 93).
      { injection H as <- <-. split; [|exact Hr2].
        apply Forall_cons; [assumption | apply Forall_nil]. }
      destruct (c2 =? 44); [|discriminate H].
      destruct (json.array_items f strict (json.skip_ws r2)) as [[rest r3]|e] eqn:Er;
        [|discriminate H].
      cbn [bind] in H. injection H as <- <-.
      apply (IHa _ _ _ _ (skip_ws_printable _ Hr2)) in Er. destruct Er as [Hrest Hr3].
      split; [|exact Hr3]. apply Forall_cons; assumption.
Qed.

(** [json.loads] builds a well-formed value from printable text. *)
Lemma loads_printable (strict : bool) (s : str) (v : value) :
  Forall printable s -> json.loads strict s = Return v -> wf_value v = true.
Proof.
  intros Hs. unfold json.loads.
  destruct (startswith [65279] s); [discriminate|].
  destruct (json.scan_once (json.fuel_for s) strict (json.skip_ws s)) as [[v0 r]|e] eqn:E;
    [|discriminate].
  cbn [bind]. destruct (json.skip_ws r); [|discriminate].
  intros H. injection H as <-.
  now apply (proj1 (scan_printable _) _ _ _ _ (skip_ws_printable _ Hs)) in E.
Qed.

(** *** The normalizer on its own results *)

Lemma wf_missing_entries (keys : list str) :
  Forall (fun k => wf_str k = true) keys ->
  forall d : dict,
    wf_value (PyDict d) = true ->
    wf_value (PyDict (d ++ missing_entries keys d)) = true.
Proof.
  induction 1 as [|k rest Hk Hrest IH]; intros d Hwf; cbn [missing_entries].
  - now rewrite app_nil_r.
  - destruct (dict_contains k d) eqn:E; [now apply IH|].
    replace (d ++ (k, Not_specified) :: missing_entries rest (d ++ [(k, Not_specified)]))
      with ((d ++ [(k, Not_specified)]) ++ missing_entries rest (d ++ [(k, Not_specified)]))
      by now rewrite <- app_assoc.
    apply IH.
    rewrite <- (dict_set_absent k Not_specified d) by now apply dict_contains_false.
    apply wf_dict_elim in Hwf. destruct Hwf as [Hu Hall].
    apply wf_dict_intro; [now apply unique_dict_set|].
    apply wf_entries_dict_set; [|exact Hall]. split; [exact Hk | reflexivity].
Qed.

Lemma required_keys_wf : Forall (fun k => wf_str k = true) required_keys.
Proof. repeat (apply Forall_cons; [vm_compute; reflexivity|]). apply Forall_nil. Qed.

(** What [validate_json] returns on serialized data is well formed. *)
Lemma app_validate_json_wf (data v : value) :
  app.validate_json (json.dumps data) = Return v -> wf_value v = true.
Proof.
  unfold app.validate_json.
  destruct (json.loads true (json.dumps data)) as [data0|e] eqn:Hloads; [|discriminate].
  apply (loads_printable _ _ _ (dumps_printable data)) in Hloads.
  destruct data0 as [| b | z | f | s | l | d]; try discriminate.
  - rewrite fill_missing_str. destruct (forallb _ required_keys); [|discriminate].
    intros H. now injection H as <-.
  - rewrite fill_missing_list. destruct (forallb _ required_keys); [|discriminate].
    intros H. now injection H as <-.
  - rewrite fill_missing_dict. intros H.
    assert (Hv : v = PyDict (d ++ missing_entries required_keys d)) by congruence.
    rewrite Hv. apply wf_missing_entries; [apply required_keys_wf | exact Hloads].
Qed.

Lemma converter_validate_json_wf (data v : value) :
  converter.validate_json (json.dumps data) = Return v -> wf_value v = true.
Proof.
  intros H. apply converter_validate_json_inv in H. destruct H as [Hloads _].
  now apply (loads_printable _ _ _ (dumps_printable data)) in Hloads.
Qed.

Lemma app_normalizer_stable (data v : value) :
  app.validate_json (json.dumps data) = Return v ->
  app.validate_json (json.dumps v) = Return v.
Proof.
  intros H. apply validate_json_fixpoint.
  - now apply (app_validate_json_wf data).
  - now apply (validate_json_returns (json.dumps data)).
Qed.

Lemma converter_normalizer_stable (data v : value) :
  converter.validate_json (json.dumps data) = Return v ->
  converter.validate_json (json.dumps v) = Return v.
Proof.
  intros H. pose proof (converter_validate_json_wf _ _ H) as Hwf.
  apply converter_validate_json_inv in H. destruct H as [_ Hkeys].
  unfold converter.validate_json. rewrite (loads_dumps true v Hwf).
  now apply check_keys_complete.
Qed.

(** X22. The normalizer of [convert_text_to_json], which is
    [validate_json] applied to [json.dumps(data)], is idempotent on every
    value, with no condition on its strings: a value it returns reads back
    from its own serialization and is returned unchanged when normalized
    again, in app.py and in converter.py, so normalizing twice is
    normalizing once. *)
Theorem normalizer_idempotent (data : value) :
  (forall v, app.validate_json (json.dumps data) = Return v ->
             json.loads true (json.dumps v) = Return v
             /\ app.validate_json (json.dumps v) = Return v)
  /\ (forall v, converter.validate_json (json.dumps data) = Return v ->
                json.loads true (json.dumps v) = Return v
                /\ converter.validate_json (json.dumps v) = Return v)
  /\ bind (app.validate_json (json.dumps data))
          (fun v => app.validate_json (json.dumps v))
     = app.validate_json (json.dumps data)
  /\ bind (converter.validate_json (json.dumps data))
          (fun v => converter.validate_json (json.dumps v))
     = converter.validate_json (json.dumps data).
Proof.
  split; [|split; [|split]].
  - intros v H. split; [|now apply (app_normalizer_stable data)].
    apply loads_dumps. now apply (app_validate_json_wf data).
  - intros v H. split; [|now apply (converter_normalizer_stable data)].
    apply loads_dumps. now apply (converter_validate_json_wf data).
  - destruct (app.validate_json (json.dumps data)) as [v|e] eqn:H; [|reflexivity].
    cbn [bind]. now apply (app_normalizer_stable data).
  - destruct (converter.validate_json (json.dumps data)) as [v|e] eqn:H; [|reflexivity].
    cbn [bind]. now apply (converter_normalizer_stable data).
Qed.

Lemma normalizer_idempotent_witness :
  let data := PyDict [(u "date", PyStr [55357; 56832]); (u "date", PyInt 2)] in
  let v := PyDict [(u "date", PyInt 2);
                   (u "branding_priorities", PyStr (u "Not specified"));
                   (u "cleaning_slots", PyStr (u "Not specified"));
                   (u "stabling_geometry", PyStr (u "Not specified"));
                   (u "fitness_certificates", PyStr (u "Not specified"));
                   (u "job_card_status", PyStr (u "Not specified"));
                   (u "mileage", PyStr (u "Not specified"))] in
  json.loads true (json.dumps v) = Return v
  /\ app.validate_json (json.dumps v) = Return v.
Proof.
  intros data v. apply (proj1 (normalizer_idempotent data) v). vm_compute. reflexivity.
Defined.

(** X23. With [max_retries] at least 0, a value that [convert_text_to_json]
    returns, in either module, is stable: it reads back from its own JSON
    serialization, and [validate_json] of the same module returns it
    unchanged when applied to that serialization. *)
Theorem converted_value_is_stable (endpoint : str -> ChatHuggingFace)
    (raw_text repo_id : str) (max_retries : Z) (w w' : world) (v : value) :
  (0 <= max_retries)%Z ->
  (converter.convert_text_to_json endpoint raw_text repo_id max_retries w = (Return v, w') ->
   json.loads true (json.dumps v) = Return v
   /\ converter.validate_json (json.dumps v) = Return v)
  /\ (app.convert_text_to_json endpoint raw_text repo_id max_retries w = (Return v, w') ->
      json.loads true (json.dumps v) = Return v
      /\ app.validate_json (json.dumps v) = Return v).
Proof.
  intros Hmax. split; intros Hrun.
  - rewrite converter_convert_unfold in Hrun.
    apply converter_attempts_trace in Hrun; [|lia].
    destruct Hrun as (added & _ & _ & _ & _ & _ & [(Hn0 & _)|(_ & _ & Hv)]); [lia|].
    apply converter_chain_outcome_validated in Hv. destruct Hv as [data Hv].
    split; [|now apply (converter_normalizer_stable data)].
    apply loads_dumps. now apply (converter_validate_json_wf data).
  - rewrite app_convert_unfold in Hrun.
    apply app_attempts_trace in Hrun; [|lia].
    destruct Hrun as (added & _ & _ & _ & _ & _ & _ & [(Hn0 & _)|(_ & _ & Hv)]); [lia|].
    apply app_chain_outcome_validated in Hv. destruct Hv as [data Hv].
    split; [|now apply (app_normalizer_stable data)].
    apply loads_dumps. now apply (app_validate_json_wf data).
Qed.

Lemma converted_value_is_stable_witness :
  let endpoint : str -> ChatHuggingFace :=
    fun _ _ _ => Return (AIMessage (u "{\x22date\x22: \x22\\ud83d\\ude00\x22}")) in
  let v := PyDict [(u "date", PyStr [128512]);
                   (u "branding_priorities", PyStr (u "Not specified"));
                   (u "cleaning_slots", PyStr (u "Not specified"));
                   (u "stabling_geometry", PyStr (u "Not specified"));
                   (u "fitness_certificates", PyStr (u "Not specified"));
                   (u "job_card_status", PyStr (u "Not specified"));
                   (u "mileage", PyStr (u "Not specified"))] in
  json.loads true (json.dumps v) = Return v
  /\ app.validate_json (json.dumps v) = Return v.
Proof.
  intros endpoint v.
  apply (proj2 (converted_value_is_stable endpoint (u "notes") REPO_ID 2 (mkWorld 0 [])
                  (mkWorld 1 [Invoked (app_prompt_before ++ u "notes" ++ app_prompt_after)])
                  v ltac:(lia))).
  vm_compute. reflexivity.
Defined.

(** X25. One failure followed by a success.  In app.py a first run that
    fails with a [ValueError] is printed and the chain is run again at
    once, without a sleep and even when [max_retries] is 0; a first run
    that fails with another exception is printed, followed by a sleep of
    one second and a second run when [max_retries] is at least 1, and
    raised when [max_retries] is 0.  In converter.py every failure is
    treated in this second way. *)
Theorem retry_after_one_failure (endpoint : str -> ChatHuggingFace)
    (raw_text repo_id : str) (max_retries : Z) (w : world) (e : exn) (v : value) :
  (0 <= max_retries)%Z ->
  let app_prompt := app_prompt_before ++ raw_text ++ app_prompt_after in
  let converter_prompt := converter_prompt_before ++ raw_text ++ converter_prompt_after in
  (app_chain_outcome (endpoint repo_id) raw_text (calls w) = Raise e ->
   app_chain_outcome (endpoint repo_id) raw_text (S (calls w)) = Return v ->
   app.convert_text_to_json endpoint raw_text repo_id max_retries w
   = if is_ValueError e then
       (Return v,
        mkWorld (S (S (calls w)))
          (trace w ++ [Invoked app_prompt; Printed (attempt_failed 0 e); Invoked app_prompt]))
     else if (max_retries =? 0)%Z then
       (Raise e,
        mkWorld (S (calls w)) (trace w ++ [Invoked app_prompt; Printed (attempt_failed 0 e)]))
     else
       (Return v,
        mkWorld (S (S (calls w)))
          (trace w ++ [Invoked app_prompt; Printed (attempt_failed 0 e); Slept 1;
                       Invoked app_prompt])))
  /\ (converter_chain_outcome (endpoint repo_id) raw_text (calls w) = Raise e ->
      converter_chain_outcome (endpoint repo_id) raw_text (S (calls w)) = Return v ->
      converter.convert_text_to_json endpoint raw_text repo_id max_retries w
      = if (max_retries =? 0)%Z then
          (Raise e,
           mkWorld (S (calls w))
             (trace w ++ [Invoked converter_prompt; Printed (attempt_failed 0 e)]))
        else
          (Return v,
           mkWorld (S (S (calls w)))
             (trace w ++ [Invoked converter_prompt; Printed (attempt_failed 0 e); Slept 1;
                          Invoked converter_prompt]))).
Proof.
  intros Hmax app_prompt converter_prompt. split; intros Hfirst Hsecond.
  - rewrite app_convert_unfold.
    destruct (Z.to_nat (max_retries + 1)) as [|n] eqn:Hn; [lia|].
    cbn [app.attempts]. unfold try_except at 1. rewrite app_run_chain_step, Hfirst.
    fold app_prompt.
    destruct (is_ValueError e).
    + unfold mbind at 1. cbn [print calls trace]. unfold try_except at 1.
      rewrite app_run_chain_step. cbn [calls trace]. rewrite Hsecond.
      fold app_prompt. now repeat rewrite <- app_assoc.
    + unfold mbind at 1. cbn [print calls trace].
      change (0 =? max_retries)%Z with (Z.eqb 0 max_retries). rewrite Z.eqb_sym.
      destruct (Z.eqb_spec max_retries 0) as [H0|H0].
      * unfold throw. now repeat rewrite <- app_assoc.
      * unfold mbind at 1. cbn [sleep calls trace].
        destruct n as [|n]; [lia|].
        rewrite (app_attempts_first _ _ _ _ _ _ v) by (cbn [calls]; exact Hsecond).
        cbn [calls trace]. fold app_prompt. now repeat rewrite <- app_assoc.
  - rewrite converter_convert_unfold.
    destruct (Z.to_nat (max_retries + 1)) as [|n] eqn:Hn; [lia|].
    cbn [converter.attempts]. unfold try_except at 1.
    rewrite converter_run_chain_step, Hfirst. fold converter_prompt.
    unfold mbind at 1. cbn [print calls trace].
    change (0 =? max_retries)%Z with (Z.eqb 0 max_retries). rewrite Z.eqb_sym.
    destruct (Z.eqb_spec max_retries 0) as [H0|H0].
    + unfold throw. now repeat rewrite <- app_assoc.
    + unfold mbind at 1. cbn [sleep calls trace].
      destruct n as [|n]; [lia|].
      rewrite (converter_attempts_first _ _ _ _ _ _ v) by (cbn [calls]; exact Hsecond).
      cbn [calls trace]. fold converter_prompt. now repeat rewrite <- app_assoc.
Qed.

Lemma retry_after_one_failure_witness :
  let endpoint : str -> ChatHuggingFace :=
    fun _ i _ =>
      match i with
      | O => Return (AIMessage (u "I cannot process this request."))
      | S _ => Return (AIMessage (u "{\x22date\x22: 1, \x22branding_priorities\x22: 2, \x22cleaning_slots\x22: 3, \x22stabling_geometry\x22: 4, \x22fitness_certificates\x22: 5, \x22job_card_status\x22: 6, \x22mileage\x22: 7}"))
      end in
  let e := mkExn JSONDecodeError (u "Expecting value") in
  let v := PyDict [(u "date", PyInt 1); (u "branding_priorities", PyInt 2);
                   (u "cleaning_slots", PyInt 3); (u "stabling_geometry", PyInt 4);
                   (u "fitness_certificates", PyInt 5); (u "job_card_status", PyInt 6);
                   (u "mileage", PyInt 7)] in
  let w := mkWorld 0 [] in
  let app_prompt := app_prompt_before ++ u "notes" ++ app_prompt_after in
  let converter_prompt := converter_prompt_before ++ u "notes" ++ converter_prompt_after in
  app.convert_text_to_json endpoint (u "notes") REPO_ID 0 w
  = (Return v,
     mkWorld 2 [Invoked app_prompt; Printed (attempt_failed 0 e); Invoked app_prompt])
  /\ converter.convert_text_to_json endpoint (u "notes") REPO_ID 0 w
     = (Raise e, mkWorld 1 [Invoked converter_prompt; Printed (attempt_failed 0 e)]).
Proof.
  intros endpoint e v w app_prompt converter_prompt.
  destruct (retry_after_one_failure endpoint (u "notes") REPO_ID 0 w e v) as [Happ Hconv];
    [lia|].
  split.
  - apply Happ; vm_compute; reflexivity.
  - apply Hconv; vm_compute; reflexivity.
Defined.

(** ** The script of converter.py *)

(** *** [json.loads] reads back what [json.dumps(v, indent=n)] writes *)

Lemma items_indent_fix (indent level : nat) (l : list value) :
  (fix items (l : list value) : str :=
     match l with
     | [] => []
     | x :: r =>
         dumps_indent indent level x
         ++ match r with
            | [] => []
            | _ :: _ => [44] ++ newline_indent indent level ++ items r
            end
     end) l
  = items_indent indent level l.
Proof.
  induction l as [|y l IH]; [reflexivity|].
  cbn [items_indent]. rewrite <- IH. reflexivity.
Qed.

Lemma members_indent_fix (indent level : nat) (d : list (str * value)) :
  (fix members (d : list (str * value)) : str :=
     match d with
     | [] => []
     | (k, x) :: r =>
         json.encode_str k ++ u ": " ++ dumps_indent indent level x
         ++ match r with
            | [] => []
            | _ :: _ => [44] ++ newline_indent indent level ++ members r
            end
     end) d
  = members_indent indent level d.
Proof.
  induction d as [|[k y] d IH]; [reflexivity|].
  cbn [members_indent]. rewrite <- IH. reflexivity.
Qed.

Lemma dumps_indent_list (indent level : nat) (x : value) (l : list value) :
  dumps_indent indent level (PyList (x :: l))
  = [91] ++ newline_indent indent (S level)
    ++ items_indent indent (S level) (x :: l)
    ++ newline_indent indent level ++ [93].
Proof. rewrite <- (items_indent_fix indent (S level) (x :: l)). reflexivity. Qed.

Lemma dumps_indent_dict (indent level : nat) (kx : str * value) (d : list (str * value)) :
  dumps_indent indent level (PyDict (kx :: d))
  = [123] ++ newline_indent indent (S level)
    ++ members_indent indent (S level) (kx :: d)
    ++ newline_indent indent level ++ [125].
Proof. rewrite <- (members_indent_fix indent (S level) (kx :: d)). reflexivity. Qed.

Lemma skip_ws_blanks (n : nat) (s : str) :
  json.skip_ws (List.repeat 32 n ++ s) = json.skip_ws s.
Proof. induction n as [|n IH]; [reflexivity | exact IH]. Qed.

Lemma skip_ws_newline_indent (indent level : nat) (s : str) :
  json.skip_ws (newline_indent indent level ++ s) = json.skip_ws s.
Proof. unfold newline_indent. cbn [List.app]. apply skip_ws_blanks. Qed.

Lemma number_end_newline_indent (indent level : nat) (s : str) :
  number_end (newline_indent indent level ++ s).
Proof. cbn. repeat split; (reflexivity || discriminate). Qed.

Lemma dumps_indent_starts_value (indent level : nat) (v : value) (rest : str) :
  starts_value (dumps_indent indent level v ++ rest).
Proof.
  destruct v as [| b | z | f | s | [|x l] | [|kx d]];
    try apply (dumps_starts_value _ rest);
    cbn; repeat split; (reflexivity || discriminate).
Qed.

Lemma items_indent_starts_value (indent level : nat) (x : value) (l : list value)
    (rest : str) :
  starts_value (items_indent indent level (x :: l) ++ rest).
Proof.
  cbn [items_indent]. rewrite <- app_assoc. apply dumps_indent_starts_value.
Qed.

Lemma members_indent_starts_value (indent level : nat) (k : str) (x : value)
    (d : list (str * value)) (rest : str) :
  starts_value (members_indent indent level ((k, x) :: d) ++ rest).
Proof. cbn. repeat split; (reflexivity || discriminate). Qed.

Lemma array_items_indent (strict : bool) (rest : str) (indent level closing : nat)
    (l : list value) :
  Forall reads_back_indent l ->
  forall (x : value) (fuel : nat),
    reads_back_indent x ->
    wf_value (PyList (x :: l)) = true ->
    (List.length (items_indent indent level (x :: l)) + 1 < fuel)%nat ->
    json.array_items fuel strict
      (items_indent indent level (x :: l) ++ newline_indent indent closing ++ 93 :: rest)
    = Return (x :: l, rest).
Proof.
  induction 1 as [|y l Hy Hl IH]; intros x fuel Hx Hwf Hfuel.
  - rewrite wf_list_cons in Hwf. apply andb_true_iff in Hwf. destruct Hwf as [Hwx _].
    destruct fuel as [|f]; [lia|]. rewrite array_items_step.
    cbn [items_indent] in *. rewrite app_nil_r in *.
    rewrite (Hx Hwx indent level strict f); [|lia|apply number_end_newline_indent].
    cbn [bind]. rewrite skip_ws_newline_indent. reflexivity.
  - rewrite wf_list_cons in Hwf. apply andb_true_iff in Hwf. destruct Hwf as [Hwx Hwl].
    destruct fuel as [|f]; [lia|]. rewrite array_items_step.
    change (items_indent indent level (x :: y :: l))
      with (dumps_indent indent level x
            ++ [44] ++ newline_indent indent level ++ items_indent indent level (y :: l)) in *.
    rewrite !length_app in Hfuel. cbn [List.length] in Hfuel.
    rewrite <- !app_assoc.
    rewrite (Hx Hwx indent level strict f); [|lia|apply number_end_comma].
    cbn [bind List.app]. change (json.skip_ws (44 :: ?s)) with (44 :: s).
    cbv beta iota. change (44 =? 93) with false. change (44 =? 44) with true.
    cbv beta iota.
    rewrite skip_ws_newline_indent.
    rewrite (skip_ws_starts_value _ (items_indent_starts_value indent level y l _)).
    rewrite (IH y f Hy Hwl); [reflexivity | lia].
Qed.

Lemma object_members_indent (strict : bool) (rest : str) (indent level closing : nat)
    (d : list (str * value)) :
  Forall (fun kv => reads_back_indent (snd kv)) d ->
  forall (k : str) (x : value) (fuel : nat),
    reads_back_indent x ->
    wf_value (PyDict ((k, x) :: d)) = true ->
    (List.length (members_indent indent level ((k, x) :: d)) + 1 < fuel)%nat ->
    json.object_members fuel strict
      (members_indent indent level ((k, x) :: d)
       ++ newline_indent indent closing ++ 125 :: rest)
    = Return ((k, x) :: d, rest).
Proof.
  induction 1 as [|[k' y] d Hy Hd IH]; intros k x fuel Hx Hwf Hfuel.
  - destruct (wf_dict_cons _ _ _ Hwf) as (Hwk & Hwx & _).
    destruct fuel as [|f]; [lia|].
    cbn [members_indent] in *. rewrite app_nil_r in *.
    unfold json.encode_str in *. change (u ": ") with [58; 32] in *.
    rewrite !length_app in Hfuel. cbn [List.length] in Hfuel.
    rewrite <- !app_assoc. cbn [List.app].
    rewrite object_members_step, scanstring_encoded by exact Hwk.
    cbn [bind]. change (json.skip_ws (58 :: ?s)) with (58 :: s).
    cbv beta iota. change (58 =? 58) with true. cbv beta iota.
    change (json.skip_ws (32 :: ?s)) with (json.skip_ws s).
    rewrite (skip_ws_starts_value _ (dumps_indent_starts_value indent level x _)).
    rewrite (Hx Hwx indent level strict f); [|lia|apply number_end_newline_indent].
    cbn [bind]. rewrite skip_ws_newline_indent. reflexivity.
  - destruct (wf_dict_cons _ _ _ Hwf) as (Hwk & Hwx & Hwd).
    destruct fuel as [|f]; [lia|].
    change (members_indent indent level ((k, x) :: (k', y) :: d))
      with (json.encode_str k ++ u ": " ++ dumps_indent indent level x
            ++ [44] ++ newline_indent indent level
            ++ members_indent indent level ((k', y) :: d)) in *.
    unfold json.encode_str in *. change (u ": ") with [58; 32] in *.
    rewrite !length_app in Hfuel. cbn [List.length] in Hfuel.
    rewrite <- !app_assoc. cbn [List.app].
    rewrite object_members_step, scanstring_encoded by exact Hwk.
    cbn [bind]. change (json.skip_ws (58 :: ?s)) with (58 :: s).
    cbv beta iota. change (58 =? 58) with true. cbv beta iota.
    change (json.skip_ws (32 :: ?s)) with (json.skip_ws s).
    rewrite (skip_ws_starts_value _ (dumps_indent_starts_value indent level x _)).
    rewrite (Hx Hwx indent level strict f); [|lia|apply number_end_comma].
    cbn [bind]. change (json.skip_ws (44 :: ?s)) with (44 :: s).
    cbv beta iota. change (44 =? 125) with false. change (44 =? 44) with true.
    cbv beta iota.
    rewrite skip_ws_newline_indent.
    rewrite (skip_ws_starts_value _ (members_indent_starts_value indent level k' y d _)).
    rewrite (IH k' y f Hy Hwd); [reflexivity | lia].
Qed.

Lemma dumps_indent_reads_back (v : value) : reads_back_indent v.
Proof.
  induction v as [| b | z | f | s | l IH | d IH] using value_ind';
    intros Hwf indent level strict fuel rest Hfuel Hrest;
    try exact (dumps_reads_back _ Hwf strict fuel rest Hfuel Hrest).
  - destruct l as [|x l];
      [exact (dumps_reads_back (PyList []) Hwf strict fuel rest Hfuel Hrest)|].
    destruct fuel as [|fuel]; [lia|].
    rewrite dumps_indent_list in *. rewrite <- !app_assoc. cbn [List.app].
    rewrite scan_once_list.
    change (10 :: List.repeat 32 (indent * S level) ++ ?s)
      with (newline_indent indent (S level) ++ s).
    rewrite skip_ws_newline_indent.
    pose proof (items_indent_starts_value indent (S level) x l
                  (newline_indent indent level ++ 93 :: rest)) as Hstart.
    rewrite (skip_ws_starts_value _ Hstart).
    destruct (items_indent indent (S level) (x :: l)
              ++ newline_indent indent level ++ 93 :: rest) as [|c1 r1] eqn:E;
      [contradiction|].
    destruct Hstart as (_ & Hc1 & _).
    apply N.eqb_neq in Hc1. rewrite Hc1. rewrite <- E.
    inversion IH as [|? ? Hx Hl]; subst.
    rewrite (array_items_indent strict rest indent (S level) level l Hl x fuel Hx Hwf);
      [reflexivity|].
    rewrite !length_app in Hfuel. cbn [List.length] in Hfuel. lia.
  - destruct d as [|[k x] d];
      [exact (dumps_reads_back (PyDict []) Hwf strict fuel rest Hfuel Hrest)|].
    destruct fuel as [|fuel]; [lia|].
    rewrite dumps_indent_dict in *. rewrite <- !app_assoc. cbn [List.app].
    rewrite scan_once_dict.
    change (10 :: List.repeat 32 (indent * S level) ++ ?s)
      with (newline_indent indent (S level) ++ s).
    rewrite skip_ws_newline_indent.
    pose proof (members_indent_starts_value indent (S level) k x d
                  (newline_indent indent level ++ 125 :: rest)) as Hstart.
    rewrite (skip_ws_starts_value _ Hstart).
    destruct (members_indent indent (S level) ((k, x) :: d)
              ++ newline_indent indent level ++ 125 :: rest) as [|c1 r1] eqn:E;
      [contradiction|].
    destruct Hstart as (_ & _ & Hc1 & _).
    apply N.eqb_neq in Hc1. rewrite Hc1. rewrite <- E.
    inversion IH as [|? ? Hx Hl]; subst.
    rewrite (object_members_indent strict rest indent (S level) level d Hl k x fuel Hx Hwf).
    + cbn [bind]. rewrite dict_of_pairs_unique; [reflexivity|].
      cbn [wf_value] in Hwf. apply andb_true_iff in Hwf. tauto.
    + rewrite !length_app in Hfuel. cbn [List.length] in Hfuel. lia.
Qed.

(** [json.loads(json.dumps(v, indent=n)) == v] for every well-formed value. *)
Lemma loads_dumps_indent (strict : bool) (indent : nat) (v : value) :
  wf_value v = true -> json.loads strict (dumps_indent indent 0 v) = Return v.
Proof.
  intros Hwf. unfold json.loads.
  pose proof (dumps_indent_starts_value indent 0 v []) as Hstart.
  rewrite app_nil_r in Hstart.
  rewrite (skip_ws_starts_value _ Hstart).
  replace (startswith [65279] (dumps_indent indent 0 v)) with false.
  - pose proof (dumps_indent_reads_back v Hwf indent 0%nat strict
                  (json.fuel_for (dumps_indent indent 0 v)) []) as H.
    rewrite app_nil_r in H. rewrite H; [reflexivity | unfold json.fuel_for; lia | exact I].
  - destruct (dumps_indent indent 0 v) as [|c r]; [contradiction|].
    destruct Hstart as (_ & _ & _ & Hc). cbn [startswith].
    replace (65279 =? c) with false; [reflexivity|].
    symmetry. apply N.eqb_neq. congruence.
Qed.

(** X24. Run as a script (or imported), converter.py converts its sample
    text with the default settings.  When the script ends normally it has
    called the model between one and three times, and the last thing it
    prints is the indented JSON text of the converted value, in which each
    of the seven required keys is found and which [json.loads] reads back
    to that value.  When it ends with an exception, that exception is the
    failure of the third run of the chain, the model was called exactly
    three times, and only the three lines that report the failed attempts
    were printed. *)
Theorem script_prints_validated_json (endpoint : str -> ChatHuggingFace) (w : world) :
  match converter_script.main endpoint w with
  | (Return _, w') =>
      exists output added,
        trace w' = trace w ++ added ++ [Printed (dumps_indent 2 0 output)]
        /\ (1 <= invocations added <= 3)%nat
        /\ (forall k, In k required_keys -> has_key output k)
        /\ json.loads true (dumps_indent 2 0 output) = Return output
  | (Raise e, w') =>
      exists added,
        trace w' = trace w ++ added
        /\ invocations added = 3%nat /\ prints added = 3%nat
        /\ Forall (loop_event (converter_prompt_before ++ converter_script.raw_text
                               ++ converter_prompt_after)) added
        /\ converter_chain_outcome (endpoint REPO_ID) converter_script.raw_text
             (calls w' - 1) = Raise e
  end.
Proof.
  unfold converter_script.main, mbind.
  destruct (converter.convert_text_to_json endpoint converter_script.raw_text REPO_ID 2 w)
    as [r w1] eqn:Hrun.
  rewrite converter_convert_unfold in Hrun.
  apply converter_attempts_trace in Hrun; [|reflexivity].
  destruct Hrun as (added & Htr & Hcalls & Hev & Hres).
  change (Z.to_nat (2 + 1)) with 3%nat in Hres.
  destruct r as [v|e].
  - destruct Hres as (_ & _ & [(Hn0 & _)|(Hinv & Hlt & Hv)]); [discriminate Hn0|].
    cbn [print trace]. exists v, added.
    split; [rewrite Htr; now rewrite <- app_assoc|]. split; [lia|].
    apply converter_chain_outcome_validated in Hv. destruct Hv as [data Hv].
    split; [now apply converter_validate_json_inv in Hv|].
    apply loads_dumps_indent. now apply (converter_validate_json_wf data).
  - destruct Hres as (Hinv & Hp & _ & _ & Hlast).
    exists added. split; [exact Htr|]. split; [exact Hinv|]. split; [exact Hp|].
    split; [exact Hev|].
    replace (calls w1 - 1)%nat with (calls w + 3 - 1)%nat by lia. exact Hlast.
Qed.
